(** * Light-pollution backend (app.py): a shallow embedding and its properties

    The program is a Flask application.  Its pipeline fetches a few upstream
    signals over HTTP, derives a "blue ratio" per city from a base constant,
    the number of events and a random perturbation, classifies it, and
    attaches a synthetic history and recommendations.

    Modelling choices:
    - a Python [float] is an IEEE-754 binary64 number: Rocq's primitive
      [float], whose operations are specified by [SpecFloat] through the
      standard library's [FloatAxioms];
    - Python values that travel as JSON are the inductive [value];
    - effects (network, clock, random generator, stdout) are threaded through
      an explicit [world]; exceptions are the [Raise] outcome of [result];
    - the upstream services and the random generator are oracles of the
      world: the n-th request gets the n-th reply, every draw consumes one
      raw word, and the statements quantify over all worlds;
    - dict literals used as lookup tables are [gmap]s; [PERU_CITIES], whose
      iteration order is observable, is an association list. *)

From Stdlib Require Import ZArith Floats String Ascii Lia.
From stdpp Require Import gmap strings list.

Set Warnings "-inexact-float,-register-all".
Local Open Scope string_scope.
Local Open Scope Z_scope.

(** ** Python values *)

Inductive value :=
| VNone
| VBool (b : bool)
| VInt (z : Z)
| VFloat (f : float)
| VStr (s : string)
| VList (l : list value)
| VDict (kv : list (string * value)).

(** Classes of the exceptions the program can meet.  All of them derive from
    Python's [Exception], which is what every [except Exception] clause of the
    source catches.  An exception carries the text that [str(e)] gives; the
    texts of the interpreter's own errors are abbreviated. *)
Inductive exc_class :=
| TypeError | KeyError | IndexError | AttributeError
| JSONDecodeError | Timeout | ConnectionError | RequestException.

Record exn := Exn { exc : exc_class; message : string }.

Inductive result (A : Type) :=
| Ok (a : A)
| Raise (e : exn).
Arguments Ok {A} a.
Arguments Raise {A} e.

(** ** The world a request handler runs in *)

Record request := Request {
  req_url : string;
  req_params : list (string * value);
  req_timeout : Z
}.

(** What [requests.get] hands back: [resp_json] is the outcome of calling
    [.json()] on it (a decoding error raises). *)
Record response := Response {
  status_code : Z;
  resp_json : result value;
  resp_url : string
}.

Inductive http_outcome :=
| Replied (r : response)
| Failed (e : exn).

Record world := World {
  nasa_api_key : string;                   (* NASA_API_KEY, fixed at import *)
  upstream : nat -> request -> http_outcome; (* reply to the n-th request *)
  sent : list request;                     (* requests issued so far *)
  entropy : nat -> Z;                      (* raw words of the generator *)
  drawn : nat;                             (* words consumed so far *)
  clock : nat -> string -> string;         (* n-th reading, formatted *)
  ticks : nat;                             (* clock readings so far *)
  stdout : list string                     (* lines printed so far *)
}.

Definition Py (A : Type) : Type := world -> result A * world.

Definition ret {A} (a : A) : Py A := fun w => (Ok a, w).

Definition bind {A B} (m : Py A) (k : A -> Py B) : Py B :=
  fun w => match m w with
           | (Ok a, w') => k a w'
           | (Raise e, w') => (Raise e, w')
           end.

Definition raise {A} (c : exc_class) (msg : string) : Py A :=
  fun w => (Raise (Exn c msg), w).

(** [try: body / except Exception as e: handler e] *)
Definition try_except {A} (body : Py A) (handler : exn -> Py A) : Py A :=
  fun w => match body w with
           | (Ok a, w') => (Ok a, w')
           | (Raise e, w') => handler e w'
           end.

Declare Scope py_scope.
Delimit Scope py_scope with py.
Notation "x <- c ;; k" := (bind c (fun x => k))
  (at level 100, c at next level, right associativity) : py_scope.
Notation "c ;;; k" := (bind c (fun _ => k))
  (at level 100, right associativity) : py_scope.
Local Open Scope py_scope.

Fixpoint mapM {A B} (f : A -> Py B) (l : list A) : Py (list B) :=
  match l with
  | [] => ret []
  | x :: xs => y <- f x ;; ys <- mapM f xs ;; ret (y :: ys)
  end.

(** *** Effects *)

Definition requests_get (url : string) (params : list (string * value))
    (timeout : Z) : Py response :=
  fun w =>
    let rq := Request url params timeout in
    let w' := World (nasa_api_key w) (upstream w) (sent w ++ [rq])
                    (entropy w) (drawn w) (clock w) (ticks w) (stdout w) in
    match upstream w (length (sent w)) rq with
    | Replied r => (Ok r, w')
    | Failed e => (Raise e, w')
    end.

Definition response_json (r : response) : Py value :=
  fun w => (resp_json r, w).

Definition print (line : string) : Py unit :=
  fun w => (Ok tt, World (nasa_api_key w) (upstream w) (sent w) (entropy w)
                         (drawn w) (clock w) (ticks w) (stdout w ++ [line])).

Definition get_api_key : Py string := fun w => (Ok (nasa_api_key w), w).

(** [datetime.now().strftime(fmt)] *)
Definition now_strftime (fmt : string) : Py string :=
  fun w => (Ok (clock w (ticks w) fmt),
            World (nasa_api_key w) (upstream w) (sent w) (entropy w)
                  (drawn w) (clock w) (S (ticks w)) (stdout w)).

Definition next_word : Py Z :=
  fun w => (Ok (entropy w (drawn w)),
            World (nasa_api_key w) (upstream w) (sent w) (entropy w)
                  (S (drawn w)) (clock w) (ticks w) (stdout w)).

(** ** Python arithmetic on floats *)

(** [float(n)] for an [int]: the nearest binary64 number. *)
Definition float_of_Z (z : Z) : float :=
  SF2Prim (binary_normalize prec emax z 0 false).

(** [max(a, b)] and [min(a, b)] with two positional arguments keep the first
    one unless the second compares strictly greater (smaller). *)
Definition py_max (a b : float) : float := if (a <? b)%float then b else a.
Definition py_min (a b : float) : float := if (b <? a)%float then b else a.

Definition round_half_even_div (n d : Z) : Z :=
  let q := n / d in
  match 2 * (n mod d) ?= d with
  | Lt => q
  | Gt => q + 1
  | Eq => if Z.even q then q else q + 1
  end.

(** [round(x, ndigits)] for [ndigits >= 0]: the exact value of [x] is rounded
    (half to even) to [ndigits] decimals and the decimal result is converted
    back to the nearest float; infinities and NaN round to themselves. *)
Definition py_round (x : float) (ndigits : Z) : float :=
  match Prim2SF x with
  | S754_finite s m e =>
      let p := 10 ^ ndigits in
      let q := if 0 <=? e then Zpos m * 2 ^ e * p
               else round_half_even_div (Zpos m * p) (2 ^ (- e)) in
      match q with
      | Zpos q' => SF2Prim (SFdiv prec emax (S754_finite s q' 0)
                                            (S754_finite false (Z.to_pos p) 0))
      | _ => if s then PrimFloat.neg_zero else PrimFloat.zero
      end
  | _ => x
  end.

(** *** The [random] module

    Every primitive draw consumes one raw word of the generator.
    [random()] is [k * 2**-53] for a 53-bit [k]; [_randbelow(n)] lies in
    [0, n). *)
Definition random_random : Py float :=
  k <- next_word ;;
  ret (float_of_Z (k mod 2 ^ 53) * 0x1p-53)%float.

Definition random_uniform (a b : float) : Py float :=
  u <- random_random ;;
  ret (a + (b - a) * u)%float.

Definition randbelow (n : Z) : Py Z :=
  k <- next_word ;;
  ret (k mod n).

Definition random_randint (a b : Z) : Py Z :=
  r <- randbelow (b - a + 1) ;;
  ret (a + r).

Definition random_choice (seq : list string) : Py string :=
  i <- randbelow (Z.of_nat (length seq)) ;;
  match seq !! Z.to_nat i with
  | Some s => ret s
  | None => raise IndexError "list index out of range"
  end.

(** ** Python operations on values *)

Fixpoint assoc {A} (k : string) (kv : list (string * A)) : option A :=
  match kv with
  | [] => None
  | (k', v) :: rest => if String.eqb k k' then Some v else assoc k rest
  end.

(** [d.get(k, dflt)] *)
Definition dict_get (d : value) (k : string) (dflt : value) : Py value :=
  match d with
  | VDict kv => ret (default dflt (assoc k kv))
  | _ => raise AttributeError "object has no attribute 'get'"
  end.

(** [d[k]] with a string key *)
Definition getitem_str (d : value) (k : string) : Py value :=
  match d with
  | VDict kv => match assoc k kv with
                | Some v => ret v
                | None => raise KeyError ("'" ++ k ++ "'")
                end
  | VList _ | VStr _ => raise TypeError "indices must be integers"
  | _ => raise TypeError "object is not subscriptable"
  end.

(** [x[0]] *)
Definition getitem_0 (x : value) : Py value :=
  match x with
  | VList (v :: _) => ret v
  | VList [] => raise IndexError "list index out of range"
  | VStr (String c _) => ret (VStr (String c EmptyString))
  | VStr EmptyString => raise IndexError "string index out of range"
  | VDict _ => raise KeyError "0"
  | _ => raise TypeError "object is not subscriptable"
  end.

(** [x[:n]] *)
Definition slice_to (n : nat) (x : value) : Py value :=
  match x with
  | VList l => ret (VList (take n l))
  | VStr s => ret (VStr (substring 0 n s))
  | _ => raise TypeError "object is not sliceable"
  end.

(** [a + b] where [b] is a string literal *)
Definition add_str (a : value) (b : string) : Py value :=
  match a with
  | VStr s => ret (VStr (s ++ b))
  | _ => raise TypeError "unsupported operand type(s) for +"
  end.

(** Truth value of an object, as used by [or]. *)
Definition truthy (v : value) : bool :=
  match v with
  | VNone => false
  | VBool b => b
  | VInt z => negb (z =? 0)
  | VFloat f => negb (f =? 0)%float
  | VStr s => negb (String.eqb s "")
  | VList l => match l with [] => false | _ => true end
  | VDict kv => match kv with [] => false | _ => true end
  end.

(** Iterating over an object: lists give their items, strings their
    characters, dicts their keys. *)
Definition iterate (v : value) : Py (list value) :=
  match v with
  | VList l => ret l
  | VStr s => ret (map (fun c => VStr (String c EmptyString)) (list_ascii_of_string s))
  | VDict kv => ret (map (fun p => VStr (fst p)) kv)
  | _ => raise TypeError "object is not iterable"
  end.

(** [d.values()] *)
Definition dict_values (d : value) : Py (list value) :=
  match d with
  | VDict kv => ret (map snd kv)
  | _ => raise AttributeError "object has no attribute 'values'"
  end.

(** [len(x)] *)
Definition py_len (x : value) : Py Z :=
  match x with
  | VList l => ret (Z.of_nat (length l))
  | VStr s => ret (Z.of_nat (String.length s))
  | VDict kv => ret (Z.of_nat (length kv))
  | _ => raise TypeError "object has no len()"
  end.

(** [for x in xs: body], where [body] updates the loop-carried state. *)
Fixpoint for_each {A S} (xs : list A) (body : A -> S -> Py S) (s : S) : Py S :=
  match xs with
  | [] => ret s
  | x :: rest => s' <- body x s ;; for_each rest body s'
  end.

(** [l[i]] on a list of floats *)
Definition getitem_list (l : list float) (i : nat) : Py float :=
  match l !! i with
  | Some x => ret x
  | None => raise IndexError "list index out of range"
  end.

(** ** The program *)

Record city_info := CityInfo {
  name : string;
  coords : list float;
  population : Z;
  region : string
}.

Definition PERU_CITIES : list (string * city_info) :=
  [ ("lima", CityInfo "Lima Metropolitana" [(-12.0464)%float; (-77.0428)%float] 11000000 "Lima");
    ("huanuco", CityInfo "Huánuco" [(-9.9295)%float; (-76.2397)%float] 196000 "Huánuco");
    ("cusco", CityInfo "Cusco" [(-13.5319)%float; (-71.9675)%float] 500000 "Cusco");
    ("arequipa", CityInfo "Arequipa" [(-16.4090)%float; (-71.5375)%float] 1100000 "Arequipa") ].

(** *** External signal adapters

    In each adapter the [try] block either returns a record ([Some]) or falls
    through ([None]); the [except] clause prints and falls through; the
    statement after the [try] returns the fallback value. *)

Definition get_nasa_apod : Py value :=
  r <- try_except
         (key <- get_api_key ;;
          response <- requests_get "https://api.nasa.gov/planetary/apod"
                        [("api_key", VStr key); ("thumbs", VBool true)] 10 ;;
          if status_code response =? 200 then
            data <- response_json response ;;
            title <- dict_get data "title" (VStr "NASA Astronomy Picture") ;;
            url <- dict_get data "url" VNone ;;
            url <- (if truthy url then ret url
                    else dict_get data "thumbnail_url" VNone) ;;
            explanation <- dict_get data "explanation" (VStr "") ;;
            explanation <- slice_to 200 explanation ;;
            explanation <- add_str explanation "..." ;;
            date <- dict_get data "date" (VStr "") ;;
            ret (Some (VDict [("title", title); ("url", url);
                              ("explanation", explanation); ("date", date);
                              ("success", VBool true)]))
          else ret None)
         (fun e => print ("APOD Error: " ++ message e) ;;; ret None) ;;
  match r with
  | Some v => ret v
  | None => ret (VDict [("success", VBool false)])
  end.

Definition event_record (event : value) : Py value :=
  title <- getitem_str event "title" ;;
  geometry <- getitem_str event "geometry" ;;
  g0 <- getitem_0 geometry ;;
  date <- getitem_str g0 "date" ;;
  date <- slice_to 10 date ;;
  categories <- getitem_str event "categories" ;;
  c0 <- getitem_0 categories ;;
  category <- getitem_str c0 "title" ;;
  ret (VDict [("title", title); ("date", date); ("category", category)]).

Definition get_nasa_events : Py (list value) :=
  r <- try_except
         (response <- requests_get "https://eonet.gsfc.nasa.gov/api/v3/events"
                        [("limit", VInt 5); ("days", VInt 30)] 8 ;;
          if status_code response =? 200 then
            data <- response_json response ;;
            events <- dict_get data "events" (VList []) ;;
            first3 <- slice_to 3 events ;;
            items <- iterate first3 ;;
            records <- mapM event_record items ;;
            ret (Some records)
          else ret None)
         (fun e => print ("EONET Error: " ++ message e) ;;; ret None) ;;
  match r with
  | Some l => ret l
  | None => ret []
  end.

Definition get_earth_imagery (city_coords : list float) : Py value :=
  r <- try_except
         (lon <- getitem_list city_coords 1 ;;
          lat <- getitem_list city_coords 0 ;;
          key <- get_api_key ;;
          response <- requests_get "https://api.nasa.gov/planetary/earth/imagery"
                        [("lon", VFloat lon); ("lat", VFloat lat);
                         ("date", VStr "2023-06-01"); ("dim", VFloat 0.15);
                         ("api_key", VStr key)] 10 ;;
          if status_code response =? 200 then
            ret (Some (VDict [("available", VBool true);
                              ("url", VStr (resp_url response))]))
          else ret None)
         (fun e => print ("Earth Imagery Error: " ++ message e) ;;; ret None) ;;
  match r with
  | Some v => ret v
  | None => ret (VDict [("available", VBool false)])
  end.

Definition sum_Z (l : list Z) : Z := fold_left Z.add l 0.

Definition get_asteroid_data : Py value :=
  r <- try_except
         (today <- now_strftime "%Y-%m-%d" ;;
          key <- get_api_key ;;
          response <- requests_get "https://api.nasa.gov/neo/rest/v1/feed"
                        [("start_date", VStr today); ("end_date", VStr today);
                         ("api_key", VStr key)] 8 ;;
          if status_code response =? 200 then
            data <- response_json response ;;
            near_earth_objects <- dict_get data "near_earth_objects" (VDict []) ;;
            objs <- dict_values near_earth_objects ;;
            lens <- mapM py_len objs ;;
            ret (Some (VDict [("count", VInt (sum_Z lens)); ("date", VStr today);
                              ("success", VBool true)]))
          else ret None)
         (fun e => print ("Asteroid Error: " ++ message e) ;;; ret None) ;;
  match r with
  | Some v => ret v
  | None => ret (VDict [("success", VBool false); ("count", VInt 0)])
  end.

Definition get_mars_weather : Py value :=
  temp <- random_randint (-80) (-20) ;;
  season <- random_choice ["Primavera"; "Verano"; "Otoño"; "Invierno"] ;;
  pressure <- random_randint 600 900 ;;
  ret (VDict [("temp", VInt temp); ("season", VStr season);
              ("pressure", VInt pressure); ("success", VBool true)]).

(** *** Metric aggregator *)

Record city_base := CityBase { base : float; growth : float }.

Definition base_data : gmap string city_base :=
  {[ "lima" := CityBase 0.65 0.04;
     "huanuco" := CityBase 0.38 0.01;
     "cusco" := CityBase 0.45 0.03;
     "arequipa" := CityBase 0.55 0.035 ]}.

Definition calculate_pollution_from_nasa (city_id : string)
    (nasa_events : list value) : Py (float * float) :=
  let b := default (CityBase 0.5 0.02) (base_data !! city_id) in
  let event_impact := (float_of_Z (Z.of_nat (length nasa_events)) * 0.015)%float in
  weather_impact <- random_uniform (-0.03) 0.03 ;;
  let blue_ratio := (base b + event_impact + weather_impact)%float in
  let blue_ratio := py_max 0.2 (py_min 0.8 blue_ratio) in
  let orange_ratio := (1 - blue_ratio)%float in
  ret (blue_ratio, orange_ratio).

(** *** Classifier

    The block under the comment "Determinar estado" occurs verbatim in both
    [get_cities] and [analyze_city]. *)
Definition determine_status (blue_ratio : float) : Py (string * Z) :=
  if (0.6 <? blue_ratio)%float then
    score <- random_randint 20 40 ;; ret ("CRÍTICO", score)
  else if (0.45 <? blue_ratio)%float then
    score <- random_randint 41 69 ;; ret ("MODERADO", score)
  else
    score <- random_randint 70 85 ;; ret ("SALUDABLE", score).

(** *** Historical projector *)

Definition trends : gmap string float :=
  {[ "lima" := 0.04%float; "huanuco" := 0.01%float;
     "cusco" := 0.03%float; "arequipa" := 0.035%float ]}.

Definition history_entry (trend current_blue current_orange : float)
    (year : Z) : value :=
  let years_ago := 2023 - year in
  let blue := py_max 0.1 (current_blue - float_of_Z years_ago * trend)%float in
  let orange := py_min 0.8 (current_orange + float_of_Z years_ago * trend)%float in
  VDict [("year", VInt year);
         ("blue_ratio", VFloat (py_round blue 3));
         ("orange_ratio", VFloat (py_round orange 3))].

Definition generate_historical_data (city_id : string)
    (current_blue current_orange : float) : list value :=
  let years := [2020; 2021; 2022; 2023] in
  let trend := default 0.02%float (trends !! city_id) in
  fold_left
    (fun (history : list value) year =>
       (history ++ [history_entry trend current_blue current_orange year])%list)
    years [].

(** *** Recommendation generator *)

Definition generate_recommendations (status city_name : string) : list string :=
  if String.eqb status "CRÍTICO" then
    [ "URGENTE: Reemplazar 50% de LED azules en " ++ city_name;
      "Implementar norma técnica NASA-compatible";
      "Crear zonas de protección de cielo oscuro";
      "Sistema de monitoreo continuo con datos satelitales" ]
  else if String.eqb status "MODERADO" then
    [ "Plan de transición a LED NASA-recomendados en " ++ city_name;
      "Monitoreo mensual con Earth Imagery API";
      "Educación sobre estándares internacionales";
      "Participar en programa NASA 'Dark Sky Cities'" ]
  else
    [ "¡Excelente! " ++ city_name ++ " cumple estándares NASA";
      "Mantener certificación 'NASA Dark Sky Friendly'";
      "Compartir prácticas con Red Global NASA";
      "Implementar observatorio ciudadano" ].

(** *** Routes *)

Record http_response := HttpResponse { status : Z; body : value }.

(** A view returning [jsonify(x)] answers 200; [jsonify(x), code] answers
    [code]. *)
Definition jsonify (v : value) : http_response := HttpResponse 200 v.

Definition api_status : Py http_response :=
  nasa_events <- get_nasa_events ;;
  apod_data <- get_nasa_apod ;;
  asteroid_data <- get_asteroid_data ;;
  mars_weather <- get_mars_weather ;;
  apod_ok <- getitem_str apod_data "success" ;;
  asteroids_ok <- getitem_str asteroid_data "success" ;;
  mars_ok <- getitem_str mars_weather "success" ;;
  count <- getitem_str asteroid_data "count" ;;
  temp <- getitem_str mars_weather "temp" ;;
  ret (jsonify (VDict [
    ("nasa_connected", VBool true);
    ("apis_operational", VDict [
       ("apod", apod_ok);
       ("eonet", VBool (0 <? Z.of_nat (length nasa_events)));
       ("asteroids", asteroids_ok);
       ("mars_weather", mars_ok)]);
    ("stats", VDict [
       ("events_today", VInt (Z.of_nat (length nasa_events)));
       ("asteroids_near_earth", count);
       ("mars_temperature", temp)])])).

Definition get_cities : Py http_response :=
  nasa_events <- get_nasa_events ;;
  cities_data <-
    for_each PERU_CITIES
      (fun '(city_id, info) (cities_data : list value) =>
         ratios <- calculate_pollution_from_nasa city_id nasa_events ;;
         let blue_ratio := fst ratios in
         st <- determine_status blue_ratio ;;
         ret (cities_data ++
              [VDict [("id", VStr city_id);
                      ("name", VStr (name info));
                      ("region", VStr (region info));
                      ("status", VStr (fst st));
                      ("health_score", VInt (snd st));
                      ("events_affecting",
                       VInt (Z.of_nat (length nasa_events)))]])%list)
      [] ;;
  ret (jsonify (VList cities_data)).

Definition analyze_city (city_id : string) : Py http_response :=
  match assoc city_id PERU_CITIES with
  | None =>
      ret (HttpResponse 404 (VDict [("error", VStr "Ciudad no encontrada")]))
  | Some city_data =>
      nasa_events <- get_nasa_events ;;
      apod_data <- get_nasa_apod ;;
      earth_imagery <- get_earth_imagery (coords city_data) ;;
      asteroid_data <- get_asteroid_data ;;
      mars_weather <- get_mars_weather ;;
      ratios <- calculate_pollution_from_nasa city_id nasa_events ;;
      let blue_ratio := fst ratios in
      let orange_ratio := snd ratios in
      st <- determine_status blue_ratio ;;
      let status := fst st in
      let health_score := snd st in
      last_updated <- now_strftime "%Y-%m-%d %H:%M:%S" ;;
      ret (jsonify (VDict [
        ("city_info", VDict [
           ("name", VStr (name city_data));
           ("region", VStr (region city_data));
           ("population", VInt (population city_data));
           ("coordinates", VList (map VFloat (coords city_data)));
           ("description",
            VStr ("Monitoreo de contaminación lumínica en " ++ name city_data))]);
        ("pollution_analysis", VDict [
           ("status", VStr status);
           ("health_score", VInt health_score);
           ("blue_ratio", VFloat (py_round blue_ratio 3));
           ("orange_ratio", VFloat (py_round orange_ratio 3));
           ("last_updated", VStr last_updated)]);
        ("nasa_data", VDict [
           ("apod", apod_data);
           ("events", VList nasa_events);
           ("earth_imagery", earth_imagery);
           ("asteroids", asteroid_data);
           ("mars_weather", mars_weather)]);
        ("historical_data",
         VList (generate_historical_data city_id blue_ratio orange_ratio));
        ("recommendations",
         VList (map VStr (generate_recommendations status (name city_data))))]))
  end.


Definition nasa_events : Py http_response :=
  l <- get_nasa_events ;; ret (jsonify (VList l)).


(** Reading a field of a response body. *)
Definition field (k : string) (v : value) : option value :=
  match v with
  | VDict kv => assoc k kv
  | _ => None
  end.

(** * Vocabulary of the statements

    ** Outcomes of computations *)

(** [returns p w Q]: run from [w], the computation [p] returns normally and
    its value and final world satisfy [Q]. *)
Definition returns {A} (p : Py A) (w : world) (Q : A -> world -> Prop) : Prop :=
  exists a w', p w = (Ok a, w') /\ Q a w'.

(** [safe p w Q]: if [p] returns normally from [w], then [Q] holds of its
    value and final world (an exception is allowed). *)
Definition safe {A} (p : Py A) (w : world) (Q : A -> world -> Prop) : Prop :=
  match p w with
  | (Ok a, w') => Q a w'
  | (Raise _, _) => True
  end.

(** A computation that leaves the world as it found it. *)
Definition pure {A} (p : Py A) : Prop := forall w, snd (p w) = w.

(** The world after [print line]. *)
Definition log_line (line : string) (w : world) : world := snd (print line w).

(** ** Binary64 numbers *)

Abbreviation fin m e := (S754_finite false m e).

(** The numbers 1, 0.2, 0.8 and 1 - 0.8 with their mantissa and exponent. *)
Definition SF1 := fin 4503599627370496 (-52).
Definition SF02 := fin 7205759403792794 (-55).
Definition SF08 := fin 7205759403792794 (-53).
Definition SF08c := fin 7205759403792792 (-55).

(** What holds of [r = 1 - b] for a number [b = m * 2^e] of [[0.2, 0.8]]. *)
Definition sub_one_post (m : positive) (e : Z) (r : spec_float) : Prop :=
  (exists m' e', r = fin m' e') /\
  SFleb SF08c r = true /\
  SFleb r SF08 = true /\
  (SFltb (fin m e) SF08 = true -> SFleb SF02 r = true).

(** ** The aggregator and the classifier *)

(** The clamp of the aggregator. *)
Definition clamp (x : float) : float := py_max 0.2 (py_min 0.8 x).

(** The base constant the aggregator uses for a city. *)
Definition base_of (city_id : string) : float :=
  base (default (CityBase 0.5 0.02) (base_data !! city_id)).

(** The three conditions of the classifier. *)
Definition in_critical (b : float) : bool := (0.6 <? b)%float.
Definition in_moderate (b : float) : bool := (0.45 <? b)%float && (b <=? 0.6)%float.
Definition in_healthy (b : float) : bool := (b <=? 0.45)%float.

(** ** The projector *)

(** The per-city trend as the specification words it. *)
Definition city_trend (city_id : string) : float :=
  if String.eqb city_id "lima" then 0.04
  else if String.eqb city_id "huanuco" then 0.01
  else if String.eqb city_id "cusco" then 0.03
  else if String.eqb city_id "arequipa" then 0.035
  else 0.02.

(** [blue_ratio + orange_ratio] of a history entry. *)
Definition entry_sum (entry : value) : option float :=
  match field "blue_ratio" entry, field "orange_ratio" entry with
  | Some (VFloat b), Some (VFloat o) => Some (b + o)%float
  | _, _ => None
  end.

Definition sums_to_one (entry : value) : bool :=
  match entry_sum entry with
  | Some s => (s =? 1)%float
  | None => false
  end.

(** A clamp of the projector binds for [year] when it changes the
    projected value. *)
Definition clamp_binds (trend current_blue current_orange : float) (year : Z) : bool :=
  let years_ago := 2023 - year in
  let blue := (current_blue - float_of_Z years_ago * trend)%float in
  let orange := (current_orange + float_of_Z years_ago * trend)%float in
  negb (py_max 0.1 blue =? blue)%float || negb (py_min 0.8 orange =? orange)%float.

(** ** The adapters *)

(** The requests the adapters issue. *)
Definition apod_request (w : world) : request :=
  Request "https://api.nasa.gov/planetary/apod"
          [("api_key", VStr (nasa_api_key w)); ("thumbs", VBool true)] 10.

Definition events_request : request :=
  Request "https://eonet.gsfc.nasa.gov/api/v3/events"
          [("limit", VInt 5); ("days", VInt 30)] 8.

Definition imagery_request (w : world) (lat lon : float) : request :=
  Request "https://api.nasa.gov/planetary/earth/imagery"
          [("lon", VFloat lon); ("lat", VFloat lat);
           ("date", VStr "2023-06-01"); ("dim", VFloat 0.15);
           ("api_key", VStr (nasa_api_key w))] 10.

Definition asteroid_request (w : world) : request :=
  let today := clock w (ticks w) "%Y-%m-%d" in
  Request "https://api.nasa.gov/neo/rest/v1/feed"
          [("start_date", VStr today); ("end_date", VStr today);
           ("api_key", VStr (nasa_api_key w))] 8.

(** The next request [rq] fails: the transport raises (time-out, connection
    error), or the reply is not a 200, or its body does not decode. *)
Inductive upstream_failure (w : world) (rq : request) : Prop :=
| transport_error e :
    upstream w (length (sent w)) rq = Failed e -> upstream_failure w rq
| bad_status r :
    upstream w (length (sent w)) rq = Replied r -> status_code r <> 200 ->
    upstream_failure w rq
| undecodable r e :
    upstream w (length (sent w)) rq = Replied r -> resp_json r = Raise e ->
    upstream_failure w rq.

(** The next request [rq] gets no 200 reply. *)
Definition no_success_reply (w : world) (rq : request) : Prop :=
  forall r, upstream w (length (sent w)) rq = Replied r -> status_code r <> 200.

(** The fallback values of the adapters. *)
Definition apod_fallback : value := VDict [("success", VBool false)].
Definition imagery_fallback : value := VDict [("available", VBool false)].
Definition asteroid_fallback : value :=
  VDict [("success", VBool false); ("count", VInt 0)].

(** ** The routes *)

Definition known_cities : list string := ["lima"; "huanuco"; "cusco"; "arequipa"].

Definition status_labels : list string := ["CRÍTICO"; "MODERADO"; "SALUDABLE"].

(** The entry of [/api/cities] for one city. *)
Definition city_entry (n_events : nat) (city : string * city_info)
    (st : string) (score : Z) : value :=
  VDict [("id", VStr (fst city));
         ("name", VStr (name (snd city)));
         ("region", VStr (region (snd city)));
         ("status", VStr st);
         ("health_score", VInt score);
         ("events_affecting", VInt (Z.of_nat n_events))].

(** ** Sample worlds *)

(** Every request times out and the generator yields zeros. *)
Definition offline_world : world :=
  World "DEMO_KEY" (fun _ _ => Failed (Exn Timeout "timed out")) []
        (fun _ => 0) 0 (fun _ _ => "2024-01-01") 0 [].

(** Every request is answered 503. *)
Definition unavailable_world : world :=
  World "DEMO_KEY"
        (fun _ _ => Replied (Response 503
           (Raise (Exn JSONDecodeError "Expecting value")) ""))
        [] (fun _ => 0) 0 (fun _ _ => "2024-01-01") 0 [].

(** Every request is answered 200 with one document that serves all
    adapters; the feed lists four events. *)
Definition sample_event (title : string) : value :=
  VDict [("title", VStr title);
         ("geometry", VList [VDict [("date", VStr "2024-01-01T00:00:00Z")]]);
         ("categories", VList [VDict [("title", VStr "Wildfires")]])].

Definition sample_document : value :=
  VDict [("title", VStr "Orion");
         ("explanation", VStr "A nebula");
         ("events", VList [sample_event "A"; sample_event "B";
                           sample_event "C"; sample_event "D"]);
         ("near_earth_objects",
          VDict [("2024-01-01", VList [VNone; VNone])])].

Definition online_world : world :=
  World "DEMO_KEY"
        (fun _ _ => Replied (Response 200 (Ok sample_document)
                                      "https://example.org/img"))
        [] (fun n => Z.of_nat n * 1234567) 0 (fun _ _ => "2024-01-01") 0 [].

(** The event feed lists an event without [geometry]. *)
Definition malformed_world : world :=
  World "DEMO_KEY"
        (fun _ _ => Replied (Response 200
           (Ok (VDict [("events", VList [VDict [("title", VStr "A")]])])) ""))
        [] (fun _ => 0) 0 (fun _ _ => "2024-01-01") 0 [].

(** * Vocabulary of the further properties *)

(** The world after one more request, one more clock reading, one more
    random word. *)
Definition sent_more (rq : request) (w : world) : world :=
  World (nasa_api_key w) (upstream w) (sent w ++ [rq])
        (entropy w) (drawn w) (clock w) (ticks w) (stdout w).

Definition ticked (w : world) : world :=
  World (nasa_api_key w) (upstream w) (sent w) (entropy w)
        (drawn w) (clock w) (S (ticks w)) (stdout w).

Definition drew (w : world) : world :=
  World (nasa_api_key w) (upstream w) (sent w) (entropy w)
        (S (drawn w)) (clock w) (ticks w) (stdout w).

(** [w'] is [w] after the request [rq] and at most one printed line. *)
Definition after_request (rq : request) (w w' : world) : Prop :=
  w' = sent_more rq w \/ exists line, w' = log_line line (sent_more rq w).

(** No request of the world is ever answered 200. *)
Definition no_upstream_success (w : world) : Prop :=
  forall n rq r, upstream w n rq = Replied r -> status_code r <> 200.

(** A [date] of at most ten characters or items. *)
Definition date_short (d : value) : Prop :=
  match d with
  | VStr s => (String.length s <= 10)%nat
  | VList l => (length l <= 10)%nat
  | _ => False
  end.

(** A record as the event adapter builds it. *)
Definition event_shape (record : value) : Prop :=
  exists t d c,
    record = VDict [("title", t); ("date", d); ("category", c)] /\ date_short d.


(** An event that lacks one of the three keys the adapter reads. *)
Definition lacks_key (event : value) : Prop :=
  exists kv, event = VDict kv /\
    (assoc "title" kv = None \/ assoc "geometry" kv = None \/
     assoc "categories" kv = None).

(** A status and a score of its band. *)
Definition in_band (st : string) (score : Z) : Prop :=
  (st = "CRÍTICO" /\ 20 <= score <= 40) \/
  (st = "MODERADO" /\ 41 <= score <= 69) \/
  (st = "SALUDABLE" /\ 70 <= score <= 85).

(** The band of a status agrees with the blue ratio it was decided on. *)
Definition decided_on (blue : float) (st : string) : Prop :=
  ((0.6 <? blue)%float = true /\ st = "CRÍTICO") \/
  ((0.6 <? blue)%float = false /\ (0.45 <? blue)%float = true /\ st = "MODERADO") \/
  ((0.6 <? blue)%float = false /\ (0.45 <? blue)%float = false /\ st = "SALUDABLE").

Definition seasons : list string := ["Primavera"; "Verano"; "Otoño"; "Invierno"].

(** The records the adapters build when the upstream call succeeds. *)
Definition apod_shape (v : value) : Prop :=
  exists title url s date,
    v = VDict [("title", title); ("url", url);
               ("explanation", VStr (s ++ "...")); ("date", date);
               ("success", VBool true)] /\
    (String.length s <= 200)%nat.

Definition asteroid_shape (today : string) (v : value) : Prop :=
  exists n,
    v = VDict [("count", VInt n); ("date", VStr today); ("success", VBool true)] /\
    0 <= n.

Definition imagery_shape (v : value) : Prop :=
  exists url, v = VDict [("available", VBool true); ("url", VStr url)].

Definition mars_shape (v : value) : Prop :=
  exists temp season pressure,
    v = VDict [("temp", VInt temp); ("season", VStr season);
               ("pressure", VInt pressure); ("success", VBool true)] /\
    -80 <= temp <= -20 /\ season ∈ seasons /\ 600 <= pressure <= 900.

(** Every request is answered 200 with a JSON document that is a list of
    numbers, not an object. *)
Definition odd_world : world :=
  World "DEMO_KEY"
        (fun _ _ => Replied (Response 200 (Ok (VList [VInt 1; VInt 2])) ""))
        [] (fun _ => 0) 0 (fun _ _ => "2024-01-01") 0 [].

(** The four adapters that call an upstream service, as one family: what
    each runs, the request it issues, the label of its log line, its
    fallback and the world in which its request is issued (the asteroid
    adapter reads the clock first). *)
Inductive adapter :=
| Apod
| Eonet
| Imagery (lat lon : float)
| Asteroids.

Definition adapter_run (a : adapter) : Py value :=
  match a with
  | Apod => get_nasa_apod
  | Eonet => l <- get_nasa_events ;; ret (VList l)
  | Imagery lat lon => get_earth_imagery [lat; lon]
  | Asteroids => get_asteroid_data
  end.

Definition adapter_request (a : adapter) (w : world) : request :=
  match a with
  | Apod => apod_request w
  | Eonet => events_request
  | Imagery lat lon => imagery_request w lat lon
  | Asteroids => asteroid_request w
  end.

Definition adapter_label (a : adapter) : string :=
  match a with
  | Apod => "APOD Error: "
  | Eonet => "EONET Error: "
  | Imagery _ _ => "Earth Imagery Error: "
  | Asteroids => "Asteroid Error: "
  end.

Definition adapter_fallback (a : adapter) : value :=
  match a with
  | Apod => apod_fallback
  | Eonet => VList []
  | Imagery _ _ => imagery_fallback
  | Asteroids => asteroid_fallback
  end.

Definition before_request (a : adapter) (w : world) : world :=
  match a with
  | Asteroids => ticked w
  | _ => w
  end.

(** The asteroid feed of a reply: the value under [near_earth_objects]
    maps each day to the list of that day's objects. *)
Definition days_of (days : list (string * value)) (lists : list (list value)) : Prop :=
  Forall2 (fun day l => snd day = VList l) days lists.

(** The body of the status route and of the analysis route, from the
    values that go into them. *)
Definition status_body (apod_ok eonet_ok asteroids_ok : bool)
    (n_events count temp : Z) : value :=
  VDict [("nasa_connected", VBool true);
         ("apis_operational", VDict [
            ("apod", VBool apod_ok);
            ("eonet", VBool eonet_ok);
            ("asteroids", VBool asteroids_ok);
            ("mars_weather", VBool true)]);
         ("stats", VDict [
            ("events_today", VInt n_events);
            ("asteroids_near_earth", VInt count);
            ("mars_temperature", VInt temp)])].

Definition analysis_body (city_id : string) (info : city_info)
    (blue : float) (st : string) (score : Z) (last_updated : string)
    (apod : value) (events : list value) (imagery asteroids mars : value) : value :=
  VDict [("city_info", VDict [
            ("name", VStr (name info));
            ("region", VStr (region info));
            ("population", VInt (population info));
            ("coordinates", VList (map VFloat (coords info)));
            ("description",
             VStr ("Monitoreo de contaminación lumínica en " ++ name info))]);
         ("pollution_analysis", VDict [
            ("status", VStr st);
            ("health_score", VInt score);
            ("blue_ratio", VFloat (py_round blue 3));
            ("orange_ratio", VFloat (py_round (1 - blue) 3));
            ("last_updated", VStr last_updated)]);
         ("nasa_data", VDict [
            ("apod", apod);
            ("events", VList events);
            ("earth_imagery", imagery);
            ("asteroids", asteroids);
            ("mars_weather", mars)]);
         ("historical_data",
          VList (generate_historical_data city_id blue (1 - blue)));
         ("recommendations",
          VList (map VStr (generate_recommendations st (name info))))].

(** Every request is answered 200 with an object that lists no events. *)
Definition odd_feed_world : world :=
  World "DEMO_KEY"
        (fun _ _ => Replied (Response 200 (Ok (VDict [("title", VStr "Orion")])) ""))
        [] (fun _ => 0) 0 (fun _ _ => "2024-01-01") 0 [].

(** * Vocabulary of binary64 rounding *)

(** After [k] right shifts of the mantissa [M], the record holds the
    quotient, and its round and sticky bits are set only if bits were lost. *)
Definition shr_inv (M k : Z) (mrs : shr_record) : Prop :=
  shr_m mrs = M / 2 ^ k /\ (shr_r mrs || shr_s mrs = true -> M mod 2 ^ k <> 0).

(** The mantissa that [binary_round_aux] keeps is the quotient [q] of the
    shift or, only when bits were lost, [q + 1]. *)
Definition faithful (m n q' : Z) : Prop :=
  q' = m / 2 ^ n \/ (q' = m / 2 ^ n + 1 /\ m mod 2 ^ n <> 0).

(** The float made of a rounded mantissa [q'] at exponent [e1]. *)
Definition rounded (s : bool) (q' e1 : Z) : spec_float :=
  if q' =? 0 then S754_zero s
  else if q' =? 2 ^ 53 then
    (if e1 + 1 <=? 971 then S754_finite s (Z.to_pos (2 ^ 52)) (e1 + 1)
     else S754_infinity s)
  else if e1 <=? 971 then S754_finite s (Z.to_pos q') e1
  else S754_infinity s.

(** The value of a finite binary64 number, in units of 2^-1074. *)
Definition SF2Z (x : spec_float) : Z :=
  match x with
  | S754_finite s m e => cond_Zopp s (Zpos m * 2 ^ (e + 1074))
  | _ => 0
  end.

Definition SFfinite (x : spec_float) : bool :=
  match x with
  | S754_finite _ _ _ | S754_zero _ => true
  | _ => false
  end.

Definition F2Z (x : float) : Z := SF2Z (Prim2SF x).
Definition finite_float (x : float) : bool := SFfinite (Prim2SF x).

(** * Vocabulary of the aggregator's windows *)

(** [x] lies within the pair of bounds [win]. *)
Definition in_window (x : float) (win : float * float) : Prop :=
  (fst win <=? x)%float = true /\ (x <=? snd win)%float = true.

(** The sum [B + noise], for a noise of at most 0.03 in magnitude, stays
    within [[lo, hi]], and [[lo, hi]] is strictly inside the clamp. *)
Definition window_ok (B lo hi : float) : bool :=
  finite_float B && finite_float lo && finite_float hi &&
  (F2Z 0.2 <? F2Z lo) && (F2Z hi <? F2Z 0.8) &&
  (F2Z lo + F2Z 0.03 <=? F2Z B) && (F2Z B + F2Z 0.03 <=? F2Z hi).

(** Where the blue ratio of a reference city lies: with no event, and with
    one to three events. *)
Definition blue_window (city_id : string) (n : nat) : float * float :=
  match n with
  | O =>
      if String.eqb city_id "lima" then (0.61, 0.69)
      else if String.eqb city_id "huanuco" then (0.34, 0.42)
      else if String.eqb city_id "cusco" then (0.41, 0.49)
      else if String.eqb city_id "arequipa" then (0.51, 0.59)
      else (0.2, 0.8)
  | _ =>
      if String.eqb city_id "lima" then (0.61, 0.73)
      else if String.eqb city_id "huanuco" then (0.34, 0.46)
      else if String.eqb city_id "cusco" then (0.41, 0.53)
      else if String.eqb city_id "arequipa" then (0.51, 0.63)
      else (0.2, 0.8)
  end%float.

(** The statuses the classifier can give within a window. *)
Definition statuses_of_window (win : float * float) : list string :=
  ((if F2Z 0.6 <? F2Z (snd win) then ["CRÍTICO"] else []) ++
   (if (F2Z 0.45 <? F2Z (snd win)) && (F2Z (fst win) <=? F2Z 0.6)
    then ["MODERADO"] else []) ++
   (if F2Z (fst win) <=? F2Z 0.45 then ["SALUDABLE"] else []))%list.

(** The statuses a city can get from the routes: with no event, and with
    one to three events. *)
Definition possible_statuses (city_id : string) (n : nat) : list string :=
  match n with
  | O =>
      if String.eqb city_id "lima" then ["CRÍTICO"]
      else if String.eqb city_id "huanuco" then ["SALUDABLE"]
      else if String.eqb city_id "cusco" then ["MODERADO"; "SALUDABLE"]
      else if String.eqb city_id "arequipa" then ["MODERADO"]
      else status_labels
  | _ =>
      if String.eqb city_id "lima" then ["CRÍTICO"]
      else if String.eqb city_id "huanuco" then ["MODERADO"; "SALUDABLE"]
      else if String.eqb city_id "cusco" then ["MODERADO"; "SALUDABLE"]
      else if String.eqb city_id "arequipa" then ["CRÍTICO"; "MODERADO"]
      else status_labels
  end.

(** A history entry without the clamps of the projector. *)
Definition plain_entry (trend current_blue current_orange : float)
    (year : Z) : value :=
  let years_ago := 2023 - year in
  VDict [("year", VInt year);
         ("blue_ratio",
          VFloat (py_round (current_blue - float_of_Z years_ago * trend) 3));
         ("orange_ratio",
          VFloat (py_round (current_orange + float_of_Z years_ago * trend) 3))].

(** * Properties

    ** Running the model

    The values below are those CPython prints for the same expressions. *)

Example round_half_even_samples :
  py_round 2.675 2 = 2.67%float /\ py_round 0.0005 3 = 0.001%float /\
  py_round 0.125 3 = 0.125%float /\ py_round (-0.0001) 3 = (-0)%float /\
  py_round 0.20049999999999998 3 = 0.2%float /\
  py_round 123456789.123456 3 = 123456789.123%float.
Proof. repeat split; reflexivity. Qed.

Example float_of_Z_samples :
  float_of_Z 3 = 3%float /\ float_of_Z 0 = 0%float /\
  float_of_Z 9007199254740993 = 9007199254740992%float.
Proof. repeat split; reflexivity. Qed.

Example one_minus_samples :
  (1 - 0.8)%float = 0.19999999999999996%float /\ (1 - 0.2)%float = 0.8%float /\
  (1 - 0.8 <? 0.2)%float = true.
Proof. repeat split; reflexivity. Qed.

Example aggregator_samples :
  fst (calculate_pollution_from_nasa "lima" [] offline_world)
  = Ok (0.62%float, 0.38%float) /\
  fst (calculate_pollution_from_nasa "cusco" (replicate 3 (VDict [])) offline_world)
  = Ok (0.46499999999999997%float, 0.535%float).
Proof. split; reflexivity. Qed.

Example projector_sample :
  generate_historical_data "lima" 0.2 0.8
  = [VDict [("year", VInt 2020); ("blue_ratio", VFloat 0.1); ("orange_ratio", VFloat 0.8)];
     VDict [("year", VInt 2021); ("blue_ratio", VFloat 0.12); ("orange_ratio", VFloat 0.8)];
     VDict [("year", VInt 2022); ("blue_ratio", VFloat 0.16); ("orange_ratio", VFloat 0.8)];
     VDict [("year", VInt 2023); ("blue_ratio", VFloat 0.2); ("orange_ratio", VFloat 0.8)]].
Proof. reflexivity. Qed.

Example events_truncated :
  fst (get_nasa_events online_world)
  = Ok [VDict [("title", VStr "A"); ("date", VStr "2024-01-01"); ("category", VStr "Wildfires")];
        VDict [("title", VStr "B"); ("date", VStr "2024-01-01"); ("category", VStr "Wildfires")];
        VDict [("title", VStr "C"); ("date", VStr "2024-01-01"); ("category", VStr "Wildfires")]].
Proof. reflexivity. Qed.

Example events_malformed :
  fst (get_nasa_events malformed_world) = Ok [] /\
  stdout (snd (get_nasa_events malformed_world)) = ["EONET Error: 'geometry'"].
Proof. split; reflexivity. Qed.

Example apod_online :
  fst (get_nasa_apod online_world)
  = Ok (VDict [("title", VStr "Orion"); ("url", VNone);
               ("explanation", VStr "A nebula..."); ("date", VStr "");
               ("success", VBool true)]).
Proof. reflexivity. Qed.

Example asteroids_online :
  fst (get_asteroid_data online_world)
  = Ok (VDict [("count", VInt 2); ("date", VStr "2024-01-01"); ("success", VBool true)]).
Proof. reflexivity. Qed.

(** ** Binary64 arithmetic on [spec_float] *)

Lemma digits2_pos_size p : digits2_pos p = Pos.size p.
Proof. induction p; simpl; congruence. Qed.

Lemma digits2_pos_bounds (p : positive) (d : Z) :
  2 ^ (d - 1) <= Zpos p < 2 ^ d -> Zpos (digits2_pos p) = d.
Proof.
  intros [Hlo Hhi]. rewrite digits2_pos_size.
  assert (Hd : 0 < d).
  { destruct (Z.ltb_spec 0 d); [done|]. 
    assert (2 ^ d <= 1). { destruct (Z.eq_dec d 0) as [->|]; [simpl; lia|]. rewrite Z.pow_neg_r; lia. }
    lia. }
  pose proof (Pos.size_gt p) as Hgt.
  pose proof (Pos.size_le p) as Hle.
  apply Pos2Z.pos_lt_pos in Hgt. apply Pos2Z.pos_le_pos in Hle.
  rewrite Pos2Z.inj_pow in Hgt, Hle.
  assert (0 < Z.pos (Pos.size p)) by lia.
  generalize dependent (Z.pos (Pos.size p)). intros s Hgt Hle Hs.
  destruct (Z.lt_trichotomy s d) as [Hlt | [Heq | Hgt']]; [|done|].
  - assert (2 ^ s <= 2 ^ (d - 1)) by (apply Z.pow_le_mono_r; lia). lia.
  - assert (2 ^ d <= 2 ^ (s - 1)) by (apply Z.pow_le_mono_r; lia).
    replace s with (s - 1 + 1) in Hle at 1 by lia.
    rewrite Z.pow_add_r in Hle by lia. lia.
Qed.


Lemma digits2_pos_range (p : positive) :
  2 ^ (Zpos (digits2_pos p) - 1) <= Zpos p < 2 ^ Zpos (digits2_pos p).
Proof.
  rewrite digits2_pos_size.
  pose proof (Pos.size_gt p) as Hgt.
  pose proof (Pos.size_le p) as Hle.
  apply Pos2Z.pos_lt_pos in Hgt. apply Pos2Z.pos_le_pos in Hle.
  rewrite Pos2Z.inj_pow in Hgt, Hle.
  assert (0 < Z.pos (Pos.size p)) by lia.
  generalize dependent (Z.pos (Pos.size p)). intros s Hgt Hle Hs.
  split; [|lia].
  replace s with (s - 1 + 1) in Hle by lia.
  rewrite Z.pow_add_r in Hle by lia. lia.
Qed.


Lemma SFleb_fin m1 e1 m2 e2 :
  SFleb (fin m1 e1) (fin m2 e2) = true <-> e1 < e2 \/ (e1 = e2 /\ Zpos m1 <= Zpos m2).
Proof.
  unfold SFleb, SFcompare.
  destruct (Z.compare_spec e1 e2); [|intuition lia..].
  change (Pos.compare_cont Eq m1 m2) with (Pos.compare m1 m2).
  destruct (Pos.compare_spec m1 m2); intuition (try discriminate; lia).
Qed.

Lemma SFltb_fin m1 e1 m2 e2 :
  SFltb (fin m1 e1) (fin m2 e2) = true <-> e1 < e2 \/ (e1 = e2 /\ Zpos m1 < Zpos m2).
Proof.
  unfold SFltb, SFcompare.
  destruct (Z.compare_spec e1 e2); [|intuition lia..].
  change (Pos.compare_cont Eq m1 m2) with (Pos.compare m1 m2).
  destruct (Pos.compare_spec m1 m2); intuition (try discriminate; lia).
Qed.

Lemma binary_round_aux_finish s mx ex lx mrs e' r :
  shr_fexp prec emax mx ex lx = (mrs, e') ->
  round_nearest_even (shr_m mrs) (loc_of_shr_record mrs) = Zpos r ->
  Zpos (digits2_pos r) = prec -> emin <= e' <= emax - prec ->
  binary_round_aux prec emax s mx ex lx = S754_finite s r e'.
Proof.
  intros Hshr Hrnd Hd [He1 He2].
  unfold binary_round_aux. rewrite Hshr, Hrnd.
  unfold shr_fexp. simpl Zdigits2. rewrite Hd.
  replace (fexp prec emax (prec + e') - e') with 0.
  2:{ unfold fexp, SpecFloat.emin, prec, emax in *. lia. }
  simpl. destruct (Z.leb_spec e' (emax - prec)); [done|lia].
Qed.

Lemma binary_round_aux_canonical s m e :
  Zpos (digits2_pos m) = prec -> emin <= e <= emax - prec ->
  binary_round_aux prec emax s (Zpos m) e loc_Exact = S754_finite s m e.
Proof.
  intros Hd He.
  apply binary_round_aux_finish with (mrs := Build_shr_record (Zpos m) false false); try done.
  unfold shr_fexp. simpl Zdigits2. rewrite Hd.
  replace (fexp prec emax (prec + e) - e) with 0; [done|].
  unfold fexp, SpecFloat.emin, prec, emax in *. lia.
Qed.


Lemma SFsub_one_fin m e :
  -55 <= e <= -53 ->
  SFsub prec emax SF1 (fin m e)
  = binary_normalize prec emax (2 ^ (- e) - Zpos m) e false.
Proof.
  intros He. assert (e = -55 \/ e = -54 \/ e = -53) as [-> | [-> | ->]] by lia;
    reflexivity.
Qed.

Ltac sf_order :=
  unfold SF02, SF08, SF08c in *; rewrite ?SFleb_fin, ?SFltb_fin in *; lia.

(** Exact case: 1 - b for b in [0.5, 0.8]. *)
Lemma sub_one_exact m :
  2 ^ 52 <= Zpos m <= 7205759403792794 ->
  sub_one_post m (-53) (binary_normalize prec emax (2 ^ 53 - Zpos m) (-53) false).
Proof.
  intros Hm.
  destruct (2 ^ 53 - Zpos m) as [|p|p] eqn:HM; try lia.
  unfold binary_normalize, binary_round.
  assert (Hcases : (2 ^ 50 <= Zpos p < 2 ^ 51) \/ (2 ^ 51 <= Zpos p < 2 ^ 52)
                   \/ (2 ^ 52 <= Zpos p < 2 ^ 53)) by lia.
  destruct Hcases as [Hp | [Hp | Hp]].
  - pose proof (digits2_pos_bounds p 51 Hp) as Hd. rewrite Hd.
    change (shl_align p (-53) (fexp prec emax (51 + -53))) with (p~0~0%positive, -55).
    cbv beta iota. rewrite binary_round_aux_canonical.
    + unfold sub_one_post. split; [by eexists _, _|].
      repeat split; intros; sf_order.
    + simpl digits2_pos. unfold prec. lia.
    + unfold SpecFloat.emin, prec, emax. lia.
  - pose proof (digits2_pos_bounds p 52 Hp) as Hd. rewrite Hd.
    change (shl_align p (-53) (fexp prec emax (52 + -53))) with (p~0%positive, -54).
    cbv beta iota. rewrite binary_round_aux_canonical.
    + unfold sub_one_post. split; [by eexists _, _|].
      repeat split; intros; sf_order.
    + simpl digits2_pos. unfold prec. lia.
    + unfold SpecFloat.emin, prec, emax. lia.
  - pose proof (digits2_pos_bounds p 53 Hp) as Hd. rewrite Hd.
    change (shl_align p (-53) (fexp prec emax (53 + -53))) with (p, -53).
    cbv beta iota. rewrite binary_round_aux_canonical.
    + unfold sub_one_post. split; [by eexists _, _|].
      repeat split; intros; sf_order.
    + exact Hd.
    + unfold SpecFloat.emin, prec, emax. lia.
Qed.

Ltac finish_round r e' :=
  eapply (binary_round_aux_finish _ _ _ _ _ e' r);
  [ cbv beta iota delta [shr_fexp Zdigits2];
    match goal with H : Zpos (digits2_pos _) = _ |- _ => rewrite H end;
    reflexivity
  | reflexivity
  | apply digits2_pos_bounds; unfold prec; lia
  | unfold SpecFloat.emin, prec, emax; lia ].

(** One bit is rounded away: 1 - b for b in [0.25, 0.5). *)
Lemma sub_one_shift1 m :
  2 ^ 52 <= Zpos m < 2 ^ 53 ->
  sub_one_post m (-54) (binary_normalize prec emax (2 ^ 54 - Zpos m) (-54) false).
Proof.
  intros Hm.
  destruct (2 ^ 54 - Zpos m) as [|p|p] eqn:HM; try lia.
  unfold binary_normalize, binary_round.
  assert (Hp : 2 ^ 53 <= Zpos p < 2 ^ 54) by lia.
  pose proof (digits2_pos_bounds p 54 Hp) as Hd. rewrite Hd.
  change (shl_align p (-54) (fexp prec emax (54 + -54))) with (p, -54).
  cbv beta iota.
  assert (exists r, binary_round_aux prec emax false (Zpos p) (-54) loc_Exact
                    = fin r (-53) /\ 2 ^ 52 <= Zpos r <= 3 * 2 ^ 51) as (r & -> & Hr).
  { destruct p as [[q|q|]|q|]; try lia.
    - exists (Pos.succ q)~0%positive. split; [|lia]. finish_round ((Pos.succ q)~0%positive) (-53).
    - exists q~0%positive. split; [|lia]. finish_round (q~0%positive) (-53).
    - exists q. split; [|lia]. finish_round q (-53). }
  unfold sub_one_post. split; [by eexists _, _|].
  repeat split; intros; sf_order.
Qed.

(** Two bits are rounded away: 1 - b for b in [0.2, 0.25). *)
Lemma sub_one_shift2 m :
  7205759403792794 <= Zpos m < 2 ^ 53 ->
  sub_one_post m (-55) (binary_normalize prec emax (2 ^ 55 - Zpos m) (-55) false).
Proof.
  intros Hm.
  destruct (2 ^ 55 - Zpos m) as [|p|p] eqn:HM; try lia.
  unfold binary_normalize, binary_round.
  assert (Hp : 2 ^ 54 <= Zpos p < 2 ^ 55) by lia.
  pose proof (digits2_pos_bounds p 55 Hp) as Hd. rewrite Hd.
  change (shl_align p (-55) (fexp prec emax (55 + -55))) with (p, -55).
  cbv beta iota.
  assert (exists r, binary_round_aux prec emax false (Zpos p) (-55) loc_Exact
                    = fin r (-53) /\ 3 * 2 ^ 51 <= Zpos r <= 7205759403792794)
    as (r & -> & Hr).
  { destruct p as [[q|q|]|[q|q|]|]; try lia.
    - exists (q + 1)%positive. split; [|lia]. finish_round (q + 1)%positive (-53).
    - exists q. split; [|lia]. finish_round q (-53).
    - destruct q as [q|q|]; try lia.
      + exists (Pos.succ q)~0%positive. split; [|lia].
        finish_round ((Pos.succ q)~0%positive) (-53).
      + exists q~0%positive. split; [|lia]. finish_round (q~0%positive) (-53).
    - exists q. split; [|lia]. finish_round q (-53). }
  unfold sub_one_post. split; [by eexists _, _|].
  repeat split; intros; sf_order.
Qed.

Lemma bounded_digits m e :
  bounded prec emax m e = true -> -1074 < e -> Zpos (digits2_pos m) = 53.
Proof.
  unfold bounded, canonical_mantissa, fexp, SpecFloat.emin, prec, emax.
  intros H He. apply andb_prop in H as [H _]. apply Z.eqb_eq in H. lia.
Qed.

(** [1 - b] for a binary64 number [b] in [[0.2, 0.8]]. *)
Lemma SFsub_one_bounds m e :
  bounded prec emax m e = true ->
  SFleb SF02 (fin m e) = true ->
  SFleb (fin m e) SF08 = true ->
  sub_one_post m e (SFsub prec emax SF1 (fin m e)).
Proof.
  intros Hb Hlo Hhi. unfold SF02, SF08 in Hlo, Hhi.
  rewrite SFleb_fin in Hlo, Hhi.
  assert (He : -55 <= e <= -53) by lia.
  pose proof (bounded_digits m e Hb ltac:(lia)) as Hd.
  pose proof (digits2_pos_range m) as Hm. rewrite Hd in Hm.
  rewrite SFsub_one_fin by done.
  assert (e = -55 \/ e = -54 \/ e = -53) as [-> | [-> | ->]] by lia.
  - apply sub_one_shift2. lia.
  - apply sub_one_shift1. lia.
  - apply sub_one_exact. lia.
Qed.


Lemma Prim2SF_1 : Prim2SF 1%float = SF1. Proof. reflexivity. Qed.
Lemma Prim2SF_0 : Prim2SF 0%float = S754_zero false. Proof. reflexivity. Qed.
Lemma Prim2SF_01 : Prim2SF 0.1%float = fin 7205759403792794 (-56). Proof. reflexivity. Qed.
Lemma Prim2SF_02 : Prim2SF 0.2%float = SF02. Proof. reflexivity. Qed.
Lemma Prim2SF_08 : Prim2SF 0.8%float = SF08. Proof. reflexivity. Qed.
Lemma Prim2SF_045 : Prim2SF 0.45%float = fin 8106479329266893 (-54). Proof. reflexivity. Qed.
Lemma Prim2SF_06 : Prim2SF 0.6%float = fin 5404319552844595 (-53). Proof. reflexivity. Qed.
Lemma Prim2SF_08c : Prim2SF (1 - 0.8)%float = SF08c. Proof. reflexivity. Qed.

Create Rewrite HintDb float_consts.
Hint Rewrite FloatAxioms.ltb_spec FloatAxioms.leb_spec FloatAxioms.eqb_spec Prim2SF_1 Prim2SF_0 Prim2SF_01 Prim2SF_02 Prim2SF_08
  Prim2SF_045 Prim2SF_06 Prim2SF_08c : float_consts.

(** Comparisons of one float against literals: move to [spec_float],
    split on the shape of the float, and decide by exponent and mantissa. *)
Ltac float_cmp b :=
  autorewrite with float_consts in *;
  unfold SF02, SF08, SF08c, SF1 in *;
  destruct (Prim2SF b) as [[]|[]| |[] ? ?];
  try (cbv [SFleb SFltb SFeqb SFcompare] in *; congruence);
  rewrite <- ?not_true_iff_false in *;
  rewrite ?SFleb_fin, ?SFltb_fin in *;
  try lia.



(** ** Comparisons and clamps on floats *)

Lemma ltb_leb (x y : float) : (x <? y)%float = true -> (x <=? y)%float = true.
Proof.
  rewrite ltb_spec, leb_spec. unfold SFltb, SFleb.
  by destruct (SFcompare _ _) as [[]|].
Qed.

Lemma py_min_cases (a x : float) :
  (py_min a x = x /\ (x <? a)%float = true) \/
  (py_min a x = a /\ (x <? a)%float = false).
Proof. unfold py_min. destruct (x <? a)%float; auto. Qed.

Lemma py_max_cases (a x : float) :
  (py_max a x = x /\ (a <? x)%float = true) \/
  (py_max a x = a /\ (a <? x)%float = false).
Proof. unfold py_max. destruct (a <? x)%float; auto. Qed.

Lemma clamp_cases (x : float) :
  clamp x = 0.2%float \/ clamp x = 0.8%float \/
  (clamp x = x /\ (0.2 <? x)%float = true /\ (x <? 0.8)%float = true).
Proof.
  unfold clamp.
  destruct (py_min_cases 0.8 x) as [[-> Hx] | [-> Hx]].
  - destruct (py_max_cases 0.2 x) as [[-> Hx'] | [-> Hx']]; auto.
  - right. left. reflexivity.
Qed.

Lemma clamp_bounds (x : float) :
  (0.2 <=? clamp x)%float = true /\ (clamp x <=? 0.8)%float = true.
Proof.
  destruct (clamp_cases x) as [-> | [-> | (-> & Hlo & Hhi)]].
  - split; reflexivity.
  - split; reflexivity.
  - split; by apply ltb_leb.
Qed.

(** A float within [[0.2, 0.8]] is a positive normal number. *)
Lemma unit_range_finite (b : float) :
  (0.2 <=? b)%float = true -> (b <=? 0.8)%float = true ->
  exists m e, Prim2SF b = fin m e /\ bounded prec emax m e = true /\
              SFleb SF02 (fin m e) = true /\ SFleb (fin m e) SF08 = true.
Proof.
  intros Hlo Hhi. pose proof (Prim2SF_valid b) as Hv.
  rewrite leb_spec, ?Prim2SF_02, ?Prim2SF_08 in Hlo, Hhi.
  destruct (Prim2SF b) as [[]|[]| |[] m e]; try discriminate.
  exists m, e. auto.
Qed.

Lemma sub_one_bounds (b : float) :
  (0.2 <=? b)%float = true -> (b <=? 0.8)%float = true ->
  (exists m e, Prim2SF (1 - b) = fin m e) /\
  (1 - 0.8 <=? 1 - b)%float = true /\
  (1 - b <=? 0.8)%float = true /\
  ((b <? 0.8)%float = true -> (0.2 <=? 1 - b)%float = true).
Proof.
  intros Hlo Hhi.
  destruct (unit_range_finite b Hlo Hhi) as (m & e & Hb & Hbd & H1 & H2).
  pose proof (SFsub_one_bounds m e Hbd H1 H2) as (Hfin & Ha & Hb' & Hc).
  rewrite !leb_spec, ltb_spec, sub_spec, Prim2SF_08c, Prim2SF_02, Prim2SF_08,
    Prim2SF_1, Hb.
  auto.
Qed.

Lemma sub_zero (x : float) m e :
  Prim2SF x = fin m e -> (x - 0)%float = x.
Proof.
  intros H. apply Prim2SF_inj. by rewrite sub_spec, H, Prim2SF_0.
Qed.

Lemma add_zero (x : float) m e :
  Prim2SF x = fin m e -> (x + 0)%float = x.
Proof.
  intros H. apply Prim2SF_inj. by rewrite add_spec, H, Prim2SF_0.
Qed.

(** A number that is at most 0.8 and not below 0.8 is 0.8. *)
Lemma leb_not_ltb_08 (x : float) :
  (x <=? 0.8)%float = true -> (x <? 0.8)%float = false -> x = 0.8%float.
Proof.
  intros Hle Hlt. apply Prim2SF_inj. rewrite Prim2SF_08. unfold SF08.
  float_cmp x. f_equal; lia.
Qed.

(** ** Reasoning about computations *)

Lemma returns_ret {A} (a : A) w (Q : A -> world -> Prop) :
  Q a w -> returns (ret a) w Q.
Proof. intros H. by exists a, w. Qed.

Lemma returns_bind {A B} (m : Py A) (k : A -> Py B) w (Q : B -> world -> Prop) :
  returns m w (fun a w1 => returns (k a) w1 Q) -> returns (bind m k) w Q.
Proof.
  intros (a & w1 & E & b & w2 & E2 & HQ). exists b, w2.
  unfold bind. by rewrite E.
Qed.

Lemma returns_mono {A} (p : Py A) w (Q Q' : A -> world -> Prop) :
  returns p w Q -> (forall a w', Q a w' -> Q' a w') -> returns p w Q'.
Proof. intros (a & w' & E & HQ) H. exists a, w'. auto. Qed.

(** The adapters share one shape: a [try] block that may return, an
    [except] clause that prints, and a fallback after the [try]. *)
Section Guarded.
Context {A : Type} (body : Py (option A)) (label : string) (fallback : A).

Local Abbreviation guarded :=
  (r <- try_except body (fun e => print (label ++ message e) ;;; ret None) ;;
   match r with Some v => ret v | None => ret fallback end).

Lemma guarded_eq w :
  guarded w
  = match body w with
    | (Ok (Some v), w') => (Ok v, w')
    | (Ok None, w') => (Ok fallback, w')
    | (Raise e, w') => (Ok fallback, log_line (label ++ message e) w')
    end.
Proof.
  unfold bind, try_except. by destruct (body w) as [[[v|]|e] w'].
Qed.

Lemma guarded_returns w (Q : A -> world -> Prop) :
  (forall v w', body w = (Ok (Some v), w') -> Q v w') ->
  (forall w', body w = (Ok None, w') -> Q fallback w') ->
  (forall e w', body w = (Raise e, w') ->
                Q fallback (log_line (label ++ message e) w')) ->
  returns guarded w Q.
Proof.
  intros HS HN HR. unfold returns. rewrite guarded_eq.
  destruct (body w) as [[[v|]|e] w'] eqn:E; eauto.
Qed.

(** Whatever the [try] block does, the adapter returns. *)
Lemma guarded_total w : returns guarded w (fun _ _ => True).
Proof. by apply guarded_returns. Qed.
End Guarded.

(** *** Computations that do not touch the world *)

Lemma pure_ret {A} (a : A) : pure (ret a).
Proof. by intros w. Qed.

Lemma pure_raise {A} c msg : pure (@raise A c msg).
Proof. by intros w. Qed.

Lemma pure_bind {A B} (m : Py A) (k : A -> Py B) :
  pure m -> (forall a, pure (k a)) -> pure (bind m k).
Proof.
  intros Hm Hk w. unfold bind. specialize (Hm w).
  destruct (m w) as [[a|e] w1]; simpl in *; subst; [apply Hk | done].
Qed.

Lemma pure_mapM {A B} (f : A -> Py B) (l : list A) :
  (forall a, pure (f a)) -> pure (mapM f l).
Proof.
  intros Hf. induction l as [|x xs IH]; simpl.
  - apply pure_ret.
  - apply pure_bind; [apply Hf|]. intros y.
    apply pure_bind; [apply IH|]. intros ys. apply pure_ret.
Qed.

Lemma pure_if {A} (c : bool) (p q : Py A) :
  pure p -> pure q -> pure (if c then p else q).
Proof. by destruct c. Qed.

Lemma pure_dict_get d k dflt : pure (dict_get d k dflt).
Proof. destruct d; by intros w. Qed.

Lemma pure_getitem_str d k : pure (getitem_str d k).
Proof. destruct d; try by intros w. simpl. destruct (assoc k kv); by intros w. Qed.

Lemma pure_getitem_0 x : pure (getitem_0 x).
Proof. destruct x as [| | | |[]|[]|]; by intros w. Qed.

Lemma pure_slice_to n x : pure (slice_to n x).
Proof. destruct x; by intros w. Qed.

Lemma pure_add_str a b : pure (add_str a b).
Proof. destruct a; by intros w. Qed.

Lemma pure_iterate v : pure (iterate v).
Proof. destruct v; by intros w. Qed.

Lemma pure_dict_values d : pure (dict_values d).
Proof. destruct d; by intros w. Qed.

Lemma pure_py_len x : pure (py_len x).
Proof. destruct x; by intros w. Qed.

Lemma pure_response_json r : pure (response_json r).
Proof. by intros w. Qed.

Create HintDb pure_ops.
#[local] Hint Resolve pure_ret pure_raise pure_bind pure_mapM pure_if pure_dict_get
  pure_getitem_str pure_getitem_0 pure_slice_to pure_add_str pure_iterate
  pure_dict_values pure_py_len pure_response_json : pure_ops.

Lemma pure_event_record event : pure (event_record event).
Proof. unfold event_record. eauto 20 with pure_ops. Qed.

#[local] Hint Resolve pure_event_record : pure_ops.

Lemma bind_pure_snd {A B} (m : Py A) (k : A -> Py B) w :
  (forall a, pure (k a)) -> snd (bind m k w) = snd (m w).
Proof.
  intros Hk. unfold bind. destruct (m w) as [[a|e] w1]; simpl; [apply Hk | done].
Qed.

(** *** Random draws *)

Lemma random_randint_returns a b w :
  a <= b ->
  returns (random_randint a b) w
          (fun n w' => a <= n <= b /\ sent w' = sent w).
Proof.
  intros Hab. unfold random_randint, randbelow, next_word, bind, ret, returns.
  eexists _, _. split; [reflexivity|]. simpl.
  pose proof (Z.mod_pos_bound (entropy w (drawn w)) (b - a + 1)).
  split; [lia | done].
Qed.

Lemma random_choice_returns (seq : list string) w :
  seq <> [] ->
  returns (random_choice seq) w (fun s w' => s ∈ seq /\ sent w' = sent w).
Proof.
  intros Hne. unfold random_choice, randbelow, next_word, bind, ret, returns. simpl.
  assert (Hlen : 0 < Z.of_nat (length seq)) by (destruct seq; [done | simpl; lia]).
  pose proof (Z.mod_pos_bound (entropy w (drawn w)) _ Hlen) as Hi.
  destruct (seq !! Z.to_nat (entropy w (drawn w) `mod` Z.of_nat (length seq)))
    as [s|] eqn:E.
  - eexists _, _. split; [reflexivity|]. split; [|done].
    by eapply list_elem_of_lookup_2.
  - apply lookup_ge_None in E. lia.
Qed.

Lemma random_uniform_returns a b w :
  returns (random_uniform a b) w (fun _ w' => sent w' = sent w).
Proof.
  unfold random_uniform, random_random, next_word, bind, ret, returns.
  by eexists _, _.
Qed.

(** *** Partial correctness of [try] blocks *)

Lemma safe_ret {A} (a : A) w (Q : A -> world -> Prop) : Q a w -> safe (ret a) w Q.
Proof. done. Qed.

Lemma safe_bind_any {A B} (m : Py A) (k : A -> Py B) w (Q : B -> world -> Prop) :
  (forall a w1, m w = (Ok a, w1) -> safe (k a) w1 Q) -> safe (bind m k) w Q.
Proof.
  intros H. unfold safe, bind. destruct (m w) as [[a|e] w1] eqn:E; [|done].
  apply (H a w1 eq_refl).
Qed.

Lemma requests_get_inv url params t w r w' :
  requests_get url params t w = (Ok r, w') ->
  upstream w (length (sent w)) (Request url params t) = Replied r.
Proof.
  unfold requests_get. destruct (upstream w _ _); [|done]. by intros [= ->].
Qed.

Lemma response_json_inv r w v w' :
  response_json r w = (Ok v, w') -> resp_json r = Ok v.
Proof. unfold response_json. by intros [= ->]. Qed.

Lemma upstream_failure_absurd w rq r v :
  upstream w (length (sent w)) rq = Replied r ->
  status_code r = 200 -> resp_json r = Ok v -> ~ upstream_failure w rq.
Proof. intros Hu Hs Hj [e He | r' Hr' Hne | r' e Hr' He]; congruence. Qed.

Ltac safe_steps := repeat (apply safe_bind_any; intros ? ? ?).

(** *** The adapters *)

Lemma get_nasa_apod_returns w :
  returns get_nasa_apod w (fun v _ =>
    (v = apod_fallback \/ field "success" v = Some (VBool true)) /\
    (upstream_failure w (apod_request w) -> v = apod_fallback)).
Proof.
  unfold get_nasa_apod.
  match goal with |- returns (bind (try_except ?b _) _) _ _ => set (body := b) end.
  assert (Hbody : safe body w (fun r _ => forall v, r = Some v ->
            field "success" v = Some (VBool true) /\
            ~ upstream_failure w (apod_request w))).
  { subst body. apply safe_bind_any. intros key w1 [= <- <-].
    apply safe_bind_any. intros response w2 Hget%requests_get_inv.
    destruct (status_code response =? 200) eqn:Hs; [|by apply safe_ret].
    apply Z.eqb_eq in Hs.
    apply safe_bind_any. intros data w3 Hjson%response_json_inv.
    safe_steps. apply safe_ret. intros v [= <-]. split; [done|].
    by eapply upstream_failure_absurd. }
  apply guarded_returns; fold apod_fallback; [|by auto..].
  intros v w' E. unfold safe in Hbody. rewrite E in Hbody.
  destruct (Hbody v eq_refl). split; [auto | done].
Qed.

Lemma get_nasa_events_returns w :
  returns get_nasa_events w (fun l w' =>
    sent w' = (sent w ++ [events_request])%list /\
    (upstream_failure w events_request -> l = [])).
Proof.
  unfold get_nasa_events.
  match goal with |- returns (bind (try_except ?b _) _) _ _ => set (body := b) end.
  assert (Hsent : sent (snd (body w)) = (sent w ++ [events_request])%list).
  { subst body. rewrite bind_pure_snd.
    - unfold requests_get. by destruct (upstream w _ _).
    - intros response. eauto 20 with pure_ops. }
  assert (Hbody : safe body w (fun r _ => forall l, r = Some l ->
            ~ upstream_failure w events_request)).
  { subst body.
    apply safe_bind_any. intros response w2 Hget%requests_get_inv.
    destruct (status_code response =? 200) eqn:Hs; [|by apply safe_ret].
    apply Z.eqb_eq in Hs.
    apply safe_bind_any. intros data w3 Hjson%response_json_inv.
    safe_steps. apply safe_ret. intros l _.
    by eapply upstream_failure_absurd. }
  apply guarded_returns.
  - intros l w' E. unfold safe in Hbody. rewrite E in Hbody, Hsent.
    split; [done|]. intros F. by destruct (Hbody l eq_refl).
  - intros w' E. rewrite E in Hsent. done.
  - intros e w' E. rewrite E in Hsent. done.
Qed.

Lemma get_asteroid_data_returns w :
  returns get_asteroid_data w (fun v _ =>
    (v = asteroid_fallback \/ field "success" v = Some (VBool true)) /\
    (upstream_failure w (asteroid_request w) -> v = asteroid_fallback)).
Proof.
  unfold get_asteroid_data.
  match goal with |- returns (bind (try_except ?b _) _) _ _ => set (body := b) end.
  assert (Hbody : safe body w (fun r _ => forall v, r = Some v ->
            field "success" v = Some (VBool true) /\
            ~ upstream_failure w (asteroid_request w))).
  { subst body. apply safe_bind_any. intros today w1 [= <- <-].
    apply safe_bind_any. intros key w2 [= <- <-].
    apply safe_bind_any. intros response w3 Hget%requests_get_inv.
    destruct (status_code response =? 200) eqn:Hs; [|by apply safe_ret].
    apply Z.eqb_eq in Hs.
    apply safe_bind_any. intros data w4 Hjson%response_json_inv.
    safe_steps. apply safe_ret. intros v [= <-]. split; [done|].
    by eapply upstream_failure_absurd. }
  apply guarded_returns; fold asteroid_fallback; [|by auto..].
  intros v w' E. unfold safe in Hbody. rewrite E in Hbody.
  destruct (Hbody v eq_refl). split; [auto | done].
Qed.

Lemma get_earth_imagery_returns (lat lon : float) w :
  returns (get_earth_imagery [lat; lon]) w (fun v _ =>
    (v = imagery_fallback \/ field "available" v = Some (VBool true)) /\
    (no_success_reply w (imagery_request w lat lon) -> v = imagery_fallback)).
Proof.
  unfold get_earth_imagery.
  match goal with |- returns (bind (try_except ?b _) _) _ _ => set (body := b) end.
  assert (Hbody : safe body w (fun r _ => forall v, r = Some v ->
            field "available" v = Some (VBool true) /\
            ~ no_success_reply w (imagery_request w lat lon))).
  { subst body. apply safe_bind_any. intros lon' w1 [= <- <-].
    apply safe_bind_any. intros lat' w2 [= <- <-].
    apply safe_bind_any. intros key w3 [= <- <-].
    apply safe_bind_any. intros response w4 Hget%requests_get_inv.
    destruct (status_code response =? 200) eqn:Hs; [|by apply safe_ret].
    apply Z.eqb_eq in Hs.
    apply safe_ret. intros v [= <-]. split; [done|].
    intros F. by apply (F response). }
  apply guarded_returns; fold imagery_fallback; [|by auto..].
  intros v w' E. unfold safe in Hbody. rewrite E in Hbody.
  destruct (Hbody v eq_refl). split; [auto | done].
Qed.

(** ** The metric aggregator *)

Lemma calculate_pollution_from_nasa_run city_id (events : list value) w :
  exists noise w',
    random_uniform (-0.03) 0.03 w = (Ok noise, w') /\
    sent w' = sent w /\
    calculate_pollution_from_nasa city_id events w
    = (Ok (let blue := clamp (base_of city_id
                              + float_of_Z (Z.of_nat (length events)) * 0.015
                              + noise)%float in
           (blue, (1 - blue)%float)), w').
Proof.
  unfold calculate_pollution_from_nasa, random_uniform, random_random,
    next_word, bind, ret.
  eexists _, _. split; [reflexivity|]. split; reflexivity.
Qed.

(** C1. For every city identifier, every event list and every state of the
    random generator, the aggregator returns a pair [(blue, orange)] with
    [0.2 <= blue <= 0.8] and [orange = 1 - blue]; [blue] is the clamp of
    base + 0.015 * len(events) + noise, and the clamp of any float at all
    lies within [0.2, 0.8], whatever the noise drawn. *)
Theorem aggregator_blue_in_range (city_id : string) (events : list value) (w : world) :
  exists noise blue w',
    random_uniform (-0.03) 0.03 w = (Ok noise, w') /\
    blue = clamp (base_of city_id
                  + float_of_Z (Z.of_nat (length events)) * 0.015 + noise)%float /\
    calculate_pollution_from_nasa city_id events w
    = (Ok (blue, (1 - blue)%float), w') /\
    (0.2 <=? blue)%float = true /\ (blue <=? 0.8)%float = true /\
    (forall x : float,
       (0.2 <=? clamp x)%float = true /\ (clamp x <=? 0.8)%float = true).
Proof.
  destruct (calculate_pollution_from_nasa_run city_id events w)
    as (noise & w' & Hnoise & _ & Hrun).
  eexists noise, _, w'. split; [exact Hnoise|]. split; [reflexivity|].
  split; [exact Hrun|].
  pose proof (clamp_bounds (base_of city_id
                + float_of_Z (Z.of_nat (length events)) * 0.015 + noise)%float)
    as [Hlo Hhi].
  split; [exact Hlo|]. split; [exact Hhi|]. exact clamp_bounds.
Qed.

Lemma base_data_unknown (city_id : string) :
  city_id ∉ known_cities -> base_data !! city_id = None.
Proof.
  unfold known_cities. rewrite !not_elem_of_cons. intros (? & ? & ? & ? & _).
  unfold base_data. by rewrite !lookup_insert_ne, lookup_singleton_ne.
Qed.

Lemma trends_unknown (city_id : string) :
  city_id ∉ known_cities -> trends !! city_id = None.
Proof.
  unfold known_cities. rewrite !not_elem_of_cons. intros (? & ? & ? & ? & _).
  unfold trends. by rewrite !lookup_insert_ne, lookup_singleton_ne.
Qed.

Lemma generate_historical_data_unfold city_id cb co :
  generate_historical_data city_id cb co
  = map (history_entry (default 0.02%float (trends !! city_id)) cb co)
        [2020; 2021; 2022; 2023].
Proof. reflexivity. Qed.

(** C7. For a city identifier outside the reference table the aggregator
    does not raise: it uses the base constant 0.5, so that its blue ratio is
    the clamp of 0.5 + 0.015 * len(events) + noise; and the historical
    projector uses the trend 0.02. *)
Theorem unknown_city_defaults (city_id : string) (events : list value) (w : world) :
  city_id ∉ known_cities ->
  (exists noise w',
     random_uniform (-0.03) 0.03 w = (Ok noise, w') /\
     calculate_pollution_from_nasa city_id events w
     = (Ok (let blue := clamp (0.5 + float_of_Z (Z.of_nat (length events)) * 0.015
                               + noise)%float in
            (blue, (1 - blue)%float)), w')) /\
  (forall cb co,
     generate_historical_data city_id cb co
     = map (history_entry 0.02 cb co) [2020; 2021; 2022; 2023]).
Proof.
  intros Hunknown. split.
  - destruct (calculate_pollution_from_nasa_run city_id events w)
      as (noise & w' & Hnoise & _ & Hrun).
    exists noise, w'. split; [exact Hnoise|].
    rewrite Hrun. unfold base_of. by rewrite base_data_unknown.
  - intros cb co. rewrite generate_historical_data_unfold.
    by rewrite trends_unknown.
Qed.

Lemma unknown_city_defaults_witness :
  ("bogota" ∉ known_cities) /\
  exists noise w',
    random_uniform (-0.03) 0.03 offline_world = (Ok noise, w') /\
    calculate_pollution_from_nasa "bogota" [] offline_world
    = (Ok (let blue := clamp (0.5 + float_of_Z 0 * 0.015 + noise)%float in
           (blue, (1 - blue)%float)), w').
Proof.
  assert (H : "bogota" ∉ known_cities).
  { unfold known_cities. rewrite !not_elem_of_cons. repeat split; try done.
    apply not_elem_of_nil. }
  split; [exact H|].
  exact (proj1 (unknown_city_defaults "bogota" [] offline_world H)).
Defined.

(** C8 as stated fails: with 14 events for Lima the blue ratio is clamped to
    0.8, and [1 - 0.8] evaluates in binary64 to 0.19999999999999996, which is
    below 0.2. *)
Lemma orange_below_range :
  ~ (forall city_id events w blue orange w',
       calculate_pollution_from_nasa city_id events w = (Ok (blue, orange), w') ->
       (0.2 <=? orange)%float = true /\ (orange <=? 0.8)%float = true).
Proof.
  intros H.
  destruct (H "lima" (replicate 14 (VDict [])) offline_world
              0.8%float (1 - 0.8)%float
              (snd (calculate_pollution_from_nasa "lima"
                      (replicate 14 (VDict [])) offline_world)))
    as [Hlo _].
  - vm_compute. reflexivity.
  - vm_compute in Hlo. discriminate Hlo.
Qed.

(** C8, amended. The orange ratio returned by the aggregator lies between
    [1 - 0.8] (as computed in binary64) and 0.8; it is at least 0.2 whenever
    the blue ratio is below 0.8. *)
Theorem aggregator_orange_in_range (city_id : string) (events : list value) (w : world) :
  exists blue orange w',
    calculate_pollution_from_nasa city_id events w = (Ok (blue, orange), w') /\
    (1 - 0.8 <=? orange)%float = true /\
    (orange <=? 0.8)%float = true /\
    ((blue <? 0.8)%float = true -> (0.2 <=? orange)%float = true).
Proof.
  destruct (calculate_pollution_from_nasa_run city_id events w)
    as (noise & w' & _ & _ & Hrun). cbv zeta in Hrun.
  eexists _, _, w'. split; [exact Hrun|].
  destruct (clamp_bounds (base_of city_id
              + float_of_Z (Z.of_nat (length events)) * 0.015 + noise)%float)
    as [Hlo Hhi].
  by destruct (sub_one_bounds _ Hlo Hhi) as (_ & ? & ? & ?).
Qed.

Lemma aggregator_orange_in_range_witness :
  exists blue orange w',
    calculate_pollution_from_nasa "huanuco" [] offline_world = (Ok (blue, orange), w') /\
    (0.2 <=? orange)%float = true.
Proof.
  destruct (aggregator_orange_in_range "huanuco" [] offline_world)
    as (blue & orange & w' & Hrun & _ & _ & Hlo).
  exists blue, orange, w'. split; [exact Hrun|].
  apply Hlo. vm_compute in Hrun. injection Hrun as <- _ _. reflexivity.
Defined.

(** ** The historical projector *)

Lemma trend_lookup (city_id : string) :
  default 0.02%float (trends !! city_id) = city_trend city_id.
Proof.
  unfold city_trend, trends.
  destruct (String.eqb_spec city_id "lima") as [-> | ?]; [done|].
  destruct (String.eqb_spec city_id "huanuco") as [-> | ?]; [done|].
  destruct (String.eqb_spec city_id "cusco") as [-> | ?]; [done|].
  destruct (String.eqb_spec city_id "arequipa") as [-> | ?]; [done|].
  by rewrite !lookup_insert_ne, lookup_singleton_ne.
Qed.

Lemma zero_times_trend (city_id : string) :
  (float_of_Z 0 * city_trend city_id)%float = 0%float.
Proof.
  unfold city_trend. by repeat destruct (String.eqb city_id _).
Qed.

(** C5. For every city identifier and every current pair the projector
    returns exactly four entries, for 2020, 2021, 2022 and 2023 in this
    order; the entry of a year that lies [years_ago] before 2023 holds
    [max(0.1, current_blue - years_ago * trend)] and
    [min(0.8, current_orange + years_ago * trend)], each rounded to three
    decimals, where [trend] is the constant of the city (lima 0.04, huanuco
    0.01, cusco 0.03, arequipa 0.035, any other 0.02). *)
Theorem historical_projection (city_id : string) (current_blue current_orange : float) :
  let trend := city_trend city_id in
  let entry (year : Z) (years_ago : float) :=
    VDict [("year", VInt year);
           ("blue_ratio",
            VFloat (py_round (py_max 0.1 (current_blue - years_ago * trend)) 3));
           ("orange_ratio",
            VFloat (py_round (py_min 0.8 (current_orange + years_ago * trend)) 3))] in
  generate_historical_data city_id current_blue current_orange
  = [entry 2020 3%float; entry 2021 2%float; entry 2022 1%float; entry 2023 0%float].
Proof.
  intros trend entry. rewrite generate_historical_data_unfold, trend_lookup.
  reflexivity.
Qed.

(** C9. Projecting zero years back is the identity: for a current blue
    ratio within [0.2, 0.8] and the orange ratio [1 - blue], the entry of
    2023 holds the two current values rounded to three decimals. *)
Theorem projection_of_current_year (city_id : string) (current_blue current_orange : float) :
  (0.2 <=? current_blue)%float = true ->
  (current_blue <=? 0.8)%float = true ->
  current_orange = (1 - current_blue)%float ->
  generate_historical_data city_id current_blue current_orange !! 3%nat
  = Some (VDict [("year", VInt 2023);
                 ("blue_ratio", VFloat (py_round current_blue 3));
                 ("orange_ratio", VFloat (py_round current_orange 3))]).
Proof.
  intros Hlo Hhi ->.
  rewrite generate_historical_data_unfold, trend_lookup. simpl lookup.
  unfold history_entry. change (2023 - 2023) with 0.
  rewrite zero_times_trend.
  destruct (unit_range_finite _ Hlo Hhi) as (m & e & Hfin & _).
  destruct (sub_one_bounds _ Hlo Hhi) as ((m' & e' & Hfin') & _ & Hle & _).
  rewrite (sub_zero _ _ _ Hfin), (add_zero _ _ _ Hfin').
  assert (Hmax : py_max 0.1 current_blue = current_blue).
  { unfold py_max.
    assert ((0.1 <? current_blue)%float = true) as -> by (clear - Hlo; float_cmp current_blue).
    done. }
  assert (Hmin : py_min 0.8 (1 - current_blue) = (1 - current_blue)%float).
  { unfold py_min. destruct (1 - current_blue <? 0.8)%float eqn:Hlt; [done|].
    symmetry. by apply leb_not_ltb_08. }
  by rewrite Hmax, Hmin.
Qed.

Lemma projection_of_current_year_witness :
  generate_historical_data "lima" 0.65 (1 - 0.65) !! 3%nat
  = Some (VDict [("year", VInt 2023);
                 ("blue_ratio", VFloat (py_round 0.65 3));
                 ("orange_ratio", VFloat (py_round (1 - 0.65) 3))]).
Proof.
  apply (projection_of_current_year "lima" 0.65 (1 - 0.65)); reflexivity.
Defined.

(** C6 as stated fails in its characterisation: for Lima and the current
    pair (0.2397, 1 - 0.2397) the orange clamp binds for 2022 (0.8003 becomes
    0.8) while the entry holds 0.2 and 0.8, which sum to 1: the entries hold
    rounded values. *)
Lemma binding_clamp_is_not_the_criterion :
  ~ ((exists city_id cb co entry,
        (cb + co)%float = 1%float /\
        (0.2 <=? cb)%float = true /\ (cb <=? 0.8)%float = true /\
        entry ∈ generate_historical_data city_id cb co /\
        sums_to_one entry = false) /\
     (forall city_id cb co (i : nat) entry,
        (cb + co)%float = 1%float ->
        (0.2 <=? cb)%float = true -> (cb <=? 0.8)%float = true ->
        generate_historical_data city_id cb co !! i = Some entry ->
        (sums_to_one entry = false <->
         clamp_binds (city_trend city_id) cb co (2020 + Z.of_nat i) = true
         /\ i <> 3%nat))).
Proof.
  intros [_ H].
  destruct (H "lima" 0.2397%float (1 - 0.2397)%float 2%nat
              (VDict [("year", VInt 2022); ("blue_ratio", VFloat 0.2);
                      ("orange_ratio", VFloat 0.8)])) as [_ Hback];
    try reflexivity.
  assert (Hsum : sums_to_one (VDict [("year", VInt 2022); ("blue_ratio", VFloat 0.2);
                                     ("orange_ratio", VFloat 0.8)]) = false).
  { apply Hback. split; [reflexivity | discriminate]. }
  vm_compute in Hsum. discriminate Hsum.
Qed.

(** C6, amended. The projector does not make a projected pair sum to 1:
    for Lima and the current pair (0.2, 0.8) the entry of 2020 holds 0.1 and
    0.8.  A binding clamp does not characterise it, since the entries hold
    rounded values: a clamp can bind while the entry sums to 1 (Lima,
    0.2397, year 2022), and an entry can miss 1 with no clamp binding (Lima,
    0.20049999999999998, year 2023). *)
Theorem projection_sum_not_enforced :
  (exists city_id cb co entry,
     (cb + co)%float = 1%float /\
     (0.2 <=? cb)%float = true /\ (cb <=? 0.8)%float = true /\
     entry ∈ generate_historical_data city_id cb co /\
     sums_to_one entry = false) /\
  (exists city_id cb co entry,
     (cb + co)%float = 1%float /\
     (0.2 <=? cb)%float = true /\ (cb <=? 0.8)%float = true /\
     generate_historical_data city_id cb co !! 2%nat = Some entry /\
     clamp_binds (city_trend city_id) cb co 2022 = true /\
     sums_to_one entry = true) /\
  (exists city_id cb co entry,
     (cb + co)%float = 1%float /\
     (0.2 <=? cb)%float = true /\ (cb <=? 0.8)%float = true /\
     generate_historical_data city_id cb co !! 3%nat = Some entry /\
     clamp_binds (city_trend city_id) cb co 2023 = false /\
     sums_to_one entry = false).
Proof.
  split; [|split].
  - exists "lima", 0.2%float, 0.8%float,
      (VDict [("year", VInt 2020); ("blue_ratio", VFloat 0.1);
              ("orange_ratio", VFloat 0.8)]).
    repeat split; try reflexivity.
    apply list_elem_of_lookup. exists 0%nat. reflexivity.
  - exists "lima", 0.2397%float, (1 - 0.2397)%float. eexists.
    repeat split; reflexivity.
  - exists "lima", 0.20049999999999998%float, (1 - 0.20049999999999998)%float.
    eexists. repeat split; reflexivity.
Qed.

(** ** The classifier *)

Lemma determine_status_returns (b : float) w :
  returns (determine_status b) w (fun r w' =>
    sent w' = sent w /\
    (((0.6 <? b)%float = true /\ fst r = "CRÍTICO" /\ 20 <= snd r <= 40) \/
     ((0.6 <? b)%float = false /\ (0.45 <? b)%float = true /\
      fst r = "MODERADO" /\ 41 <= snd r <= 69) \/
     ((0.6 <? b)%float = false /\ (0.45 <? b)%float = false /\
      fst r = "SALUDABLE" /\ 70 <= snd r <= 85))).
Proof.
  unfold determine_status.
  destruct (0.6 <? b)%float; [|destruct (0.45 <? b)%float].
  - apply returns_bind.
    eapply returns_mono; [apply (random_randint_returns 20 40); lia|].
    intros n w' [Hn Hs]. apply returns_ret. simpl. auto 10.
  - apply returns_bind.
    eapply returns_mono; [apply (random_randint_returns 41 69); lia|].
    intros n w' [Hn Hs]. apply returns_ret. simpl. auto 10.
  - apply returns_bind.
    eapply returns_mono; [apply (random_randint_returns 70 85); lia|].
    intros n w' [Hn Hs]. apply returns_ret. simpl. auto 10.
Qed.

Lemma bands_partition (b : float) :
  (b =? b)%float = true ->
  (in_critical b = true /\ in_moderate b = false /\ in_healthy b = false) \/
  (in_critical b = false /\ in_moderate b = true /\ in_healthy b = false) \/
  (in_critical b = false /\ in_moderate b = false /\ in_healthy b = true).
Proof.
  unfold in_critical, in_moderate, in_healthy. intros Hnum.
  destruct (0.6 <? b)%float eqn:H1; destruct (0.45 <? b)%float eqn:H2;
    destruct (b <=? 0.6)%float eqn:H3; destruct (b <=? 0.45)%float eqn:H4;
    simpl; auto 10; exfalso; clear - Hnum H1 H2 H3 H4; float_cmp b.
Qed.

(** C2. The classifier assigns the critical band with a score in [20,40]
    when [blue_ratio > 0.6], the moderate band with a score in [41,69] when
    [0.45 < blue_ratio <= 0.6], and the healthy band with a score in [70,85]
    when [blue_ratio <= 0.45]; the returned score always lies in the range
    of the returned band; and for every number exactly one of the three
    conditions holds. *)
Theorem classifier_bands (blue_ratio : float) (w : world) :
  exists st score w',
    determine_status blue_ratio w = (Ok (st, score), w') /\
    (in_critical blue_ratio = true -> st = "CRÍTICO" /\ 20 <= score <= 40) /\
    (in_moderate blue_ratio = true -> st = "MODERADO" /\ 41 <= score <= 69) /\
    (in_healthy blue_ratio = true -> st = "SALUDABLE" /\ 70 <= score <= 85) /\
    ((st = "CRÍTICO" /\ 20 <= score <= 40) \/
     (st = "MODERADO" /\ 41 <= score <= 69) \/
     (st = "SALUDABLE" /\ 70 <= score <= 85)) /\
    ((blue_ratio =? blue_ratio)%float = true ->
     (in_critical blue_ratio = true /\ in_moderate blue_ratio = false
      /\ in_healthy blue_ratio = false) \/
     (in_critical blue_ratio = false /\ in_moderate blue_ratio = true
      /\ in_healthy blue_ratio = false) \/
     (in_critical blue_ratio = false /\ in_moderate blue_ratio = false
      /\ in_healthy blue_ratio = true)).
Proof.
  destruct (determine_status_returns blue_ratio w) as ([st score] & w' & Hrun & _ & Hband).
  exists st, score, w'. split; [exact Hrun|]. simpl in Hband.
  unfold in_critical, in_moderate, in_healthy.
  split; [|split; [|split; [|split]]].
  - intros Hc. destruct Hband as [(_ & ? & ?) | [(Hn & _) | (Hn & _)]];
      [done | congruence..].
  - intros [H2 H3]%andb_prop.
    destruct Hband as [(H1 & _) | [(_ & _ & ? & ?) | (_ & Hn & _)]];
      [|done|congruence].
    exfalso. clear - H1 H3. float_cmp blue_ratio.
  - intros H4.
    destruct Hband as [(H1 & _) | [(_ & H2 & _) | (_ & _ & ? & ?)]]; [| |done].
    + exfalso. clear - H1 H4. float_cmp blue_ratio.
    + exfalso. clear - H2 H4. float_cmp blue_ratio.
  - destruct Hband as [(_ & ? & ?) | [(_ & _ & ? & ?) | (_ & _ & ? & ?)]]; auto.
  - apply bands_partition.
Qed.

Lemma classifier_bands_witness :
  exists st score w',
    determine_status 0.5 offline_world = (Ok (st, score), w') /\
    (st = "MODERADO" /\ 41 <= score <= 69) /\
    in_critical 0.5 = false /\ in_moderate 0.5 = true /\ in_healthy 0.5 = false.
Proof.
  destruct (classifier_bands 0.5 offline_world)
    as (st & score & w' & Hrun & _ & Hmod & _ & _ & Hpart).
  exists st, score, w'. split; [exact Hrun|]. split; [apply Hmod; reflexivity|].
  destruct (Hpart eq_refl) as [(H & _) | [H | (_ & H & _)]];
    [discriminate H | exact H | discriminate H].
Defined.

(** ** The external signal adapters *)

(** C3 as stated fails for the event adapter: what it returns on a failure
    is a list, which carries no success or availability flag. *)
Lemma event_fallback_has_no_flag :
  ~ (forall w,
       (upstream_failure w (apod_request w) ->
        exists v w', get_nasa_apod w = (Ok v, w') /\
                     field "success" v = Some (VBool false)) /\
       (upstream_failure w events_request ->
        exists l w', get_nasa_events w = (Ok l, w') /\
          (field "success" (VList l) = Some (VBool false) \/
           field "available" (VList l) = Some (VBool false))) /\
       (upstream_failure w (asteroid_request w) ->
        exists v w', get_asteroid_data w = (Ok v, w') /\
                     field "success" v = Some (VBool false))).
Proof.
  intros H.
  destruct (H offline_world) as (_ & Hevents & _).
  destruct Hevents as (l & w' & Hrun & [Hflag | Hflag]).
  - by apply (transport_error _ _ (Exn Timeout "timed out")).
  - vm_compute in Hrun. injection Hrun as <- _. discriminate Hflag.
  - discriminate Hflag.
Qed.

(** C3, amended. No adapter raises to its caller.  When the upstream call
    fails (the transport raises, the status is not 200, or the body does
    not decode), the astronomy-picture adapter returns [{success: false}],
    the near-earth-object adapter [{success: false, count: 0}] and the
    event adapter the empty list, which carries no flag; the earth-imagery
    adapter returns [{available: false}] when it gets no 200 reply.  A
    record returned by the first two is the fallback or has [success]
    true. *)
Theorem adapters_fail_safe (w : world) (lat lon : float) :
  (exists v w', get_nasa_apod w = (Ok v, w') /\
     (v = apod_fallback \/ field "success" v = Some (VBool true)) /\
     (upstream_failure w (apod_request w) -> v = apod_fallback)) /\
  (exists l w', get_nasa_events w = (Ok l, w') /\
     (upstream_failure w events_request -> l = [])) /\
  (exists v w', get_asteroid_data w = (Ok v, w') /\
     (v = asteroid_fallback \/ field "success" v = Some (VBool true)) /\
     (upstream_failure w (asteroid_request w) -> v = asteroid_fallback)) /\
  (exists v w', get_earth_imagery [lat; lon] w = (Ok v, w') /\
     (v = imagery_fallback \/ field "available" v = Some (VBool true)) /\
     (no_success_reply w (imagery_request w lat lon) -> v = imagery_fallback)) /\
  field "success" apod_fallback = Some (VBool false) /\
  field "success" asteroid_fallback = Some (VBool false) /\
  field "count" asteroid_fallback = Some (VInt 0) /\
  field "available" imagery_fallback = Some (VBool false).
Proof.
  split; [|split; [|split; [|split]]].
  - destruct (get_nasa_apod_returns w) as (v & w' & Hrun & H). by exists v, w'.
  - destruct (get_nasa_events_returns w) as (l & w' & Hrun & _ & H). by exists l, w'.
  - destruct (get_asteroid_data_returns w) as (v & w' & Hrun & H). by exists v, w'.
  - destruct (get_earth_imagery_returns lat lon w) as (v & w' & Hrun & H).
    by exists v, w'.
  - done.
Qed.

Lemma adapters_fail_safe_witness :
  (exists w', get_nasa_apod offline_world = (Ok apod_fallback, w')) /\
  (exists w', get_nasa_events unavailable_world = (Ok [], w')) /\
  (exists w', get_asteroid_data offline_world = (Ok asteroid_fallback, w')) /\
  (exists w', get_earth_imagery [0%float; 0%float] unavailable_world
              = (Ok imagery_fallback, w')).
Proof.
  destruct (adapters_fail_safe offline_world 0 0)
    as ((v1 & w1 & Hrun1 & _ & Hfail1) & _ & (v3 & w3 & Hrun3 & _ & Hfail3) & _).
  destruct (adapters_fail_safe unavailable_world 0 0)
    as (_ & (l & w2 & Hrun2 & Hfail2) & _ & (v4 & w4 & Hrun4 & _ & Hfail4) & _).
  split; [|split; [|split]].
  - exists w1. rewrite Hrun1, Hfail1; [reflexivity|].
    by apply (transport_error _ _ (Exn Timeout "timed out")).
  - exists w2. rewrite Hrun2, Hfail2; [reflexivity|].
    eapply bad_status; [reflexivity | simpl; lia].
  - exists w3. rewrite Hrun3, Hfail3; [reflexivity|].
    by apply (transport_error _ _ (Exn Timeout "timed out")).
  - exists w4. rewrite Hrun4, Hfail4; [reflexivity|].
    intros r [= <-]. simpl. lia.
Defined.

(** ** The routes *)

Ltac run_step lem :=
  apply returns_bind; eapply returns_mono; [apply lem | cbv beta; intros ? ? ?].

Lemma get_earth_imagery_total (city_coords : list float) w :
  returns (get_earth_imagery city_coords) w (fun _ _ => True).
Proof. apply guarded_total. Qed.

Lemma get_mars_weather_total w :
  returns get_mars_weather w (fun _ _ => True).
Proof.
  unfold get_mars_weather.
  run_step (random_randint_returns (-80) (-20)); [lia|].
  run_step random_choice_returns; [done|].
  run_step (random_randint_returns 600 900); [lia|].
  by apply returns_ret.
Qed.

Lemma now_strftime_total fmt w :
  returns (now_strftime fmt) w (fun _ _ => True).
Proof. unfold now_strftime, returns. by eexists _, _. Qed.

Lemma calculate_pollution_from_nasa_returns city_id (events : list value) w :
  returns (calculate_pollution_from_nasa city_id events) w
          (fun _ w' => sent w' = sent w).
Proof.
  destruct (calculate_pollution_from_nasa_run city_id events w)
    as (noise & w' & _ & Hsent & Hrun).
  by eexists _, w'.
Qed.

Lemma known_city_lookup (city_id : string) :
  (city_id ∉ known_cities -> assoc city_id PERU_CITIES = None) /\
  (city_id ∈ known_cities -> exists info, assoc city_id PERU_CITIES = Some info).
Proof.
  unfold known_cities. split.
  - rewrite !not_elem_of_cons. intros (H1 & H2 & H3 & H4 & _). simpl.
    by rewrite !(proj2 (String.eqb_neq _ _)).
  - rewrite !elem_of_cons, elem_of_nil.
    intros [-> | [-> | [-> | [-> | []]]]]; by eexists.
Qed.

(** C4. For a city identifier outside the reference table the analysis
    route answers 404 with the body [{"error": "Ciudad no encontrada"}]
    (and calls nothing); for an identifier inside it the route answers 200
    with a body that has no [error] field. *)
Theorem analyze_city_not_found (city_id : string) (w : world) :
  (city_id ∉ known_cities ->
   analyze_city city_id w
   = (Ok (HttpResponse 404 (VDict [("error", VStr "Ciudad no encontrada")])), w)) /\
  (city_id ∈ known_cities ->
   exists answer w',
     analyze_city city_id w = (Ok (HttpResponse 200 answer), w') /\
     field "error" answer = None).
Proof.
  destruct (known_city_lookup city_id) as [Hout Hin]. split.
  - intros H. unfold analyze_city. by rewrite (Hout H).
  - intros H. destruct (Hin H) as [info Hinfo].
    enough (returns (analyze_city city_id) w
              (fun r _ => status r = 200 /\ field "error" (body r) = None))
      as ([st answer] & w' & Hrun & Hst & Herr).
    { simpl in *. subst st. by exists answer, w'. }
    unfold analyze_city. rewrite Hinfo.
    run_step get_nasa_events_returns.
    run_step get_nasa_apod_returns.
    run_step get_earth_imagery_total.
    run_step get_asteroid_data_returns.
    run_step get_mars_weather_total.
    run_step calculate_pollution_from_nasa_returns.
    run_step determine_status_returns.
    run_step now_strftime_total.
    by apply returns_ret.
Qed.

Lemma analyze_city_not_found_witness :
  analyze_city "quito" offline_world
  = (Ok (HttpResponse 404 (VDict [("error", VStr "Ciudad no encontrada")])),
     offline_world)
  /\ exists answer w',
       analyze_city "cusco" offline_world = (Ok (HttpResponse 200 answer), w') /\
       field "error" answer = None.
Proof.
  split.
  - apply (analyze_city_not_found "quito" offline_world).
    unfold known_cities. rewrite !not_elem_of_cons. repeat split; try done.
    apply not_elem_of_nil.
  - apply (analyze_city_not_found "cusco" offline_world).
    unfold known_cities. rewrite !elem_of_cons. auto.
Defined.

Lemma for_each_append {A B} (xs : list A) (step : A -> list B -> Py (list B))
    (P : A -> B -> Prop) :
  (forall x acc w,
     returns (step x acc) w (fun r w' =>
       sent w' = sent w /\ exists y, r = (acc ++ [y])%list /\ P x y)) ->
  forall acc w,
    returns (for_each xs step acc) w (fun r w' =>
      sent w' = sent w /\ exists ys, r = (acc ++ ys)%list /\ Forall2 P xs ys).
Proof.
  intros Hstep. induction xs as [|x xs IH]; intros acc w; simpl.
  - apply returns_ret. split; [done|]. exists []. by rewrite app_nil_r.
  - apply returns_bind. eapply returns_mono; [apply Hstep|].
    intros r w1 (Hs1 & y & -> & Hy).
    eapply returns_mono; [apply IH|].
    intros r' w2 (Hs2 & ys & -> & Hys). split; [congruence|].
    exists (y :: ys). split; [by rewrite <- app_assoc | by constructor].
Qed.

(** C10. The cities route calls the event adapter once (one upstream
    request in all) and answers 200 with exactly four entries, one per city
    of the reference table in its order; every entry carries the number of
    events of that one call as [events_affecting], and a [status] among
    "CRÍTICO", "MODERADO" and "SALUDABLE". *)
Theorem cities_summary (w : world) :
  exists events w1 entries w',
    get_nasa_events w = (Ok events, w1) /\
    get_cities w = (Ok (HttpResponse 200 (VList entries)), w') /\
    sent w' = (sent w ++ [events_request])%list /\
    length entries = 4%nat /\
    Forall2 (fun city entry =>
               exists st score,
                 entry = city_entry (length events) city st score /\
                 st ∈ status_labels)
            PERU_CITIES entries.
Proof.
  destruct (get_nasa_events_returns w) as (events & w1 & Hev & Hsent & _).
  exists events, w1.
  enough (returns (get_cities) w (fun r w' =>
            sent w' = (sent w ++ [events_request])%list /\
            exists entries, r = HttpResponse 200 (VList entries) /\
              Forall2 (fun city entry =>
                         exists st score,
                           entry = city_entry (length events) city st score /\
                           st ∈ status_labels)
                      PERU_CITIES entries))
    as (r & w' & Hrun & Hs & entries & -> & Hall).
  { exists entries, w'. repeat split; try done.
    apply Forall2_length in Hall. by rewrite <- Hall. }
  unfold get_cities. apply returns_bind. exists events, w1. split; [exact Hev|].
  apply returns_bind. eapply returns_mono.
  - apply (for_each_append PERU_CITIES _
             (fun city entry =>
                exists st score,
                  entry = city_entry (length events) city st score /\
                  st ∈ status_labels)).
    intros [city_id info] acc w2.
    apply returns_bind. eapply returns_mono;
      [apply calculate_pollution_from_nasa_returns|].
    intros ratios w3 Hs3.
    apply returns_bind. eapply returns_mono; [apply determine_status_returns|].
    intros st w4 [Hs4 Hband].
    apply returns_ret. split; [congruence|].
    eexists. split; [reflexivity|]. exists (fst st), (snd st). split; [done|].
    unfold status_labels. rewrite !elem_of_cons.
    destruct Hband as [(_ & -> & _) | [(_ & _ & -> & _) | (_ & _ & -> & _)]];
      auto.
  - intros r w2 (Hs & ys & -> & Hall). apply returns_ret.
    split; [congruence|]. by exists ys.
Qed.

(** * Further properties

    ** Strings, lists and loops *)

Lemma substring_length (n : nat) (s : string) :
  (String.length (substring 0 n s) <= n)%nat.
Proof.
  revert s. induction n as [|n IH]; intros [|c s]; simpl; try lia.
  specialize (IH s). lia.
Qed.

Lemma list_ascii_length (s : string) :
  length (list_ascii_of_string s) = String.length s.
Proof. induction s as [|c s IH]; simpl; congruence. Qed.

Lemma mapM_inv {A B} (f : A -> Py B) (l : list A) w ys w' :
  mapM f l w = (Ok ys, w') ->
  Forall2 (fun x y => exists w1 w2, f x w1 = (Ok y, w2)) l ys.
Proof.
  revert w ys w'. induction l as [|x xs IH]; intros w ys w'; simpl.
  - intros [= <- <-]. constructor.
  - unfold bind at 1. destruct (f x w) as [[y|e] w1] eqn:Ex; [|done].
    unfold bind at 1. destruct (mapM f xs w1) as [[ys'|e] w2] eqn:Exs; [|done].
    intros [= <- <-]. constructor; eauto.
Qed.

Lemma mapM_length {A B} (f : A -> Py B) (l : list A) w ys w' :
  mapM f l w = (Ok ys, w') -> length ys = length l.
Proof. intros H%mapM_inv. symmetry. by eapply Forall2_length. Qed.

Lemma mapM_Forall {A B} (f : A -> Py B) (P : B -> Prop) (l : list A) w ys w' :
  (forall x w1 y w2, f x w1 = (Ok y, w2) -> P y) ->
  mapM f l w = (Ok ys, w') -> Forall P ys.
Proof.
  intros Hf H%mapM_inv. induction H as [|x y xs ys' (w1 & w2 & Hxy) _ IH];
    constructor; eauto.
Qed.

(** A loop whose every step returns. *)
Lemma mapM_ok {A B} (f : A -> Py B) (R : A -> B -> Prop) (l : list A) ys w :
  (forall x y w1, R x y -> f x w1 = (Ok y, w1)) ->
  Forall2 R l ys -> mapM f l w = (Ok ys, w).
Proof.
  intros Hf H. induction H as [|x y xs ys' Hxy _ IH]; simpl; [done|].
  unfold bind. by rewrite (Hf x y w Hxy), IH.
Qed.

(** A loop one of whose steps raises. *)
Lemma mapM_raises {A B} (f : A -> Py B) (l : list A) (x : A) w :
  (forall a, pure (f a)) ->
  x ∈ l -> (forall w1, exists e, f x w1 = (Raise e, w1)) ->
  exists e, mapM f l w = (Raise e, w).
Proof.
  intros Hpure Hin Hx. induction Hin as [x xs | x y xs _ IH]; simpl.
  - destruct (Hx w) as [e He]. exists e. unfold bind. by rewrite He.
  - unfold bind at 1. pose proof (Hpure y w) as Hw.
    destruct (f y w) as [[b|e] w1]; simpl in Hw; subst w1; [|by eexists].
    destruct (IH Hx) as [e He]. exists e. unfold bind. by rewrite He.
Qed.

Lemma sum_Z_lengths (ls : list (list value)) :
  sum_Z (map (fun l => Z.of_nat (length l)) ls) = Z.of_nat (length (concat ls)).
Proof.
  unfold sum_Z.
  enough (forall acc, fold_left Z.add (map (fun l : list value => Z.of_nat (length l)) ls) acc
                      = acc + Z.of_nat (length (concat ls))) as H by apply H.
  induction ls as [|l ls IH]; intros acc; simpl; [lia|].
  rewrite IH, length_app. lia.
Qed.

Lemma sum_Z_nonneg (l : list Z) : Forall (fun n => 0 <= n) l -> 0 <= sum_Z l.
Proof.
  unfold sum_Z.
  enough (forall acc, 0 <= acc -> Forall (fun n => 0 <= n) l ->
                      0 <= fold_left Z.add l acc) as H by (apply H; lia).
  induction l as [|n l IH]; intros acc Hacc Hl; simpl; [done|].
  inversion Hl; subst. apply IH; [lia | done].
Qed.

(** ** Inverting the operations on values *)

Lemma add_str_inv a b w v w' :
  add_str a b w = (Ok v, w') -> exists s, a = VStr s /\ v = VStr (s ++ b).
Proof. destruct a; try done. intros [= <- <-]. by eexists. Qed.

Lemma slice_to_str_inv n x w s w' :
  slice_to n x w = (Ok (VStr s), w') ->
  exists s0, x = VStr s0 /\ s = substring 0 n s0.
Proof. destruct x; try done. intros [= <- <-]. by eexists. Qed.

Lemma slice_to_date_short x w d w' :
  slice_to 10 x w = (Ok d, w') -> date_short d.
Proof.
  destruct x; try done; intros [= <- <-]; simpl.
  - apply substring_length.
  - rewrite length_take. lia.
Qed.

Lemma slice_iterate_length n x w y w1 items w2 :
  slice_to n x w = (Ok y, w1) -> iterate y w1 = (Ok items, w2) ->
  (length items <= n)%nat.
Proof.
  destruct x; try done; intros [= <- <-] [= <- <-].
  - rewrite length_map, list_ascii_length. apply substring_length.
  - rewrite length_take. lia.
Qed.

Lemma py_len_inv x w n w' : py_len x w = (Ok n, w') -> 0 <= n.
Proof. destruct x; try done; intros [= <- <-]; lia. Qed.

(** ** The world after an adapter *)

Lemma after_request_fields rq w w' :
  after_request rq w w' ->
  nasa_api_key w' = nasa_api_key w /\ upstream w' = upstream w /\
  entropy w' = entropy w /\ clock w' = clock w /\
  ticks w' = ticks w /\ drawn w' = drawn w /\
  sent w' = (sent w ++ [rq])%list.
Proof. by intros [-> | [line ->]]. Qed.

Section GuardedWorld.
Context {A : Type} (body : Py (option A)) (label : string) (fallback : A).

Local Abbreviation guarded :=
  (r <- try_except body (fun e => print (label ++ message e) ;;; ret None) ;;
   match r with Some v => ret v | None => ret fallback end).

(** The adapter ends in the world its [try] block ends in, with one more
    line printed exactly when the block raised. *)
Lemma guarded_world w w0 (Q : A -> Prop) :
  snd (body w) = w0 ->
  safe body w (fun r _ => forall v, r = Some v -> Q v) ->
  returns guarded w (fun v w' =>
    (w' = w0 \/ exists line, w' = log_line line w0) /\ (v = fallback \/ Q v)).
Proof.
  intros Hw Hsafe. apply guarded_returns.
  - intros v w' E. unfold safe in Hsafe. rewrite E in Hw, Hsafe. simpl in Hw.
    subst. split; [by left | right; by apply Hsafe].
  - intros w' E. rewrite E in Hw. simpl in Hw. subst. split; by left.
  - intros e w' E. rewrite E in Hw. simpl in Hw. subst.
    split; [right; by eexists | by left].
Qed.
End GuardedWorld.

(** ** What the adapters return, in every world *)

Lemma event_record_shape event w record w' :
  event_record event w = (Ok record, w') -> event_shape record.
Proof.
  intros H.
  enough (Hs : safe (event_record event) w (fun r _ => event_shape r)).
  { unfold safe in Hs. by rewrite H in Hs. }
  unfold event_record.
  apply safe_bind_any. intros title w1 _.
  apply safe_bind_any. intros geometry w2 _.
  apply safe_bind_any. intros g0 w3 _.
  apply safe_bind_any. intros date w4 _.
  apply safe_bind_any. intros date' w5 Hslice.
  apply safe_bind_any. intros categories w6 _.
  apply safe_bind_any. intros c0 w7 _.
  apply safe_bind_any. intros category w8 _.
  apply safe_ret. exists title, date', category. split; [done|].
  by eapply slice_to_date_short.
Qed.

Lemma get_nasa_events_outcome w :
  returns get_nasa_events w (fun l w' =>
    after_request events_request w w' /\
    (length l <= 3)%nat /\ Forall event_shape l /\
    (upstream_failure w events_request -> l = [])).
Proof.
  unfold get_nasa_events.
  match goal with |- returns (bind (try_except ?b _) _) _ _ => set (body := b) end.
  eapply returns_mono.
  - apply (guarded_world body _ _ w (sent_more events_request w)
             (fun l => (length l <= 3)%nat /\ Forall event_shape l /\
                       ~ upstream_failure w events_request)).
    + subst body. rewrite bind_pure_snd.
      * unfold requests_get. by destruct (upstream w _ _).
      * intros response. eauto 20 with pure_ops.
    + subst body.
      apply safe_bind_any. intros response w2 Hget%requests_get_inv.
      destruct (status_code response =? 200) eqn:Hs; [|by apply safe_ret].
      apply Z.eqb_eq in Hs.
      apply safe_bind_any. intros data w3 Hjson%response_json_inv.
      apply safe_bind_any. intros events w4 _.
      apply safe_bind_any. intros first3 w5 Hslice.
      apply safe_bind_any. intros items w6 Hiter.
      apply safe_bind_any. intros records w7 Hmap.
      apply safe_ret. intros l [= <-]. split; [|split].
      * rewrite (mapM_length _ _ _ _ _ Hmap).
        by eapply slice_iterate_length.
      * eapply mapM_Forall; [|exact Hmap].
        intros x w8 y w9. apply event_record_shape.
      * by eapply upstream_failure_absurd.
  - intros l w' (Hw & [-> | (Hlen & Hshape & Hok)]).
    + split; [exact Hw|]. split; [simpl; lia|]. split; [constructor | done].
    + split; [exact Hw|]. split; [done|]. split; [done|]. by intros F.
Qed.

Lemma get_nasa_apod_outcome w :
  returns get_nasa_apod w (fun v w' =>
    after_request (apod_request w) w w' /\
    (v = apod_fallback \/ apod_shape v) /\
    (upstream_failure w (apod_request w) -> v = apod_fallback)).
Proof.
  unfold get_nasa_apod.
  match goal with |- returns (bind (try_except ?b _) _) _ _ => set (body := b) end.
  eapply returns_mono.
  - apply (guarded_world body _ _ w (sent_more (apod_request w) w)
             (fun v => apod_shape v /\ ~ upstream_failure w (apod_request w))).
    + subst body. unfold bind at 1, get_api_key. cbv beta iota.
      rewrite bind_pure_snd.
      * unfold requests_get. by destruct (upstream w _ _).
      * intros response. eauto 20 with pure_ops.
    + subst body. apply safe_bind_any. intros key w1 [= <- <-].
      apply safe_bind_any. intros response w2 Hget%requests_get_inv.
      destruct (status_code response =? 200) eqn:Hs; [|by apply safe_ret].
      apply Z.eqb_eq in Hs.
      apply safe_bind_any. intros data w3 Hjson%response_json_inv.
      apply safe_bind_any. intros title w4 _.
      apply safe_bind_any. intros url w5 _.
      apply safe_bind_any. intros url' w6 _.
      apply safe_bind_any. intros explanation w7 _.
      apply safe_bind_any. intros sliced w8 Hslice.
      apply safe_bind_any. intros text w9 Hadd.
      apply safe_bind_any. intros date w10 _.
      apply safe_ret. intros v [= <-].
      apply add_str_inv in Hadd as (s & -> & ->).
      apply slice_to_str_inv in Hslice as (s0 & _ & ->).
      split; [|by eapply upstream_failure_absurd].
      exists title, url', (substring 0 200 s0), date. split; [done|].
      apply substring_length.
  - intros v w' (Hw & [-> | (Hshape & Hok)]).
    + split; [exact Hw|]. split; [by left | done].
    + split; [exact Hw|]. split; [by right | by intros F].
Qed.

Lemma get_asteroid_data_outcome w :
  returns get_asteroid_data w (fun v w' =>
    after_request (asteroid_request w) (ticked w) w' /\
    (v = asteroid_fallback \/ asteroid_shape (clock w (ticks w) "%Y-%m-%d") v) /\
    (upstream_failure w (asteroid_request w) -> v = asteroid_fallback)).
Proof.
  unfold get_asteroid_data.
  match goal with |- returns (bind (try_except ?b _) _) _ _ => set (body := b) end.
  eapply returns_mono.
  - apply (guarded_world body _ _ w (sent_more (asteroid_request w) (ticked w))
             (fun v => asteroid_shape (clock w (ticks w) "%Y-%m-%d") v /\
                       ~ upstream_failure w (asteroid_request w))).
    + subst body. unfold bind at 1, now_strftime. cbv beta iota.
      unfold bind at 1, get_api_key. cbv beta iota.
      rewrite bind_pure_snd.
      * unfold requests_get. simpl. by destruct (upstream w _ _).
      * intros response. eauto 20 with pure_ops.
    + subst body. apply safe_bind_any. intros today w1 [= <- <-].
      apply safe_bind_any. intros key w2 [= <- <-].
      apply safe_bind_any. intros response w3 Hget%requests_get_inv.
      destruct (status_code response =? 200) eqn:Hs; [|by apply safe_ret].
      apply Z.eqb_eq in Hs.
      apply safe_bind_any. intros data w4 Hjson%response_json_inv.
      apply safe_bind_any. intros neo w5 _.
      apply safe_bind_any. intros objs w6 _.
      apply safe_bind_any. intros lens w7 Hlens.
      apply safe_ret. intros v [= <-].
      split; [|by eapply upstream_failure_absurd].
      eexists. split; [reflexivity|].
      apply sum_Z_nonneg. eapply mapM_Forall; [|exact Hlens].
      intros x w8 y w9. apply py_len_inv.
  - intros v w' (Hw & [-> | (Hshape & Hok)]).
    + split; [exact Hw|]. split; [by left | done].
    + split; [exact Hw|]. split; [by right | by intros F].
Qed.

Lemma get_earth_imagery_outcome (lat lon : float) w :
  returns (get_earth_imagery [lat; lon]) w (fun v w' =>
    after_request (imagery_request w lat lon) w w' /\
    (v = imagery_fallback \/ imagery_shape v) /\
    (no_success_reply w (imagery_request w lat lon) -> v = imagery_fallback)).
Proof.
  unfold get_earth_imagery.
  match goal with |- returns (bind (try_except ?b _) _) _ _ => set (body := b) end.
  eapply returns_mono.
  - apply (guarded_world body _ _ w (sent_more (imagery_request w lat lon) w)
             (fun v => imagery_shape v /\
                       ~ no_success_reply w (imagery_request w lat lon))).
    + subst body. unfold bind, getitem_list, get_api_key, requests_get. simpl.
      destruct (upstream w _ _) as [r|e]; [|done].
      by destruct (status_code r =? 200).
    + subst body. apply safe_bind_any. intros lon' w1 [= <- <-].
      apply safe_bind_any. intros lat' w2 [= <- <-].
      apply safe_bind_any. intros key w3 [= <- <-].
      apply safe_bind_any. intros response w4 Hget%requests_get_inv.
      destruct (status_code response =? 200) eqn:Hs; [|by apply safe_ret].
      apply Z.eqb_eq in Hs.
      apply safe_ret. intros v [= <-]. split; [by eexists|].
      intros F. by apply (F response).
  - intros v w' (Hw & [-> | (Hshape & Hok)]).
    + split; [exact Hw|]. split; [by left | done].
    + split; [exact Hw|]. split; [by right | by intros F].
Qed.

Lemma random_randint_draws a b w :
  a <= b ->
  returns (random_randint a b) w (fun n w' => a <= n <= b /\ w' = drew w).
Proof.
  intros Hab. unfold random_randint, randbelow, next_word, bind, ret, returns.
  eexists _, _. split; [reflexivity|]. simpl.
  pose proof (Z.mod_pos_bound (entropy w (drawn w)) (b - a + 1)).
  split; [lia | done].
Qed.

Lemma random_choice_draws (seq : list string) w :
  seq <> [] ->
  returns (random_choice seq) w (fun s w' => s ∈ seq /\ w' = drew w).
Proof.
  intros Hne. unfold random_choice, randbelow, next_word, bind, ret, returns. simpl.
  assert (Hlen : 0 < Z.of_nat (length seq)) by (destruct seq; [done | simpl; lia]).
  pose proof (Z.mod_pos_bound (entropy w (drawn w)) _ Hlen) as Hi.
  destruct (seq !! Z.to_nat (entropy w (drawn w) `mod` Z.of_nat (length seq)))
    as [s|] eqn:E.
  - eexists _, _. split; [reflexivity|]. split; [|done].
    by eapply list_elem_of_lookup_2.
  - apply lookup_ge_None in E. lia.
Qed.

Lemma get_mars_weather_outcome w :
  returns get_mars_weather w (fun v w' =>
    mars_shape v /\ w' = drew (drew (drew w))).
Proof.
  unfold get_mars_weather.
  apply returns_bind. eapply returns_mono;
    [apply (random_randint_draws (-80) (-20)); lia|].
  intros temp w1 [Htemp ->].
  apply returns_bind. eapply returns_mono; [by apply random_choice_draws|].
  intros season w2 [Hseason ->].
  apply returns_bind. eapply returns_mono;
    [apply (random_randint_draws 600 900); lia|].
  intros pressure w3 [Hpressure ->].
  apply returns_ret. split; [|done].
  by exists temp, season, pressure.
Qed.

(** ** The aggregator and the classifier, with the words they draw *)

Lemma calculate_pollution_from_nasa_draws city_id (events : list value) w :
  returns (calculate_pollution_from_nasa city_id events) w (fun r w' =>
    w' = drew w /\ snd r = (1 - fst r)%float /\
    (0.2 <=? fst r)%float = true /\ (fst r <=? 0.8)%float = true).
Proof.
  unfold calculate_pollution_from_nasa, random_uniform, random_random,
    next_word, bind, ret, returns.
  eexists _, _. split; [reflexivity|]. simpl.
  split; [done|]. split; [done|]. apply clamp_bounds.
Qed.

Lemma determine_status_draws (b : float) w :
  returns (determine_status b) w (fun r w' =>
    w' = drew w /\ decided_on b (fst r) /\ in_band (fst r) (snd r)).
Proof.
  unfold determine_status, decided_on, in_band.
  destruct (0.6 <? b)%float; [|destruct (0.45 <? b)%float].
  - apply returns_bind.
    eapply returns_mono; [apply (random_randint_draws 20 40); lia|].
    intros n w' [Hn ->]. apply returns_ret. simpl. auto 10.
  - apply returns_bind.
    eapply returns_mono; [apply (random_randint_draws 41 69); lia|].
    intros n w' [Hn ->]. apply returns_ret. simpl. auto 10.
  - apply returns_bind.
    eapply returns_mono; [apply (random_randint_draws 70 85); lia|].
    intros n w' [Hn ->]. apply returns_ret. simpl. auto 10.
Qed.

(** ** When no upstream call succeeds *)

Lemma no_success_failure w w' rq :
  no_upstream_success w -> upstream w' = upstream w -> upstream_failure w' rq.
Proof.
  intros Hno Hup.
  destruct (upstream w' (length (sent w')) rq) as [r|e] eqn:E.
  - eapply bad_status; [exact E|]. rewrite Hup in E. by eapply Hno.
  - by eapply transport_error.
Qed.

Lemma no_success_no_reply w w' rq :
  no_upstream_success w -> upstream w' = upstream w -> no_success_reply w' rq.
Proof. intros Hno Hup r E. rewrite Hup in E. by eapply Hno. Qed.

Lemma known_city_coords (city_id : string) info :
  assoc city_id PERU_CITIES = Some info -> exists lat lon, coords info = [lat; lon].
Proof.
  simpl. repeat (destruct (String.eqb city_id _); [intros [= <-]; by eexists _, _|]).
  done.
Qed.

(** ** The routes, step by step *)

Lemma returns_self {A} (p : Py A) w (Q : A -> world -> Prop) :
  returns p w Q -> returns p w (fun a w' => p w = (Ok a, w') /\ Q a w').
Proof. intros (a & w' & H & HQ). by exists a, w'. Qed.

Lemma api_status_run w :
  returns api_status w (fun r w' =>
    exists (l : list value) (n : nat) (apod_ok asteroids_ok : bool) (count temp : Z),
      (exists w1, get_nasa_events w = (Ok l, w1)) /\ n = length l /\
      r = HttpResponse 200 (VDict [
            ("nasa_connected", VBool true);
            ("apis_operational", VDict [
               ("apod", VBool apod_ok);
               ("eonet", VBool (0 <? Z.of_nat n));
               ("asteroids", VBool asteroids_ok);
               ("mars_weather", VBool true)]);
            ("stats", VDict [
               ("events_today", VInt (Z.of_nat n));
               ("asteroids_near_earth", VInt count);
               ("mars_temperature", VInt temp)])]) /\
      (n <= 3)%nat /\ 0 <= count /\ (asteroids_ok = false -> count = 0) /\
      -80 <= temp <= -20 /\
      sent w' = (sent w ++ [events_request; apod_request w; asteroid_request w])%list /\
      (no_upstream_success w -> n = 0%nat /\ apod_ok = false /\ asteroids_ok = false)).
Proof.
  unfold api_status.
  apply returns_bind. eapply returns_mono;
    [apply returns_self, get_nasa_events_outcome|].
  intros l w1 (Hself & Hw1 & Hlen & _ & Hfail1).
  apply after_request_fields in Hw1 as (Hk1 & Hu1 & _ & Hc1 & Ht1 & _ & Hs1).
  apply returns_bind. eapply returns_mono; [apply get_nasa_apod_outcome|].
  intros apod w2 (Hw2 & Hapod & Hfail2).
  apply after_request_fields in Hw2 as (Hk2 & Hu2 & _ & Hc2 & Ht2 & _ & Hs2).
  apply returns_bind. eapply returns_mono; [apply get_asteroid_data_outcome|].
  intros ast w3 (Hw3 & Hast & Hfail3).
  apply after_request_fields in Hw3 as (_ & _ & _ & _ & _ & _ & Hs3).
  apply returns_bind. eapply returns_mono; [apply get_mars_weather_outcome|].
  intros mars w4 ((temp & season & pressure & -> & Htemp & _) & ->).
  assert (Hsent : sent (drew (drew (drew w3)))
                  = (sent w ++ [events_request; apod_request w; asteroid_request w])%list).
  { simpl. rewrite Hs3. simpl. rewrite Hs2, Hs1, <- !app_assoc. simpl.
    unfold apod_request, asteroid_request.
    by rewrite Hk2, Hc2, Ht2, Hk1, Hc1, Ht1. }
  assert (Hdown : no_upstream_success w ->
                  l = [] /\ apod = apod_fallback /\ ast = asteroid_fallback).
  { intros Hno. split; [|split].
    - apply Hfail1. by apply (no_success_failure w).
    - apply Hfail2. apply (no_success_failure w); [done | congruence].
    - apply Hfail3. apply (no_success_failure w); [done | congruence]. }
  destruct Hapod as [-> | (title & url & s & date & -> & _)];
    destruct Hast as [-> | (count & -> & Hcount)];
    (eexists _, _; split; [reflexivity|]);
    eexists l, (length l), _, _, _, temp;
    (split; [by exists w1|]); (split; [reflexivity|]);
    (split; [reflexivity|]); (split; [done|]);
    (split; [lia || done|]); (split; [done|]); (split; [done|]);
    (split; [done|]); intros Hno; destruct (Hdown Hno) as (-> & Ha & Hb);
    try discriminate Ha; try discriminate Hb; done.
Qed.

Lemma analyze_city_run (city_id : string) info (lat lon : float) w :
  assoc city_id PERU_CITIES = Some info -> coords info = [lat; lon] ->
  returns (analyze_city city_id) w (fun r w' =>
    exists events apod imagery asteroids mars blue st score,
      r = HttpResponse 200 (VDict [
        ("city_info", VDict [
           ("name", VStr (name info));
           ("region", VStr (region info));
           ("population", VInt (population info));
           ("coordinates", VList [VFloat lat; VFloat lon]);
           ("description",
            VStr ("Monitoreo de contaminación lumínica en " ++ name info))]);
        ("pollution_analysis", VDict [
           ("status", VStr st);
           ("health_score", VInt score);
           ("blue_ratio", VFloat (py_round blue 3));
           ("orange_ratio", VFloat (py_round (1 - blue) 3));
           ("last_updated",
            VStr (clock w (S (ticks w)) "%Y-%m-%d %H:%M:%S"))]);
        ("nasa_data", VDict [
           ("apod", apod);
           ("events", VList events);
           ("earth_imagery", imagery);
           ("asteroids", asteroids);
           ("mars_weather", mars)]);
        ("historical_data",
         VList (generate_historical_data city_id blue (1 - blue)));
        ("recommendations",
         VList (map VStr (generate_recommendations st (name info))))]) /\
      ((length events <= 3)%nat /\ Forall event_shape events) /\
      (apod = apod_fallback \/ apod_shape apod) /\
      (imagery = imagery_fallback \/ imagery_shape imagery) /\
      (asteroids = asteroid_fallback \/
       asteroid_shape (clock w (ticks w) "%Y-%m-%d") asteroids) /\
      mars_shape mars /\
      ((0.2 <=? blue)%float = true /\ (blue <=? 0.8)%float = true) /\
      (exists w0, calculate_pollution_from_nasa city_id events w0
                  = (Ok (blue, (1 - blue)%float), drew w0)) /\
      decided_on blue st /\ in_band st score /\
      sent w' = (sent w ++ [events_request; apod_request w;
                            imagery_request w lat lon; asteroid_request w])%list /\
      (no_upstream_success w ->
       events = [] /\ apod = apod_fallback /\ imagery = imagery_fallback /\
       asteroids = asteroid_fallback)).
Proof.
  intros Hinfo Hcoords. unfold analyze_city. rewrite Hinfo, Hcoords.
  apply returns_bind. eapply returns_mono; [apply get_nasa_events_outcome|].
  intros l w1 (Hw1 & Hevents & Hshape & Hfail1).
  apply after_request_fields in Hw1 as (Hk1 & Hu1 & _ & Hc1 & Ht1 & _ & Hs1).
  apply returns_bind. eapply returns_mono; [apply get_nasa_apod_outcome|].
  intros apod w2 (Hw2 & Hapod & Hfail2).
  apply after_request_fields in Hw2 as (Hk2 & Hu2 & _ & Hc2 & Ht2 & _ & Hs2).
  apply returns_bind. eapply returns_mono; [apply get_earth_imagery_outcome|].
  intros imagery w3 (Hw3 & Himagery & Hfail3).
  apply after_request_fields in Hw3 as (Hk3 & Hu3 & _ & Hc3 & Ht3 & _ & Hs3).
  apply returns_bind. eapply returns_mono; [apply get_asteroid_data_outcome|].
  intros ast w4 (Hw4 & Hast & Hfail4).
  apply after_request_fields in Hw4 as (_ & _ & _ & Hc4 & Ht4 & _ & Hs4).
  apply returns_bind. eapply returns_mono; [apply get_mars_weather_outcome|].
  intros mars w5 (Hmars & ->).
  apply returns_bind. eapply returns_mono;
    [apply returns_self, calculate_pollution_from_nasa_draws|].
  intros [blue orange] w6 (Hcalc & -> & Horange & Hlo & Hhi).
  simpl in Horange, Hlo, Hhi. subst orange.
  apply returns_bind. eapply returns_mono; [apply determine_status_draws|].
  intros [st score] w7 (-> & Hdecided & Hband). simpl in Hdecided, Hband.
  apply returns_bind. eexists _, _. split; [reflexivity|].
  apply returns_ret. simpl.
  exists l, apod, imagery, ast, mars, blue, st, score.
  split.
  { simpl in Hc4, Ht4. by rewrite Hc4, Ht4, Hc3, Ht3, Hc2, Ht2, Hc1, Ht1. }
  split; [done|]. split; [done|]. split; [done|].
  split. { by rewrite Hc3, Ht3, Hc2, Ht2, Hc1, Ht1 in Hast. }
  split; [done|]. split; [done|]. split; [by eexists|]. split; [done|].
  split; [done|]. split.
  { rewrite Hs4. simpl. rewrite Hs3, Hs2, Hs1, <- !app_assoc. simpl.
    unfold apod_request, imagery_request, asteroid_request.
    by rewrite Hc3, Ht3, Hk3, Hk2, Hc2, Ht2, Hk1, Hc1, Ht1. }
  intros Hno. split; [|split; [|split]].
  - apply Hfail1. by apply (no_success_failure w).
  - apply Hfail2. apply (no_success_failure w); [done | congruence].
  - apply Hfail3. apply (no_success_no_reply w); [done | congruence].
  - apply Hfail4. apply (no_success_failure w); [done | congruence].
Qed.

Lemma get_cities_run w :
  returns get_cities w (fun r w' =>
    exists (events : list value) entries,
      r = HttpResponse 200 (VList entries) /\
      (length events <= 3)%nat /\
      Forall2 (fun city entry =>
                 exists st score,
                   entry = city_entry (length events) city st score /\
                   in_band st score)
              PERU_CITIES entries).
Proof.
  unfold get_cities.
  apply returns_bind. eapply returns_mono; [apply get_nasa_events_outcome|].
  intros events w1 (_ & Hlen & _).
  apply returns_bind. eapply returns_mono.
  - apply (for_each_append PERU_CITIES _
             (fun city entry =>
                exists st score,
                  entry = city_entry (length events) city st score /\
                  in_band st score)).
    intros [city_id info] acc w2.
    apply returns_bind. eapply returns_mono;
      [apply calculate_pollution_from_nasa_draws|].
    intros ratios w3 (-> & _).
    apply returns_bind. eapply returns_mono; [apply determine_status_draws|].
    intros st w4 (-> & _ & Hband).
    apply returns_ret. split; [done|].
    eexists. split; [reflexivity|]. by exists (fst st), (snd st).
  - intros r w2 (_ & ys & -> & Hall). apply returns_ret.
    by exists events, ys.
Qed.

(** ** The event adapter on a well-formed and on an ill-formed feed *)


Lemma lacks_key_raises event w :
  lacks_key event -> exists e, event_record event w = (Raise e, w).
Proof.
  intros (kv & -> & Hmissing).
  assert (Hsafe : safe (event_record (VDict kv)) w (fun _ _ => False)).
  { unfold event_record.
    apply safe_bind_any. intros title w1 Ht.
    apply safe_bind_any. intros geometry w2 Hg.
    apply safe_bind_any. intros g0 w3 _.
    apply safe_bind_any. intros date w4 _.
    apply safe_bind_any. intros date' w5 _.
    apply safe_bind_any. intros categories w6 Hc.
    exfalso. unfold getitem_str in Ht, Hg, Hc.
    destruct Hmissing as [H | [H | H]]; rewrite H in *; discriminate. }
  pose proof (pure_event_record (VDict kv) w) as Hw.
  unfold safe in Hsafe.
  destruct (event_record (VDict kv) w) as [[r|e] w1]; [done|].
  simpl in Hw. subst w1. by exists e.
Qed.

(** Running a computation by unfolding the operations of the model. *)
Ltac py_step :=
  cbv beta iota zeta delta
    [bind ret raise default from_option id requests_get response_json
     dict_get get_api_key now_strftime slice_to iterate dict_values add_str
     getitem_list].

(** The same, leaving [default] folded. *)
Ltac py_step_keep :=
  cbv beta iota zeta delta
    [bind ret raise requests_get response_json
     dict_get get_api_key now_strftime slice_to iterate dict_values add_str
     getitem_list].

Ltac world_fields :=
  cbn [nasa_api_key upstream sent entropy drawn clock ticks stdout].

Lemma append_empty_r (s : string) : s ++ "" = s.
Proof.
  induction s as [|c s IH]; [done|].
  change (String c (s ++ "") = String c s). by rewrite IH.
Qed.

Lemma no_upstream_success_offline : no_upstream_success offline_world.
Proof. intros n rq r H. discriminate H. Qed.

(** * Further properties of the program

    ** The event adapter *)




(** X3. The adapter is all-or-nothing: when the feed answers 200 with an
    event list and one of its first three events lacks [title], [geometry]
    or [categories], the adapter returns the empty list (not the records of
    the well-formed events) and prints one line. *)
Theorem events_all_or_nothing (w : world) r kv (evs : list value) event :
  upstream w (length (sent w)) events_request = Replied r ->
  status_code r = 200 ->
  resp_json r = Ok (VDict kv) ->
  assoc "events" kv = Some (VList evs) ->
  event ∈ take 3 evs -> lacks_key event ->
  exists line,
    get_nasa_events w = (Ok [], log_line line (sent_more events_request w)).
Proof.
  intros Hu Hs Hj Hev Hin Hlack.
  destruct (mapM_raises event_record (take 3 evs) event
              (sent_more events_request w) pure_event_record Hin)
    as [e He].
  { intros w1. by apply lacks_key_raises. }
  exists ("EONET Error: " ++ message e).
  unfold get_nasa_events. rewrite guarded_eq.
  py_step. fold events_request. rewrite Hu, Hs.
  change (200 =? 200) with true. py_step. rewrite Hj. py_step. rewrite Hev.
  py_step. fold (sent_more events_request w). by rewrite He.
Qed.

Lemma events_all_or_nothing_witness :
  exists line,
    get_nasa_events malformed_world
    = (Ok [], log_line line (sent_more events_request malformed_world)).
Proof.
  eapply (events_all_or_nothing malformed_world _ _ _ (VDict [("title", VStr "A")]));
    try reflexivity.
  - simpl. apply list_elem_of_here.
  - exists [("title", VStr "A")]. split; [reflexivity|]. right. left. reflexivity.
Defined.

(** ** The astronomy-picture adapter *)




(** X6. A 200 answer does not suffice: when the decoded body is not an
    object, or its explanation is present but not a string (null, a
    number, a list), the picture adapter returns its fallback and prints
    one line. *)
Theorem apod_rejects_odd_documents (w : world) r v :
  upstream w (length (sent w)) (apod_request w) = Replied r ->
  status_code r = 200 ->
  resp_json r = Ok v ->
  ((forall kv, v <> VDict kv) \/
   (exists kv x, v = VDict kv /\ assoc "explanation" kv = Some x /\
                 forall s, x <> VStr s)) ->
  exists line,
    get_nasa_apod w
    = (Ok apod_fallback, log_line line (sent_more (apod_request w) w)).
Proof.
  intros Hu Hs Hj Hodd.
  unfold get_nasa_apod. rewrite guarded_eq.
  py_step_keep. fold (apod_request w). rewrite Hu, Hs.
  change (200 =? 200) with true. py_step_keep. rewrite Hj. py_step_keep.
  destruct Hodd as [Hnd | (kv & x & -> & Hx & Hns)].
  - destruct v; try (eexists; reflexivity). by destruct (Hnd kv).
  - py_step_keep. rewrite Hx.
    destruct (truthy (default VNone (assoc "url" kv))); py_step_keep;
      destruct x; simpl; try (eexists; reflexivity); by destruct (Hns s).
Qed.

Lemma apod_rejects_odd_documents_witness :
  exists line,
    get_nasa_apod odd_world
    = (Ok apod_fallback, log_line line (sent_more (apod_request odd_world) odd_world)).
Proof.
  apply (apod_rejects_odd_documents odd_world
           (Response 200 (Ok (VList [VInt 1; VInt 2])) "")
           (VList [VInt 1; VInt 2])); try reflexivity.
  by left.
Defined.

(** ** The asteroid adapter *)

(** X7. In every world the asteroid adapter returns a record that has a
    [count], which is a non-negative integer, and a boolean [success]; the
    count is 0 whenever [success] is false.  So the subscripts of the
    status route on this record never raise. *)
Theorem asteroid_count_nonnegative (w : world) :
  exists v w' n ok,
    get_asteroid_data w = (Ok v, w') /\
    field "count" v = Some (VInt n) /\ 0 <= n /\
    field "success" v = Some (VBool ok) /\ (ok = false -> n = 0).
Proof.
  destruct (get_asteroid_data_outcome w)
    as (v & w' & Hrun & _ & [-> | (n & -> & Hn)] & _).
  - by exists asteroid_fallback, w', 0, false.
  - eexists _, w', n, true. by repeat split.
Qed.

(** X8. When the asteroid feed answers 200 with an object whose
    [near_earth_objects] (an empty dict when absent) maps days to lists,
    the count is the total number of objects over all days, the date is
    the clock reading taken before the request, and that same reading is
    both start and end date of the request. *)
Theorem asteroid_count_totals (w : world) r kv days lists :
  upstream w (length (sent w)) (asteroid_request w) = Replied r ->
  status_code r = 200 ->
  resp_json r = Ok (VDict kv) ->
  default (VDict []) (assoc "near_earth_objects" kv) = VDict days ->
  days_of days lists ->
  get_asteroid_data w
  = (Ok (VDict [("count", VInt (Z.of_nat (length (concat lists))));
                ("date", VStr (clock w (ticks w) "%Y-%m-%d"));
                ("success", VBool true)]),
     sent_more (asteroid_request w) (ticked w)).
Proof.
  intros Hu Hs Hj Hneo Hdays. unfold asteroid_request in Hu. cbv zeta in Hu.
  unfold get_asteroid_data. rewrite guarded_eq.
  py_step_keep. world_fields. rewrite Hu, Hs.
  change (200 =? 200) with true. py_step_keep. rewrite Hj. py_step_keep.
  rewrite Hneo. py_step_keep.
  rewrite (mapM_ok py_len (fun x n => exists l, x = VList l /\ n = Z.of_nat (length l))
             (map snd days) (map (fun l => Z.of_nat (length l)) lists)).
  - by rewrite sum_Z_lengths.
  - by intros x y w1 (l & -> & ->).
  - unfold days_of in Hdays.
    clear Hneo. induction Hdays as [|day l days' lists' Hday _ IH]; simpl;
      [constructor|]. constructor; [by exists l | done].
Qed.

Lemma asteroid_count_totals_witness :
  get_asteroid_data online_world
  = (Ok (VDict [("count", VInt 2); ("date", VStr "2024-01-01");
                ("success", VBool true)]),
     sent_more (asteroid_request online_world) (ticked online_world)).
Proof.
  refine (asteroid_count_totals online_world _
           (match sample_document with VDict kv => kv | _ => [] end)
           [("2024-01-01", VList [VNone; VNone])] [[VNone; VNone]]
           eq_refl eq_refl eq_refl eq_refl _).
  repeat constructor.
Defined.

(** ** Failures of the upstream call *)

(** X9. When the transport raises (time-out, connection error), each of
    the four adapters returns its fallback, has recorded its request, and
    prints exactly one line: its label followed by the text of the
    exception. *)
Theorem transport_errors_are_logged (a : adapter) (w : world) (e : exn) :
  upstream w (length (sent w)) (adapter_request a w) = Failed e ->
  adapter_run a w
  = (Ok (adapter_fallback a),
     log_line (adapter_label a ++ message e)
              (sent_more (adapter_request a w) (before_request a w))).
Proof.
  intros Hu. destruct a; simpl in *.
  - unfold get_nasa_apod. rewrite guarded_eq. py_step_keep.
    fold (apod_request w). by rewrite Hu.
  - unfold bind at 1. unfold get_nasa_events. rewrite guarded_eq. py_step_keep.
    fold events_request. by rewrite Hu.
  - unfold imagery_request in Hu. unfold get_earth_imagery. rewrite guarded_eq.
    unfold bind, getitem_list, get_api_key, requests_get. simpl.
    by rewrite Hu.
  - unfold asteroid_request in Hu. cbv zeta in Hu.
    unfold get_asteroid_data. rewrite guarded_eq. py_step_keep. world_fields.
    by rewrite Hu.
Qed.

Lemma transport_errors_are_logged_witness :
  adapter_run Asteroids offline_world
  = (Ok asteroid_fallback,
     log_line "Asteroid Error: timed out"
              (sent_more (asteroid_request offline_world) (ticked offline_world))).
Proof.
  exact (transport_errors_are_logged Asteroids offline_world
           (Exn Timeout "timed out") eq_refl).
Defined.

(** X10. When the upstream service answers with a status other than 200,
    each of the four adapters returns its fallback and prints nothing: a
    refusal leaves no trace on the standard output, and the body of the
    reply is not read. *)
Theorem refusals_are_silent (a : adapter) (w : world) (r : response) :
  upstream w (length (sent w)) (adapter_request a w) = Replied r ->
  status_code r <> 200 ->
  adapter_run a w
  = (Ok (adapter_fallback a),
     sent_more (adapter_request a w) (before_request a w)).
Proof.
  intros Hu Hs. apply Z.eqb_neq in Hs. destruct a; simpl in *.
  - unfold get_nasa_apod. rewrite guarded_eq. py_step_keep.
    fold (apod_request w). by rewrite Hu, Hs.
  - unfold bind at 1. unfold get_nasa_events. rewrite guarded_eq. py_step_keep.
    fold events_request. by rewrite Hu, Hs.
  - unfold imagery_request in Hu. unfold get_earth_imagery. rewrite guarded_eq.
    unfold bind, getitem_list, get_api_key, requests_get. simpl.
    by rewrite Hu, Hs.
  - unfold asteroid_request in Hu. cbv zeta in Hu.
    unfold get_asteroid_data. rewrite guarded_eq. py_step_keep. world_fields.
    by rewrite Hu, Hs.
Qed.

Lemma refusals_are_silent_witness :
  adapter_run Apod unavailable_world
  = (Ok apod_fallback, sent_more (apod_request unavailable_world) unavailable_world).
Proof.
  apply (refusals_are_silent Apod unavailable_world
           (Response 503 (Raise (Exn JSONDecodeError "Expecting value")) ""));
    [reflexivity | simpl; lia].
Defined.

(** ** The imagery adapter *)

(** X11. Called with fewer than two coordinates, the imagery adapter
    issues no request: the subscript raises, the adapter prints one line
    and returns its fallback. *)
Theorem imagery_needs_two_coordinates (city_coords : list float) (w : world) :
  (length city_coords < 2)%nat ->
  get_earth_imagery city_coords w
  = (Ok imagery_fallback,
     log_line "Earth Imagery Error: list index out of range" w).
Proof.
  intros Hlen. unfold get_earth_imagery. rewrite guarded_eq.
  destruct city_coords as [|lat [|lon rest]]; [done | done | simpl in Hlen; lia].
Qed.

Lemma imagery_needs_two_coordinates_witness :
  get_earth_imagery [(-12.0464)%float] offline_world
  = (Ok imagery_fallback,
     log_line "Earth Imagery Error: list index out of range" offline_world).
Proof.
  apply (imagery_needs_two_coordinates [(-12.0464)%float] offline_world).
  simpl. lia.
Defined.

(** X12. On a 200 reply the imagery adapter reports the image available
    and hands back the final address of the reply; the body of the reply
    is never decoded, and coordinates after the second are ignored.  The
    request carries the second coordinate as [lon] and the first as
    [lat]. *)
Theorem imagery_ignores_body (city_coords : list float) (lat lon : float)
    (w : world) (r : response) :
  city_coords !! 0%nat = Some lat ->
  city_coords !! 1%nat = Some lon ->
  upstream w (length (sent w)) (imagery_request w lat lon) = Replied r ->
  status_code r = 200 ->
  get_earth_imagery city_coords w
  = (Ok (VDict [("available", VBool true); ("url", VStr (resp_url r))]),
     sent_more (imagery_request w lat lon) w).
Proof.
  intros Hlat Hlon Hu Hs. unfold imagery_request in Hu.
  unfold get_earth_imagery. rewrite guarded_eq.
  unfold bind at 1. unfold getitem_list at 1. rewrite Hlon.
  unfold ret at 1. unfold bind at 1. unfold getitem_list at 1. rewrite Hlat.
  unfold ret at 1. unfold bind, get_api_key, requests_get.
  rewrite Hu, Hs. reflexivity.
Qed.

Lemma imagery_ignores_body_witness :
  get_earth_imagery [1%float; 2%float; 3%float] online_world
  = (Ok (VDict [("available", VBool true);
                ("url", VStr "https://example.org/img")]),
     sent_more (imagery_request online_world 1 2) online_world).
Proof.
  exact (imagery_ignores_body [1%float; 2%float; 3%float] 1 2 online_world _
           eq_refl eq_refl eq_refl eq_refl).
Defined.

(** ** The Mars weather stub *)

(** X13. The Mars weather record never fails and needs no upstream call:
    in every world it has a temperature in [-80, -20], one of the four
    season names, a pressure in [600, 900] and a true [success]; it
    consumes exactly three words of the generator and leaves the rest of
    the world alone. *)
Theorem mars_weather_ranges (w : world) :
  exists v,
    get_mars_weather w = (Ok v, drew (drew (drew w))) /\ mars_shape v.
Proof.
  destruct (get_mars_weather_outcome w) as (v & w' & Hrun & Hshape & ->).
  by exists v.
Qed.

(** ** The recommendation generator *)

(** X14. For every status the recommendations are four lines; the first
    is a fixed text around the city name and the other three do not
    depend on the city.  A status other than the critical and the
    moderate label gets the lines of the healthy one. *)
Theorem recommendations_shape (st : string) :
  exists pre post rest,
    length rest = 3%nat /\
    (forall city_name,
       generate_recommendations st city_name
       = (pre ++ city_name ++ post) :: rest) /\
    (st <> "CRÍTICO" -> st <> "MODERADO" ->
     forall city_name,
       generate_recommendations st city_name
       = generate_recommendations "SALUDABLE" city_name).
Proof.
  unfold generate_recommendations.
  destruct (String.eqb_spec st "CRÍTICO") as [-> | Hc];
    [|destruct (String.eqb_spec st "MODERADO") as [-> | Hm]].
  - exists "URGENTE: Reemplazar 50% de LED azules en ", "",
      ["Implementar norma técnica NASA-compatible";
       "Crear zonas de protección de cielo oscuro";
       "Sistema de monitoreo continuo con datos satelitales"].
    split; [reflexivity|]. split; [|done].
    intros city_name. by rewrite append_empty_r.
  - exists "Plan de transición a LED NASA-recomendados en ", "",
      ["Monitoreo mensual con Earth Imagery API";
       "Educación sobre estándares internacionales";
       "Participar en programa NASA 'Dark Sky Cities'"].
    split; [reflexivity|]. split; [|done].
    intros city_name. by rewrite append_empty_r.
  - exists "¡Excelente! ", " cumple estándares NASA",
      ["Mantener certificación 'NASA Dark Sky Friendly'";
       "Compartir prácticas con Red Global NASA";
       "Implementar observatorio ciudadano"].
    split; [reflexivity|]. split; [|done].
    intros city_name. reflexivity.
Qed.

(** ** The three tables *)

(** X15. The lookup tables of the aggregator and of the projector agree
    with the reference table and with each other: a city has a base
    constant exactly when it has a trend and exactly when it is in the
    reference table, and the [growth] stored beside each base constant
    (which the aggregator never reads) is the trend the projector uses,
    defaults included. *)
Theorem tables_agree (city_id : string) :
  (is_Some (base_data !! city_id) <-> is_Some (assoc city_id PERU_CITIES)) /\
  (is_Some (trends !! city_id) <-> is_Some (assoc city_id PERU_CITIES)) /\
  growth (default (CityBase 0.5 0.02) (base_data !! city_id))
  = default 0.02%float (trends !! city_id).
Proof.
  unfold base_data, trends, PERU_CITIES.
  destruct (decide (city_id = "lima")) as [-> | H1]; [by repeat split; eauto|].
  destruct (decide (city_id = "huanuco")) as [-> | H2]; [by repeat split; eauto|].
  destruct (decide (city_id = "cusco")) as [-> | H3]; [by repeat split; eauto|].
  destruct (decide (city_id = "arequipa")) as [-> | H4]; [by repeat split; eauto|].
  rewrite !lookup_insert_ne, !lookup_singleton_ne by done.
  simpl. apply String.eqb_neq in H1, H2, H3, H4. rewrite H1, H2, H3, H4.
  repeat split; by intros [? ?].
Qed.

(** ** The status route *)


(** X17. When no upstream request is ever answered 200, the status route
    still answers 200 and still says [nasa_connected: true]; the three
    upstream services are reported down, with no event and no asteroid,
    and only the Mars stub is reported up. *)
Theorem api_status_degraded (w : world) :
  no_upstream_success w ->
  exists w' temp,
    api_status w
    = (Ok (HttpResponse 200 (status_body false false false 0 0 temp)), w') /\
    -80 <= temp <= -20.
Proof.
  intros Hno.
  destruct (api_status_run w)
    as (r & w' & Hrun & l & n & apod_ok & asteroids_ok & count & temp & _ & _ &
        -> & Hn & Hcount & Hzero & Htemp & Hsent & Hdown).
  destruct (Hdown Hno) as (-> & -> & ->). rewrite (Hzero eq_refl) in Hrun.
  by exists w', temp.
Qed.

Lemma api_status_degraded_witness :
  exists w' temp,
    api_status offline_world
    = (Ok (HttpResponse 200 (status_body false false false 0 0 temp)), w') /\
    -80 <= temp <= -20.
Proof.
  exact (api_status_degraded offline_world no_upstream_success_offline).
Defined.

(** X23. The [eonet] flag of the status route tells whether there are
    events, not whether the feed is up: when the feed answers 200 with an
    object whose [events] is absent or the empty list, the route reports
    [eonet: false] and 0 events, and nothing is printed by the event
    adapter. *)
Theorem status_eonet_needs_events (w : world) r kv :
  upstream w (length (sent w)) events_request = Replied r ->
  status_code r = 200 ->
  resp_json r = Ok (VDict kv) ->
  default (VList []) (assoc "events" kv) = VList [] ->
  get_nasa_events w = (Ok [], sent_more events_request w) /\
  exists w' apod_ok asteroids_ok count temp,
    api_status w
    = (Ok (HttpResponse 200 (status_body apod_ok false asteroids_ok 0 count temp)),
       w').
Proof.
  intros Hu Hs Hj Hev.
  assert (Hrun0 : get_nasa_events w = (Ok [], sent_more events_request w)).
  { unfold get_nasa_events. rewrite guarded_eq.
    py_step_keep. fold events_request. rewrite Hu, Hs.
    change (200 =? 200) with true. py_step_keep. rewrite Hj. py_step_keep.
    by rewrite Hev. }
  split; [exact Hrun0|].
  destruct (api_status_run w)
    as (r' & w' & Hrun & l & n & apod_ok & asteroids_ok & count & temp &
        (w1 & Hl) & -> & -> & _).
  rewrite Hrun0 in Hl. injection Hl as <- _.
  by exists w', apod_ok, asteroids_ok, count, temp.
Qed.

Lemma status_eonet_needs_events_witness :
  get_nasa_events odd_feed_world = (Ok [], sent_more events_request odd_feed_world) /\
  exists w' apod_ok asteroids_ok count temp,
    api_status odd_feed_world
    = (Ok (HttpResponse 200 (status_body apod_ok false asteroids_ok 0 count temp)),
       w').
Proof.
  exact (status_eonet_needs_events odd_feed_world _ [("title", VStr "Orion")]
           eq_refl eq_refl eq_refl eq_refl).
Defined.

(** ** The analysis route *)



(** X19. For a city of the reference table the analysis route issues
    exactly four requests, in the order events, picture, imagery,
    asteroids; the imagery request carries the city's first coordinate as
    latitude and its second as longitude.  The clock is read twice: the
    first reading dates the asteroid request, the second is shown as
    [last_updated]. *)
Theorem analyze_city_requests (city_id : string) (info : city_info) (w : world) :
  assoc city_id PERU_CITIES = Some info ->
  exists r w' lat lon,
    analyze_city city_id w = (Ok r, w') /\
    coords info = [lat; lon] /\
    sent w' = (sent w ++ [events_request; apod_request w;
                          imagery_request w lat lon; asteroid_request w])%list /\
    (exists analysis,
       field "pollution_analysis" (body r) = Some analysis /\
       field "last_updated" analysis
       = Some (VStr (clock w (S (ticks w)) "%Y-%m-%d %H:%M:%S"))).
Proof.
  intros Hinfo. destruct (known_city_coords city_id info Hinfo) as (lat & lon & Hc).
  destruct (analyze_city_run city_id info lat lon w Hinfo Hc)
    as (r & w' & Hrun & events & apod & imagery & asteroids & mars & blue & st &
        score & -> & _ & _ & _ & _ & _ & _ & _ & _ & _ & Hsent & _).
  eexists _, w', lat, lon. split; [exact Hrun|]. split; [done|].
  split; [done|]. by eexists.
Qed.

Lemma analyze_city_requests_witness :
  exists r w' lat lon,
    analyze_city "lima" offline_world = (Ok r, w') /\
    coords (CityInfo "Lima Metropolitana" [(-12.0464)%float; (-77.0428)%float]
                     11000000 "Lima") = [lat; lon] /\
    sent w' = (sent offline_world
               ++ [events_request; apod_request offline_world;
                   imagery_request offline_world lat lon;
                   asteroid_request offline_world])%list /\
    (exists analysis,
       field "pollution_analysis" (body r) = Some analysis /\
       field "last_updated" analysis
       = Some (VStr (clock offline_world (S (ticks offline_world))
                           "%Y-%m-%d %H:%M:%S"))).
Proof.
  exact (analyze_city_requests "lima" _ offline_world eq_refl).
Defined.

(** X20. When no upstream request is ever answered 200, the analysis of a
    city of the reference table still answers 200: its [nasa_data] holds
    the three fallbacks and an empty event list beside the Mars record,
    and the analysis itself is unaffected in form. *)
Theorem analyze_city_degraded (city_id : string) (info : city_info) (w : world) :
  assoc city_id PERU_CITIES = Some info ->
  no_upstream_success w ->
  exists w' blue st score last_updated mars,
    analyze_city city_id w
    = (Ok (HttpResponse 200
             (analysis_body city_id info blue st score last_updated
                            apod_fallback [] imagery_fallback asteroid_fallback
                            mars)), w') /\
    decided_on blue st /\ in_band st score /\ mars_shape mars.
Proof.
  intros Hinfo Hno.
  destruct (known_city_coords city_id info Hinfo) as (lat & lon & Hc).
  destruct (analyze_city_run city_id info lat lon w Hinfo Hc)
    as (r & w' & Hrun & events & apod & imagery & asteroids & mars & blue & st &
        score & -> & _ & _ & _ & _ & Hmars & _ & _ & Hdec & Hband & _ & Hdown).
  destruct (Hdown Hno) as (-> & -> & -> & ->).
  exists w', blue, st, score, (clock w (S (ticks w)) "%Y-%m-%d %H:%M:%S"), mars.
  unfold analysis_body. rewrite Hc. done.
Qed.

Lemma analyze_city_degraded_witness :
  exists w' blue st score last_updated mars,
    analyze_city "arequipa" offline_world
    = (Ok (HttpResponse 200
             (analysis_body "arequipa"
                (CityInfo "Arequipa" [(-16.4090)%float; (-71.5375)%float]
                          1100000 "Arequipa")
                blue st score last_updated
                apod_fallback [] imagery_fallback asteroid_fallback mars)), w') /\
    decided_on blue st /\ in_band st score /\ mars_shape mars.
Proof.
  exact (analyze_city_degraded "arequipa" _ offline_world eq_refl
           no_upstream_success_offline).
Defined.

(** ** The cities route and the single-adapter routes *)

(** X21. In every entry of the cities route the health score lies in the
    band of the entry's status (20..40 critical, 41..69 moderate, 70..85
    healthy), and all entries carry the same [events_affecting], which is
    at most 3. *)
Theorem cities_scores_in_band (w : world) :
  exists (n : nat) entries w',
    get_cities w = (Ok (HttpResponse 200 (VList entries)), w') /\
    (n <= 3)%nat /\
    Forall2 (fun city entry =>
               exists st score,
                 entry = city_entry n city st score /\ in_band st score)
            PERU_CITIES entries.
Proof.
  destruct (get_cities_run w) as (r & w' & Hrun & events & entries & -> & Hn & Hall).
  by exists (length events), entries, w'.
Qed.


(** * Monotone rounding

    The bounds below are what is needed to follow an interval through the
    additions and multiplications of the aggregator: the result of a
    rounding lies on the same side of a binary64 number as the exact value.

    ** Shifting a mantissa to the right *)

Lemma shr_1_nonneg m r s :
  0 <= m ->
  shr_1 (Build_shr_record m r s) = Build_shr_record (m / 2) (Z.odd m) (r || s).
Proof.
  intros Hm. rewrite <- Z.div2_div.
  destruct m as [|[p|p|]|p]; try lia; reflexivity.
Qed.

Lemma shr_1_inv M k mrs :
  0 <= M -> 0 <= k -> shr_inv M k mrs -> shr_inv M (k + 1) (shr_1 mrs).
Proof.
  intros HM Hk [Hm Hrs]. destruct mrs as [m r s]. simpl in Hm, Hrs.
  assert (H2k : 0 < 2 ^ k) by (apply Z.pow_pos_nonneg; lia).
  assert (0 <= m) by (subst m; apply Z.div_pos; lia).
  rewrite shr_1_nonneg by done. unfold shr_inv. rewrite Z.pow_add_r by lia.
  change (2 ^ 1) with 2. split; simpl.
  - subst m. rewrite Z.div_div; lia.
  - intros Hor. rewrite Z.rem_mul_r by lia. rewrite <- Hm.
    pose proof (Z.mod_pos_bound M (2 ^ k) H2k) as HMk.
    rewrite Zmod_odd.
    apply orb_true_iff in Hor as [Hodd | Hr].
    + rewrite Hodd. lia.
    + specialize (Hrs Hr). destruct (Z.odd m); lia.
Qed.

Lemma iter_pos_inv (P : Z -> shr_record -> Prop) (f : shr_record -> shr_record) :
  (forall k x, 0 <= k -> P k x -> P (k + 1) (f x)) ->
  forall p k x, 0 <= k -> P k x -> P (k + Zpos p) (SpecFloat.iter_pos f p x).
Proof.
  intros Hf. induction p as [p IH | p IH |]; intros k x Hk HP; simpl.
  - replace (k + Zpos p~1) with (k + 1 + Zpos p + Zpos p) by lia.
    apply IH; [lia|]. apply IH; [lia|]. by apply Hf.
  - replace (k + Zpos p~0) with (k + Zpos p + Zpos p) by lia.
    apply IH; [lia|]. by apply IH.
  - by apply Hf.
Qed.

Lemma shr_spec (M : Z) (p : positive) :
  0 <= M ->
  shr_inv M (Zpos p) (SpecFloat.iter_pos shr_1 p (Build_shr_record M false false)).
Proof.
  intros HM. change (Zpos p) with (0 + Zpos p).
  apply (iter_pos_inv (shr_inv M)); [|lia|].
  - intros k x Hk. by apply shr_1_inv.
  - split; simpl; [by rewrite Z.div_1_r | done].
Qed.

Lemma round_nearest_even_faithful M k mrs :
  shr_inv M k mrs ->
  faithful M k (round_nearest_even (shr_m mrs) (loc_of_shr_record mrs)).
Proof.
  intros [Hm Hrs]. unfold faithful. rewrite <- Hm.
  destruct mrs as [q [] []]; simpl in *; try (by left);
    try (right; split; [done | by apply Hrs]);
    destruct (Z.even q); try (by left); right; split; (done || by apply Hrs).
Qed.

Lemma fexp_eq x : fexp prec emax x = Z.max (x - 53) (-1074).
Proof. reflexivity. Qed.

Lemma shr_nonpos mrs e n : n <= 0 -> shr mrs e n = (mrs, e).
Proof. destruct n; (lia || reflexivity). Qed.

Lemma pow2_pos n : 0 <= n -> 0 < 2 ^ n.
Proof. intros. apply Z.pow_pos_nonneg; lia. Qed.

Lemma pow2_le a b : 0 <= a <= b -> 2 ^ a <= 2 ^ b.
Proof. intros. apply Z.pow_le_mono_r; lia. Qed.

(** Rounding a positive mantissa that has enough bits: the result is
    read off a faithful rounding of the shifted mantissa. *)
Lemma binary_round_aux_rounded s m e :
  e <= fexp prec emax (Zpos (digits2_pos m) + e) ->
  exists q',
    faithful (Zpos m) (fexp prec emax (Zpos (digits2_pos m) + e) - e) q' /\
    0 <= q' <= 2 ^ 53 /\
    (-1074 < fexp prec emax (Zpos (digits2_pos m) + e) -> 2 ^ 52 <= q') /\
    binary_round_aux prec emax s (Zpos m) e loc_Exact
    = rounded s q' (fexp prec emax (Zpos (digits2_pos m) + e)).
Proof.
  pose proof (digits2_pos_range m) as Hm.
  set (d := Zpos (digits2_pos m)) in *.
  rewrite fexp_eq. set (e1 := Z.max (d + e - 53) (-1074)). intros Hn.
  assert (Hd : 0 < d) by (subst d; lia).
  assert (H2n : 0 < 2 ^ (e1 - e)) by (apply pow2_pos; lia).
  assert (Hq : 0 <= Zpos m / 2 ^ (e1 - e) < 2 ^ 53).
  { split; [apply Z.div_pos; lia|].
    apply Z.div_lt_upper_bound; [done|]. rewrite <- Z.pow_add_r by lia.
    assert (2 ^ d <= 2 ^ (e1 - e + 53)) by (apply pow2_le; lia). lia. }
  assert (Hfirst : exists mrs,
             shr_fexp prec emax (Zpos m) e loc_Exact = (mrs, e1) /\
             shr_inv (Zpos m) (e1 - e) mrs).
  { unfold shr_fexp. simpl Zdigits2. fold d. rewrite fexp_eq. fold e1.
    simpl shr_record_of_loc.
    destruct (e1 - e) as [|p|p] eqn:Hp; try lia.
    - eexists. split; [simpl; f_equal; lia|].
      split; simpl; [by rewrite Z.div_1_r | done].
    - eexists. split; [simpl; f_equal; lia|]. apply shr_spec. lia. }
  destruct Hfirst as (mrs & Hshr & Hinv).
  pose proof (round_nearest_even_faithful _ _ _ Hinv) as Hf.
  set (q' := round_nearest_even (shr_m mrs) (loc_of_shr_record mrs)) in *.
  assert (Hq' : 0 <= q' <= 2 ^ 53) by (destruct Hf as [-> | [-> _]]; lia).
  assert (Hnormal : -1074 < e1 -> 2 ^ 52 <= q').
  { intros He1.
    assert (2 ^ 52 <= Zpos m / 2 ^ (e1 - e)); [|destruct Hf as [-> | [-> _]]; lia].
    apply Z.div_le_lower_bound; [done|]. rewrite <- Z.pow_add_r by lia.
    replace (e1 - e + 52) with (d - 1) by lia. lia. }
  exists q'. split; [exact Hf|]. split; [exact Hq'|]. split; [exact Hnormal|].
  unfold binary_round_aux. rewrite Hshr. fold q'. unfold rounded.
  destruct (Z.eqb_spec q' 0) as [-> | Hz].
  { unfold shr_fexp. rewrite shr_nonpos; [done|].
    simpl Zdigits2. rewrite fexp_eq. lia. }
  destruct (Z.eqb_spec q' (2 ^ 53)) as [-> | Hmax].
  { unfold shr_fexp.
    change (Zdigits2 (2 ^ 53)) with 54. rewrite fexp_eq.
    replace (Z.max (54 + e1 - 53) (-1074) - e1) with 1 by lia.
    change (shr (shr_record_of_loc (2 ^ 53) loc_Exact) e1 1)
      with (Build_shr_record (2 ^ 52) false false, e1 + 1).
    reflexivity. }
  destruct q' as [|r|r]; try lia.
  pose proof (digits2_pos_range r) as Hr.
  assert (Zpos (digits2_pos r) <= 53).
  { destruct (Z.le_gt_cases (Zpos (digits2_pos r)) 53) as [|Hgt]; [done|].
    assert (2 ^ 53 <= 2 ^ (Zpos (digits2_pos r) - 1)) by (apply pow2_le; lia).
    lia. }
  unfold shr_fexp. rewrite shr_nonpos; [by rewrite Pos2Z.id|].
  simpl Zdigits2. rewrite fexp_eq. lia.
Qed.

Lemma bounded_inv mc ec :
  bounded prec emax mc ec = true ->
  -1074 <= ec <= 971 /\ Zpos mc < 2 ^ 53 /\ (-1074 < ec -> 2 ^ 52 <= Zpos mc).
Proof.
  unfold bounded, canonical_mantissa. rewrite fexp_eq.
  intros [Hc He]%andb_prop. apply Z.eqb_eq in Hc. apply Z.leb_le in He.
  change (emax - prec) with 971 in He.
  pose proof (digits2_pos_range mc) as Hm.
  set (d := Zpos (digits2_pos mc)) in *.
  assert (Hd : d <= 53) by lia.
  split; [lia|]. split.
  - assert (2 ^ d <= 2 ^ 53) by (apply pow2_le; subst d; lia). lia.
  - intros Hn. assert (d = 53) as Hd53 by lia. rewrite Hd53 in Hm.
    change (53 - 1) with 52 in Hm. lia.
Qed.

(** The exponent at which a mantissa is rounded. *)
Lemma fexp_cases d e :
  let e1 := fexp prec emax (d + e) in
  -1074 <= e1 /\ d + e - 53 <= e1 /\ (-1074 < e1 -> e1 = d + e - 53).
Proof. rewrite fexp_eq. lia. Qed.

Lemma rounded_lower s q' e1 mc ec :
  0 <= q' <= 2 ^ 53 -> -1074 <= e1 ->
  -1074 <= ec -> Zpos mc < 2 ^ 53 -> (-1074 < ec -> 2 ^ 52 <= Zpos mc) ->
  (ec < e1 /\ 2 ^ 52 <= q') \/ (e1 <= ec /\ Zpos mc * 2 ^ (ec - e1) <= q') ->
  rounded s q' e1 = S754_infinity s \/
  exists mr er, rounded s q' e1 = S754_finite s mr er /\
                (ec < er \/ (ec = er /\ Zpos mc <= Zpos mr)).
Proof.
  intros Hq' He1 Hec Hmc Hnorm Hcase. unfold rounded.
  assert (Hpos : 0 < q').
  { destruct Hcase as [[_ H] | [Hle H]]; [lia|].
    assert (0 < 2 ^ (ec - e1)) by (apply pow2_pos; lia). nia. }
  destruct (Z.eqb_spec q' 0) as [|_]; [lia|].
  destruct (Z.eqb_spec q' (2 ^ 53)) as [-> | Hmax].
  - destruct (e1 + 1 <=? 971); [|by left]. right. eexists _, _. split; [done|].
    destruct Hcase as [[Hlt _] | [Hle HC]]; [left; lia|].
    destruct (Z.eq_dec ec e1) as [-> | Hne]; [left; lia|].
    assert (2 ^ 1 <= 2 ^ (ec - e1)) by (apply pow2_le; lia).
    destruct (Z.eq_dec ec (e1 + 1)) as [-> | Hne']; [|].
    + right. split; [done|]. replace (e1 + 1 - e1) with 1 in HC by lia.
      change (Zpos (Z.to_pos (2 ^ 52))) with (2 ^ 52). change (2 ^ 53) with (2 * 2 ^ 52) in HC.
      change (2 ^ 1) with 2 in *. lia.
    + assert (2 ^ 2 <= 2 ^ (ec - e1)) by (apply pow2_le; lia).
      specialize (Hnorm ltac:(lia)). change (2 ^ 2) with 4 in *.
      change (2 ^ 53) with (2 * 2 ^ 52) in HC. nia.
  - destruct (e1 <=? 971); [|by left]. right. eexists _, _. split; [done|].
    rewrite Z2Pos.id by lia.
    destruct Hcase as [[Hlt _] | [Hle HC]]; [left; lia|].
    destruct (Z.eq_dec ec e1) as [-> | Hne].
    + right. split; [done|]. rewrite Z.sub_diag in HC. simpl in HC. lia.
    + exfalso. assert (2 ^ 1 <= 2 ^ (ec - e1)) by (apply pow2_le; lia).
      specialize (Hnorm ltac:(lia)). change (2 ^ 1) with 2 in *.
      change (2 ^ 53) with (2 * 2 ^ 52) in *. nia.
Qed.

Lemma rounded_upper s q' e1 mc ec :
  0 <= q' <= 2 ^ 53 -> -1074 <= e1 ->
  ec <= 971 -> Zpos mc < 2 ^ 53 -> (-1074 < ec -> 2 ^ 52 <= Zpos mc) ->
  e1 <= ec -> q' <= Zpos mc * 2 ^ (ec - e1) ->
  rounded s q' e1 = S754_zero s \/
  exists mr er, rounded s q' e1 = S754_finite s mr er /\
                (er < ec \/ (er = ec /\ Zpos mr <= Zpos mc)).
Proof.
  intros Hq' He1 Hec Hmc Hnorm Hle HC. unfold rounded.
  destruct (Z.eqb_spec q' 0) as [|Hz]; [by left|]. right.
  destruct (Z.eqb_spec q' (2 ^ 53)) as [-> | Hmax].
  - assert (ec <> e1).
    { intros ->. rewrite Z.sub_diag in HC. simpl in HC. lia. }
    destruct (Z.leb_spec (e1 + 1) 971); [|lia].
    eexists _, _. split; [done|].
    destruct (Z.eq_dec ec (e1 + 1)) as [-> | Hne']; [|left; lia].
    right. split; [done|]. change (Zpos (Z.to_pos (2 ^ 52))) with (2 ^ 52).
    apply Hnorm. lia.
  - destruct (Z.leb_spec e1 971); [|lia].
    eexists _, _. split; [done|]. rewrite Z2Pos.id by lia.
    destruct (Z.eq_dec ec e1) as [-> | Hne]; [|left; lia].
    right. split; [done|]. rewrite Z.sub_diag in HC. simpl in HC. lia.
Qed.

(** Rounding is monotone against a binary64 number below the exact value. *)
Lemma binary_round_aux_lower s m e mc ec K :
  0 <= e + K -> 0 <= ec + K ->
  e <= fexp prec emax (Zpos (digits2_pos m) + e) ->
  bounded prec emax mc ec = true ->
  Zpos mc * 2 ^ (ec + K) <= Zpos m * 2 ^ (e + K) ->
  binary_round_aux prec emax s (Zpos m) e loc_Exact = S754_infinity s \/
  exists mr er,
    binary_round_aux prec emax s (Zpos m) e loc_Exact = S754_finite s mr er /\
    (ec < er \/ (ec = er /\ Zpos mc <= Zpos mr)).
Proof.
  intros HeK HecK Hn Hb Hval.
  destruct (binary_round_aux_rounded s m e Hn) as (q' & Hf & Hq' & _ & ->).
  apply bounded_inv in Hb as (Hec & Hmc & Hnorm).
  pose proof (fexp_cases (Zpos (digits2_pos m)) e) as (He1 & Hlow & Hnormal).
  pose proof (digits2_pos_range m) as Hm.
  set (d := Zpos (digits2_pos m)) in *.
  set (e1 := fexp prec emax (d + e)) in *.
  assert (H2n : 0 < 2 ^ (e1 - e)) by (apply pow2_pos; lia).
  assert (Hqq : Zpos m / 2 ^ (e1 - e) <= q') by (destruct Hf as [-> | [-> _]]; lia).
  apply rounded_lower; try done; try lia.
  destruct (Z.lt_ge_cases ec e1) as [Hlt | Hge]; [left | right]; (split; [lia|]).
  - specialize (Hnormal ltac:(lia)).
    etransitivity; [|exact Hqq]. apply Z.div_le_lower_bound; [done|].
    rewrite <- Z.pow_add_r by lia.
    replace (e1 - e + 52) with (d - 1) by lia. lia.
  - etransitivity; [|exact Hqq]. apply Z.div_le_lower_bound; [done|].
    assert (HP : 0 < 2 ^ (e + K)) by (apply pow2_pos; lia).
    apply (Z.mul_le_mono_pos_r _ _ (2 ^ (e + K))); [done|].
    etransitivity; [|exact Hval].
    replace (ec + K) with ((e1 - e) + (ec - e1) + (e + K)) by lia.
    rewrite (Z.pow_add_r 2 (e1 - e + (ec - e1)) (e + K)),
      (Z.pow_add_r 2 (e1 - e) (ec - e1)) by lia.
    lia.
Qed.

(** Rounding is monotone against a binary64 number above the exact value. *)
Lemma binary_round_aux_upper s m e mc ec K :
  0 <= e + K -> 0 <= ec + K ->
  e <= fexp prec emax (Zpos (digits2_pos m) + e) ->
  bounded prec emax mc ec = true ->
  Zpos m * 2 ^ (e + K) <= Zpos mc * 2 ^ (ec + K) ->
  binary_round_aux prec emax s (Zpos m) e loc_Exact = S754_zero s \/
  exists mr er,
    binary_round_aux prec emax s (Zpos m) e loc_Exact = S754_finite s mr er /\
    (er < ec \/ (er = ec /\ Zpos mr <= Zpos mc)).
Proof.
  intros HeK HecK Hn Hb Hval.
  destruct (binary_round_aux_rounded s m e Hn) as (q' & Hf & Hq' & _ & ->).
  apply bounded_inv in Hb as (Hec & Hmc & Hnorm).
  pose proof (fexp_cases (Zpos (digits2_pos m)) e) as (He1 & Hlow & Hnormal).
  pose proof (digits2_pos_range m) as Hm.
  set (d := Zpos (digits2_pos m)) in *.
  set (e1 := fexp prec emax (d + e)) in *.
  assert (H2n : 0 < 2 ^ (e1 - e)) by (apply pow2_pos; lia).
  assert (HP : 0 < 2 ^ (e + K)) by (apply pow2_pos; lia).
  assert (Hge : e1 <= ec).
  { destruct (Z.lt_ge_cases ec e1) as [Hlt | Hge]; [exfalso | done].
    specialize (Hnormal ltac:(lia)).
    assert (H1 : 2 ^ 52 * 2 ^ (e1 + K) <= Zpos m * 2 ^ (e + K)).
    { replace (e1 + K) with ((e1 - e) + (e + K)) by lia.
      rewrite Z.pow_add_r by lia.
      assert (2 ^ 52 * 2 ^ (e1 - e) <= Zpos m).
      { rewrite <- Z.pow_add_r by lia. replace (52 + (e1 - e)) with (d - 1) by lia. lia. }
      nia. }
    assert (H2 : Zpos mc * 2 ^ (ec + K) < 2 ^ 52 * 2 ^ (e1 + K)).
    { assert (0 < 2 ^ (ec + K)) by (apply pow2_pos; lia).
      assert (2 * 2 ^ (ec + K) <= 2 ^ (e1 + K)).
      { change 2 with (2 ^ 1) at 1. rewrite <- Z.pow_add_r by lia.
        apply pow2_le. lia. }
      change (2 ^ 53) with (2 * 2 ^ 52) in Hmc. nia. }
    lia. }
  assert (Hm' : Zpos m <= Zpos mc * 2 ^ (ec - e1) * 2 ^ (e1 - e)).
  { apply (Z.mul_le_mono_pos_r _ _ (2 ^ (e + K))); [done|].
    etransitivity; [exact Hval|].
    replace (ec + K) with ((ec - e1) + (e1 - e) + (e + K)) by lia.
    rewrite (Z.pow_add_r 2 (ec - e1 + (e1 - e)) (e + K)),
      (Z.pow_add_r 2 (ec - e1) (e1 - e)) by lia.
    lia. }
  apply rounded_upper; try done; try lia.
  destruct Hf as [-> | [-> Hmod]].
  - apply Z.div_le_upper_bound; [done|]. lia.
  - assert (Zpos m <> Zpos mc * 2 ^ (ec - e1) * 2 ^ (e1 - e)).
    { intros Heq. apply Hmod. rewrite Heq. apply Z.mod_mul. lia. }
    assert (Zpos m / 2 ^ (e1 - e) < Zpos mc * 2 ^ (ec - e1)); [|lia].
    apply Z.div_lt_upper_bound; [done|]. lia.
Qed.

Lemma pos_iter_xO (m p : positive) : Zpos (Pos.iter xO m p) = Zpos m * 2 ^ Zpos p.
Proof.
  induction p as [|p IH] using Pos.peano_ind.
  - simpl. lia.
  - rewrite Pos.iter_succ, Pos2Z.inj_xO, IH, Pos2Z.inj_succ, Z.pow_succ_r by lia. lia.
Qed.

Lemma shl_align_spec m e e' :
  exists mz ez,
    shl_align m e e' = (mz, ez) /\ ez = Z.min e e' /\
    Zpos mz = Zpos m * 2 ^ (e - ez).
Proof.
  unfold shl_align. destruct (e' - e) as [|p|p] eqn:Hp.
  - exists m, e. split; [done|]. split; [lia|].
    replace (e - e) with 0 by lia. simpl. lia.
  - exists m, e. split; [done|]. split; [lia|].
    replace (e - e) with 0 by lia. simpl. lia.
  - eexists _, e'. split; [done|]. split; [lia|].
    rewrite pos_iter_xO. f_equal. f_equal. lia.
Qed.

Lemma digits_scaled (m mz : positive) (k : Z) :
  0 <= k -> Zpos mz = Zpos m * 2 ^ k ->
  Zpos (digits2_pos mz) = Zpos (digits2_pos m) + k.
Proof.
  intros Hk Hmz. pose proof (digits2_pos_range m) as Hm.
  set (d := Zpos (digits2_pos m)) in *.
  assert (0 < d) by (subst d; lia).
  assert (0 < 2 ^ k) by (by apply pow2_pos).
  apply digits2_pos_bounds. rewrite Hmz.
  replace (d + k - 1) with (d - 1 + k) by lia.
  rewrite !Z.pow_add_r by lia. nia.
Qed.

(** [binary_round] first aligns the mantissa so that rounding can only
    shift to the right, and keeps the value. *)
Lemma binary_round_aligned s m e K :
  1074 <= K -> 0 <= e + K ->
  exists mz ez,
    binary_round prec emax s m e
    = binary_round_aux prec emax s (Zpos mz) ez loc_Exact /\
    0 <= ez + K /\
    ez <= fexp prec emax (Zpos (digits2_pos mz) + ez) /\
    Zpos mz * 2 ^ (ez + K) = Zpos m * 2 ^ (e + K).
Proof.
  intros HK HeK. unfold binary_round.
  destruct (shl_align_spec m e (fexp prec emax (Zpos (digits2_pos m) + e)))
    as (mz & ez & -> & Hez & Hmz).
  pose proof (fexp_cases (Zpos (digits2_pos m)) e) as (He1 & _ & _).
  exists mz, ez. split; [done|].
  assert (Hk : 0 <= e - ez) by lia.
  pose proof (digits_scaled m mz (e - ez) Hk Hmz) as Hd.
  split; [lia|]. split.
  - rewrite Hd. replace (Zpos (digits2_pos m) + (e - ez) + ez)
      with (Zpos (digits2_pos m) + e) by lia. lia.
  - rewrite Hmz. replace (e + K) with ((e - ez) + (ez + K)) by lia.
    rewrite (Z.pow_add_r 2 (e - ez) (ez + K)) by lia. lia.
Qed.

Lemma binary_round_lower s m e mc ec :
  -1074 <= e -> bounded prec emax mc ec = true ->
  Zpos mc * 2 ^ (ec + 1074) <= Zpos m * 2 ^ (e + 1074) ->
  binary_round prec emax s m e = S754_infinity s \/
  exists mr er,
    binary_round prec emax s m e = S754_finite s mr er /\
    (ec < er \/ (ec = er /\ Zpos mc <= Zpos mr)).
Proof.
  intros He Hb Hval.
  destruct (binary_round_aligned s m e 1074) as (mz & ez & -> & HezK & Hn & Hv); try lia.
  apply (binary_round_aux_lower s mz ez mc ec 1074); try done.
  - apply bounded_inv in Hb. lia.
  - by rewrite Hv.
Qed.

Lemma binary_round_upper s m e mc ec :
  -1074 <= e -> bounded prec emax mc ec = true ->
  Zpos m * 2 ^ (e + 1074) <= Zpos mc * 2 ^ (ec + 1074) ->
  binary_round prec emax s m e = S754_zero s \/
  exists mr er,
    binary_round prec emax s m e = S754_finite s mr er /\
    (er < ec \/ (er = ec /\ Zpos mr <= Zpos mc)).
Proof.
  intros He Hb Hval.
  destruct (binary_round_aligned s m e 1074) as (mz & ez & -> & HezK & Hn & Hv); try lia.
  apply (binary_round_aux_upper s mz ez mc ec 1074); try done.
  - apply bounded_inv in Hb. lia.
  - by rewrite Hv.
Qed.

(** ** Values and comparisons *)

Lemma lex_value_lt m1 e1 m2 e2 :
  bounded prec emax m1 e1 = true -> bounded prec emax m2 e2 = true ->
  e1 < e2 -> Zpos m1 * 2 ^ (e1 + 1074) < Zpos m2 * 2 ^ (e2 + 1074).
Proof.
  intros (He1 & Hm1 & _)%bounded_inv (He2 & _ & Hn2)%bounded_inv Hlt.
  specialize (Hn2 ltac:(lia)).
  assert (0 < 2 ^ (e1 + 1074)) by (apply pow2_pos; lia).
  assert (2 * 2 ^ (e1 + 1074) <= 2 ^ (e2 + 1074)).
  { change 2 with (2 ^ 1) at 1. rewrite <- Z.pow_add_r by lia. apply pow2_le. lia. }
  change (2 ^ 53) with (2 * 2 ^ 52) in Hm1. nia.
Qed.

Lemma canonical_compare m1 e1 m2 e2 :
  bounded prec emax m1 e1 = true -> bounded prec emax m2 e2 = true ->
  match e1 ?= e2 with
  | Lt => Lt
  | Gt => Gt
  | Eq => Pos.compare_cont Eq m1 m2
  end = (Zpos m1 * 2 ^ (e1 + 1074) ?= Zpos m2 * 2 ^ (e2 + 1074)).
Proof.
  intros Hb1 Hb2. symmetry. destruct (Z.compare_spec e1 e2) as [-> | Hlt | Hgt].
  - change (Pos.compare_cont Eq m1 m2) with (Zpos m1 ?= Zpos m2).
    assert (0 < 2 ^ (e2 + 1074)) by (apply pow2_pos; apply bounded_inv in Hb2; lia).
    destruct (Z.compare_spec (Zpos m1) (Zpos m2)) as [Heq | Hlt | Hgt].
    + apply Z.compare_eq_iff. by rewrite Heq.
    + apply Z.compare_lt_iff. nia.
    + apply Z.compare_gt_iff. nia.
  - apply Z.compare_lt_iff. by apply lex_value_lt.
  - apply Z.compare_gt_iff. by apply lex_value_lt.
Qed.

Lemma SF2Z_sign s m e :
  -1074 <= e ->
  (s = true -> SF2Z (S754_finite s m e) < 0) /\
  (s = false -> 0 < SF2Z (S754_finite s m e)).
Proof.
  intros He. assert (0 < 2 ^ (e + 1074)) by (apply pow2_pos; lia).
  split; intros ->; simpl; nia.
Qed.

(** On finite binary64 numbers the comparison of [SpecFloat] is the
    comparison of the values. *)
Lemma SFcompare_SF2Z x y :
  valid_binary x = true -> valid_binary y = true ->
  SFfinite x = true -> SFfinite y = true ->
  SFcompare x y = Some (SF2Z x ?= SF2Z y).
Proof.
  intros Hx Hy Fx Fy.
  destruct x as [sx| | |sx mx ex]; try done;
    destruct y as [sy| | |sy my ey]; try done; simpl in Hx, Hy.
  - pose proof (bounded_inv _ _ Hy) as (He & _).
    pose proof (SF2Z_sign sy my ey ltac:(lia)) as [Hs1 Hs2].
    unfold SFcompare. f_equal. symmetry.
    destruct sy; [apply Z.compare_gt_iff; specialize (Hs1 eq_refl)
                 | apply Z.compare_lt_iff; specialize (Hs2 eq_refl)];
      change (SF2Z (S754_zero sx)) with 0; lia.
  - pose proof (bounded_inv _ _ Hx) as (He & _).
    pose proof (SF2Z_sign sx mx ex ltac:(lia)) as [Hs1 Hs2].
    unfold SFcompare. f_equal. symmetry.
    destruct sx; [apply Z.compare_lt_iff; specialize (Hs1 eq_refl)
                 | apply Z.compare_gt_iff; specialize (Hs2 eq_refl)];
      change (SF2Z (S754_zero sy)) with 0; lia.
  - pose proof (bounded_inv _ _ Hx) as (Hex & _).
    pose proof (bounded_inv _ _ Hy) as (Hey & _).
    pose proof (SF2Z_sign sx mx ex ltac:(lia)) as [Hsx1 Hsx2].
    pose proof (SF2Z_sign sy my ey ltac:(lia)) as [Hsy1 Hsy2].
    unfold SFcompare. f_equal.
    destruct sx, sy; try specialize (Hsx1 eq_refl); try specialize (Hsx2 eq_refl);
      try specialize (Hsy1 eq_refl); try specialize (Hsy2 eq_refl).
    + unfold SF2Z, cond_Zopp. rewrite Z.compare_opp.
      rewrite <- (canonical_compare my ey mx ex) by done.
      rewrite (Z.compare_antisym ey ex).
      change (Pos.compare_cont Eq my mx) with (Pos.compare my mx).
      change (Pos.compare_cont Eq mx my) with (Pos.compare mx my).
      destruct (ey ?= ex); simpl; try done.
      by rewrite (Pos.compare_antisym mx my).
    + symmetry. apply Z.compare_lt_iff. lia.
    + symmetry. apply Z.compare_gt_iff. lia.
    + by apply canonical_compare.
Qed.

Lemma ltb_F2Z (x y : float) :
  finite_float x = true -> finite_float y = true ->
  (x <? y)%float = true <-> F2Z x < F2Z y.
Proof.
  intros Fx Fy. rewrite ltb_spec. unfold SFltb, F2Z.
  rewrite SFcompare_SF2Z by (done || apply Prim2SF_valid).
  destruct (Z.compare_spec (SF2Z (Prim2SF x)) (SF2Z (Prim2SF y))); split; (done || lia).
Qed.

Lemma leb_F2Z (x y : float) :
  finite_float x = true -> finite_float y = true ->
  (x <=? y)%float = true <-> F2Z x <= F2Z y.
Proof.
  intros Fx Fy. rewrite leb_spec. unfold SFleb, F2Z.
  rewrite SFcompare_SF2Z by (done || apply Prim2SF_valid).
  destruct (Z.compare_spec (SF2Z (Prim2SF x)) (SF2Z (Prim2SF y))); split; (done || lia).
Qed.

(** ** The result of a rounding is a binary64 number *)

Lemma rounded_valid s q' e1 :
  0 <= q' <= 2 ^ 53 -> -1074 <= e1 -> (-1074 < e1 -> 2 ^ 52 <= q') ->
  valid_binary (rounded s q' e1) = true.
Proof.
  intros Hq' He1 Hnormal. unfold rounded.
  destruct (Z.eqb_spec q' 0) as [|Hz]; [done|].
  destruct (Z.eqb_spec q' (2 ^ 53)) as [|Hmax].
  - destruct (Z.leb_spec (e1 + 1) 971); [|done].
    unfold valid_binary, bounded, canonical_mantissa.
    change (Zpos (digits2_pos (Z.to_pos (2 ^ 52)))) with 53. rewrite fexp_eq.
    apply andb_true_intro. split; [apply Z.eqb_eq | apply Z.leb_le]; [lia|].
    change (emax - prec) with 971. lia.
  - destruct (Z.leb_spec e1 971); [|done].
    destruct q' as [|r|r]; try lia. rewrite Pos2Z.id.
    unfold valid_binary, bounded, canonical_mantissa. rewrite fexp_eq.
    pose proof (digits2_pos_range r) as Hr.
    set (dr := Zpos (digits2_pos r)) in *.
    assert (0 < dr) by (subst dr; lia).
    assert (dr <= 53).
    { destruct (Z.le_gt_cases dr 53) as [|Hgt]; [done|].
      assert (2 ^ 53 <= 2 ^ (dr - 1)) by (apply pow2_le; lia). lia. }
    assert (-1074 < e1 -> dr = 53).
    { intros Hn. specialize (Hnormal Hn).
      destruct (Z.eq_dec dr 53) as [|Hne]; [done|].
      assert (2 ^ dr <= 2 ^ 52) by (apply pow2_le; lia). lia. }
    apply andb_true_intro. split; [apply Z.eqb_eq | apply Z.leb_le]; [lia|].
    change (emax - prec) with 971. lia.
Qed.

Lemma binary_round_aux_valid s m e :
  e <= fexp prec emax (Zpos (digits2_pos m) + e) ->
  valid_binary (binary_round_aux prec emax s (Zpos m) e loc_Exact) = true.
Proof.
  intros Hn.
  destruct (binary_round_aux_rounded s m e Hn) as (q' & _ & Hq' & Hnormal & ->).
  apply rounded_valid; try done.
  by destruct (fexp_cases (Zpos (digits2_pos m)) e) as (He1 & _).
Qed.

Lemma binary_normalize_valid z e :
  -1074 <= e -> valid_binary (binary_normalize prec emax z e false) = true.
Proof.
  intros He. destruct z as [|p|p]; [done| |]; simpl.
  - destruct (binary_round_aligned false p e 1074) as (mz & ez & -> & _ & Hn & _);
      try lia. by apply binary_round_aux_valid.
  - destruct (binary_round_aligned true p e 1074) as (mz & ez & -> & _ & Hn & _);
      try lia. by apply binary_round_aux_valid.
Qed.

(** From the order on (exponent, mantissa) to the order on values. *)
Lemma lex_value_le m1 e1 m2 e2 :
  bounded prec emax m1 e1 = true -> bounded prec emax m2 e2 = true ->
  e1 < e2 \/ (e1 = e2 /\ Zpos m1 <= Zpos m2) ->
  Zpos m1 * 2 ^ (e1 + 1074) <= Zpos m2 * 2 ^ (e2 + 1074).
Proof.
  intros Hb1 Hb2 [Hlt | [-> Hle]].
  - apply Z.lt_le_incl. by apply lex_value_lt.
  - apply Z.mul_le_mono_nonneg_r; [|done]. apply Z.pow_nonneg. lia.
Qed.

(** ** Bounds through [binary_normalize] *)

Lemma binary_normalize_upper z e mc ec :
  -1074 <= e -> bounded prec emax mc ec = true ->
  Z.abs z * 2 ^ (e + 1074) <= Zpos mc * 2 ^ (ec + 1074) ->
  SFfinite (binary_normalize prec emax z e false) = true /\
  Z.abs (SF2Z (binary_normalize prec emax z e false)) <= Zpos mc * 2 ^ (ec + 1074) /\
  (0 <= z -> 0 <= SF2Z (binary_normalize prec emax z e false)) /\
  (z <= 0 -> SF2Z (binary_normalize prec emax z e false) <= 0).
Proof.
  intros He Hb Hval.
  pose proof (binary_normalize_valid z e He) as Hvalid.
  pose proof (bounded_inv _ _ Hb) as (Hec & _).
  assert (HC : 0 <= Zpos mc * 2 ^ (ec + 1074)).
  { assert (0 < 2 ^ (ec + 1074)) by (apply pow2_pos; lia). nia. }
  destruct z as [|p|p]; simpl binary_normalize in *.
  - simpl. lia.
  - destruct (binary_round_upper false p e mc ec He Hb) as [Hr | (mr & er & Hr & Hlex)];
      [exact Hval | |]; rewrite Hr in *; [simpl; lia|].
    pose proof (lex_value_le mr er mc ec Hvalid Hb Hlex) as Hle.
    pose proof (bounded_inv _ _ Hvalid) as (Her & _).
    assert (0 < 2 ^ (er + 1074)) by (apply pow2_pos; lia).
    simpl. split; [done|]. split; [|nia]. rewrite Z.abs_eq; nia.
  - destruct (binary_round_upper true p e mc ec He Hb) as [Hr | (mr & er & Hr & Hlex)];
      [exact Hval | |]; rewrite Hr in *; [simpl; lia|].
    pose proof (lex_value_le mr er mc ec Hvalid Hb Hlex) as Hle.
    pose proof (bounded_inv _ _ Hvalid) as (Her & _).
    assert (0 < 2 ^ (er + 1074)) by (apply pow2_pos; lia).
    simpl. split; [done|]. split; [|nia]. rewrite Z.abs_opp, Z.abs_eq; nia.
Qed.

Lemma binary_normalize_lower z e mc ec :
  -1074 <= e -> bounded prec emax mc ec = true ->
  Zpos mc * 2 ^ (ec + 1074) <= z * 2 ^ (e + 1074) ->
  binary_normalize prec emax z e false = S754_infinity false \/
  (SFfinite (binary_normalize prec emax z e false) = true /\
   Zpos mc * 2 ^ (ec + 1074) <= SF2Z (binary_normalize prec emax z e false)).
Proof.
  intros He Hb Hval.
  pose proof (binary_normalize_valid z e He) as Hvalid.
  pose proof (bounded_inv _ _ Hb) as (Hec & _).
  assert (0 < 2 ^ (ec + 1074)) by (apply pow2_pos; lia).
  assert (0 < 2 ^ (e + 1074)) by (apply pow2_pos; lia).
  destruct z as [|p|p]; simpl binary_normalize in *; try nia.
  destruct (binary_round_lower false p e mc ec He Hb) as [Hr | (mr & er & Hr & Hlex)];
    [exact Hval | by left |]. right. rewrite Hr in *. split; [done|].
  simpl. by apply lex_value_le.
Qed.

Lemma SFadd_finite sx mx ex sy my ey :
  -1074 <= ex -> -1074 <= ey ->
  exists S ez,
    -1074 <= ez /\
    SFadd prec emax (S754_finite sx mx ex) (S754_finite sy my ey)
    = binary_normalize prec emax S ez false /\
    S * 2 ^ (ez + 1074)
    = SF2Z (S754_finite sx mx ex) + SF2Z (S754_finite sy my ey).
Proof.
  intros Hex Hey. unfold SFadd. set (ez := Z.min ex ey).
  destruct (shl_align_spec mx ex ez) as (mx' & ex' & Hx & Hex' & Hmx).
  destruct (shl_align_spec my ey ez) as (my' & ey' & Hy & Hey' & Hmy).
  rewrite Hx, Hy. simpl fst. eexists _, ez. split; [lia|]. split; [reflexivity|].
  assert (ex' = ez) as -> by lia. assert (ey' = ez) as -> by lia.
  assert (Hvx : Zpos mx' * 2 ^ (ez + 1074) = Zpos mx * 2 ^ (ex + 1074)).
  { rewrite Hmx. replace (ex + 1074) with ((ex - ez) + (ez + 1074)) by lia.
    rewrite (Z.pow_add_r 2 (ex - ez) (ez + 1074)) by lia. lia. }
  assert (Hvy : Zpos my' * 2 ^ (ez + 1074) = Zpos my * 2 ^ (ey + 1074)).
  { rewrite Hmy. replace (ey + 1074) with ((ey - ez) + (ez + 1074)) by lia.
    rewrite (Z.pow_add_r 2 (ey - ez) (ez + 1074)) by lia. lia. }
  unfold SF2Z. rewrite <- Hvx, <- Hvy.
  destruct sx, sy; unfold cond_Zopp; lia.
Qed.

(** ** Bounds on the operations of binary64 floats *)

Lemma finite_cases (x : float) :
  finite_float x = true ->
  (exists s, Prim2SF x = S754_zero s) \/
  (exists s m e, Prim2SF x = S754_finite s m e /\ bounded prec emax m e = true).
Proof.
  unfold finite_float. pose proof (Prim2SF_valid x) as Hv.
  destruct (Prim2SF x) as [s| | |s m e]; try done; intros _.
  - left. by exists s.
  - right. by exists s, m, e.
Qed.

Lemma positive_cases (c : float) :
  finite_float c = true -> 0 < F2Z c ->
  exists mc ec, Prim2SF c = S754_finite false mc ec /\
                bounded prec emax mc ec = true /\
                F2Z c = Zpos mc * 2 ^ (ec + 1074).
Proof.
  intros Hf Hpos. unfold F2Z in *.
  destruct (finite_cases c Hf) as [[s Hc] | (s & mc & ec & Hc & Hb)];
    rewrite Hc in *; [simpl in Hpos; lia|].
  pose proof (bounded_inv _ _ Hb) as (Hec & _).
  destruct (SF2Z_sign s mc ec ltac:(lia)) as [Hneg _].
  destruct s; [specialize (Hneg eq_refl); lia|]. by exists mc, ec.
Qed.

Lemma add_abs (x y c : float) :
  finite_float x = true -> finite_float y = true -> finite_float c = true ->
  Z.abs (F2Z x + F2Z y) <= F2Z c ->
  finite_float (x + y) = true /\ Z.abs (F2Z (x + y)) <= F2Z c /\
  (0 <= F2Z x + F2Z y -> 0 <= F2Z (x + y)) /\
  (F2Z x + F2Z y <= 0 -> F2Z (x + y) <= 0).
Proof.
  intros Fx Fy Fc Hval. unfold finite_float, F2Z in *. rewrite add_spec.
  unfold SF64add.
  destruct (finite_cases x Fx) as [[sx Hx] | (sx & mx & ex & Hx & Hbx)];
    destruct (finite_cases y Fy) as [[sy Hy] | (sy & my & ey & Hy & Hby)];
    rewrite Hx, Hy in *.
  - simpl in Hval. destruct sx, sy; simpl; lia.
  - simpl in *. lia.
  - simpl in *. destruct sy; simpl in *; lia.
  - pose proof (bounded_inv _ _ Hbx) as (Hex & _).
    pose proof (bounded_inv _ _ Hby) as (Hey & _).
    destruct (SFadd_finite sx mx ex sy my ey) as (S & ez & Hez & -> & HS); try lia.
    rewrite <- HS in *.
    assert (HP : 0 < 2 ^ (ez + 1074)) by (apply pow2_pos; lia).
    destruct (Z.eq_dec (SF2Z (Prim2SF c)) 0) as [Hc0 | Hc0].
    + assert (S = 0) as -> by nia. simpl. lia.
    + destruct (positive_cases c Fc) as (mc & ec & Hc & Hbc & Hvc);
        [unfold F2Z; lia|]. unfold F2Z in Hvc. rewrite Hvc in *.
      destruct (binary_normalize_upper S ez mc ec Hez Hbc) as (Hfin & Habs & Hp & Hn).
      { rewrite Z.abs_mul, (Z.abs_eq (2 ^ (ez + 1074))) in Hval by lia. exact Hval. }
      split; [done|]. split; [done|]. split; intros; [apply Hp | apply Hn]; nia.
Qed.

Lemma add_lower (x y c : float) :
  finite_float x = true -> finite_float y = true -> finite_float c = true ->
  0 < F2Z c -> F2Z c <= F2Z x + F2Z y ->
  finite_float (x + y) = true -> F2Z c <= F2Z (x + y).
Proof.
  intros Fx Fy Fc Hpos Hval. unfold finite_float, F2Z in *. rewrite add_spec.
  unfold SF64add.
  destruct (positive_cases c Fc Hpos) as (mc & ec & Hc & Hbc & Hvc).
  unfold F2Z in Hvc.
  destruct (finite_cases x Fx) as [[sx Hx] | (sx & mx & ex & Hx & Hbx)];
    destruct (finite_cases y Fy) as [[sy Hy] | (sy & my & ey & Hy & Hby)];
    rewrite Hx, Hy in *.
  - simpl in Hval. lia.
  - simpl in *. lia.
  - simpl in *. destruct sy; simpl in *; lia.
  - pose proof (bounded_inv _ _ Hbx) as (Hex & _).
    pose proof (bounded_inv _ _ Hby) as (Hey & _).
    destruct (SFadd_finite sx mx ex sy my ey) as (S & ez & Hez & -> & HS); try lia.
    rewrite <- HS, Hvc in *.
    destruct (binary_normalize_lower S ez mc ec Hez Hbc Hval) as [-> | [_ Hle]];
      [done | by intros _].
Qed.

Lemma mul_digits mx ex my ey :
  bounded prec emax mx ex = true -> bounded prec emax my ey = true ->
  ex + ey <= fexp prec emax (Zpos (digits2_pos (mx * my)) + (ex + ey)).
Proof.
  unfold bounded, canonical_mantissa. rewrite !fexp_eq.
  intros [Hcx _]%andb_prop [Hcy _]%andb_prop.
  apply Z.eqb_eq in Hcx, Hcy.
  pose proof (digits2_pos_range mx) as Hmx.
  pose proof (digits2_pos_range my) as Hmy.
  pose proof (digits2_pos_range (mx * my)) as Hmxy.
  set (dx := Zpos (digits2_pos mx)) in *.
  set (dy := Zpos (digits2_pos my)) in *.
  set (dxy := Zpos (digits2_pos (mx * my))) in *.
  assert (0 < dx) by (subst dx; lia). assert (0 < dy) by (subst dy; lia).
  assert (0 < dxy) by (subst dxy; lia).
  assert (Hd : dx + dy - 1 <= dxy).
  { destruct (Z.le_gt_cases (dx + dy - 1) dxy) as [|Hgt]; [done|]. exfalso.
    assert (2 ^ dxy <= 2 ^ (dx + dy - 2)) by (apply pow2_le; lia).
    replace (dx + dy - 2) with ((dx - 1) + (dy - 1)) in * by lia.
    rewrite Z.pow_add_r in * by lia. rewrite Pos2Z.inj_mul in Hmxy.
    assert (0 < 2 ^ (dx - 1)) by (apply pow2_pos; lia).
    assert (0 < 2 ^ (dy - 1)) by (apply pow2_pos; lia). nia. }
  lia.
Qed.

Lemma mul_upper (x y c : float) :
  finite_float x = true -> finite_float y = true -> finite_float c = true ->
  0 <= F2Z x -> 0 <= F2Z y -> F2Z x * F2Z y <= F2Z c * 2 ^ 1074 ->
  finite_float (x * y) = true /\ 0 <= F2Z (x * y) <= F2Z c.
Proof.
  intros Fx Fy Fc Hx0 Hy0 Hval.
  assert (Hc0 : 0 <= F2Z c) by nia.
  pose proof (Prim2SF_valid (x * y)) as Hvalid.
  unfold finite_float, F2Z in *. rewrite mul_spec in *. unfold SF64mul in *.
  destruct (finite_cases x Fx) as [[sx Hx] | (sx & mx & ex & Hx & Hbx)];
    destruct (finite_cases y Fy) as [[sy Hy] | (sy & my & ey & Hy & Hby)];
    rewrite Hx, Hy in *; try (simpl; lia).
  pose proof (bounded_inv _ _ Hbx) as (Hex & _).
  pose proof (bounded_inv _ _ Hby) as (Hey & _).
  destruct (SF2Z_sign sx mx ex ltac:(lia)) as [Hnx Hpx].
  destruct (SF2Z_sign sy my ey ltac:(lia)) as [Hny Hpy].
  destruct sx; [specialize (Hnx eq_refl); lia|].
  destruct sy; [specialize (Hny eq_refl); lia|].
  specialize (Hpx eq_refl). specialize (Hpy eq_refl).
  destruct (positive_cases c Fc) as (mc & ec & Hc & Hbc & Hvc); [unfold F2Z; nia|].
  unfold F2Z in Hvc. rewrite Hvc in *.
  pose proof (bounded_inv _ _ Hbc) as (Hec & _).
  simpl SFmul in *. simpl SF2Z in Hval, Hpx, Hpy.
  destruct (binary_round_aux_upper false (mx * my) (ex + ey) mc ec 2148)
    as [Hr | (mr & er & Hr & Hlex)]; try lia.
  - by apply mul_digits.
  - done.
  - rewrite Pos2Z.inj_mul.
    replace (ex + ey + 2148) with ((ex + 1074) + (ey + 1074)) by lia.
    replace (ec + 2148) with ((ec + 1074) + 1074) by lia.
    rewrite (Z.pow_add_r 2 (ex + 1074) (ey + 1074)),
      (Z.pow_add_r 2 (ec + 1074) 1074) by lia.
    lia.
  - rewrite Hr. simpl. lia.
  - rewrite Hr in *. simpl in Hvalid.
    pose proof (lex_value_le mr er mc ec Hvalid Hbc Hlex) as Hle.
    pose proof (bounded_inv _ _ Hvalid) as (Her & _).
    assert (0 < 2 ^ (er + 1074)) by (apply pow2_pos; lia).
    simpl. split; [done|]. nia.
Qed.

Lemma float_of_Z_bounds (k : Z) (c : float) :
  0 <= k -> finite_float c = true -> k * 2 ^ 1074 <= F2Z c ->
  finite_float (float_of_Z k) = true /\ 0 <= F2Z (float_of_Z k) <= F2Z c.
Proof.
  intros Hk Fc Hval.
  assert (HP : 0 < 2 ^ 1074) by (by apply pow2_pos).
  unfold float_of_Z, finite_float. unfold F2Z at 1 2.
  rewrite Prim2SF_SF2Prim by (apply binary_normalize_valid; lia).
  destruct (Z.eq_dec k 0) as [-> | Hk0].
  { change (binary_normalize prec emax 0 0 false) with (S754_zero false).
    simpl SFfinite. simpl SF2Z. lia. }
  destruct (positive_cases c Fc) as (mc & ec & Hc & Hbc & Hvc); [nia|].
  rewrite Hvc in *.
  destruct (binary_normalize_upper k 0 mc ec ltac:(lia) Hbc) as (Hfin & Habs & Hp & _).
  { rewrite Z.abs_eq by lia. exact Hval. }
  split; [done|]. specialize (Hp Hk). lia.
Qed.

(** ** The random perturbation and the aggregator's sum *)

Lemma random_random_range w :
  exists u,
    random_random w = (Ok u, drew w) /\
    finite_float u = true /\ 0 <= F2Z u <= F2Z 1.
Proof.
  unfold random_random, next_word, bind, ret. eexists. split; [reflexivity|].
  set (k := entropy w (drawn w) mod 2 ^ 53).
  assert (Hk : 0 <= k < 2 ^ 53) by (apply Z.mod_pos_bound; lia).
  assert (HP : 0 < 2 ^ 1074) by (by apply pow2_pos).
  assert (Hc : F2Z 9007199254740992 = 2 ^ 53 * 2 ^ 1074) by reflexivity.
  destruct (float_of_Z_bounds k 9007199254740992) as (Hf & H0 & Hle);
    [lia | reflexivity | rewrite Hc; nia |].
  rewrite Hc in Hle.
  apply mul_upper; try done.
  assert (H1 : F2Z 1 = 2 ^ 1074) by reflexivity.
  assert (H2 : F2Z 0x1p-53 = 2 ^ 1021) by reflexivity.
  rewrite H1, H2.
  assert (H3 : 2 ^ 1074 = 2 ^ 53 * 2 ^ 1021) by reflexivity.
  assert (0 < 2 ^ 1021) by (by apply pow2_pos).
  rewrite H3 in *. nia.
Qed.

Lemma random_uniform_range w :
  exists noise,
    random_uniform (-0.03) 0.03 w = (Ok noise, drew w) /\
    finite_float noise = true /\ Z.abs (F2Z noise) <= F2Z 0.03.
Proof.
  unfold random_uniform, bind.
  destruct (random_random_range w) as (u & -> & Hf & H0 & H1).
  unfold ret. eexists. split; [reflexivity|].
  assert (HP : 0 < 2 ^ 1074) by (by apply pow2_pos).
  assert (Hone : F2Z 1 = 2 ^ 1074) by reflexivity.
  assert (Hw : F2Z (0.03 - -0.03) = 2 * F2Z 0.03) by reflexivity.
  assert (Hn : F2Z (-0.03) = - F2Z 0.03) by reflexivity.
  assert (Hp : 0 < F2Z 0.03) by reflexivity.
  assert (Hw0 : 0 <= F2Z (0.03 - -0.03)) by lia.
  destruct (mul_upper (0.03 - -0.03) u (0.03 - -0.03) eq_refl Hf eq_refl Hw0
              ltac:(lia)) as (Hfp & Hp0 & Hp1).
  { rewrite Hone in H1. rewrite Hw. nia. }
  destruct (add_abs (-0.03) ((0.03 - -0.03) * u) 0.03 eq_refl Hfp eq_refl)
    as (Hfr & Habs & _); [|done].
  rewrite Hn. rewrite Hw in Hp1. lia.
Qed.

Lemma window_ok_inv B lo hi :
  window_ok B lo hi = true ->
  finite_float B = true /\ finite_float lo = true /\ finite_float hi = true /\
  F2Z 0.2 < F2Z lo /\ F2Z hi < F2Z 0.8 /\
  F2Z lo + F2Z 0.03 <= F2Z B /\ F2Z B + F2Z 0.03 <= F2Z hi.
Proof.
  unfold window_ok. rewrite !andb_true_iff, !Z.ltb_lt, !Z.leb_le. tauto.
Qed.

(** A base inside a window stays inside it under the perturbation, and
    the clamp leaves the sum alone. *)
Lemma shifted_window (B lo hi noise : float) :
  window_ok B lo hi = true ->
  finite_float noise = true -> Z.abs (F2Z noise) <= F2Z 0.03 ->
  clamp (B + noise) = (B + noise)%float /\
  finite_float (B + noise) = true /\
  F2Z lo <= F2Z (B + noise) <= F2Z hi.
Proof.
  intros (HB & Hlo & Hhi & H02 & H08 & Hl & Hh)%window_ok_inv Hfn Hn.
  assert (H2pos : 0 < F2Z 0.2) by reflexivity.
  destruct (add_abs B noise hi) as (Hfr & Habs & Hpos & _); try done; [lia|].
  assert (Hle : F2Z lo <= F2Z (B + noise)).
  { apply add_lower; try done; lia. }
  assert (Hge : F2Z (B + noise) <= F2Z hi) by lia.
  split; [|done].
  unfold clamp, py_min, py_max.
  assert (H1 : (B + noise <? 0.8)%float = true).
  { apply ltb_F2Z; [done | reflexivity | lia]. }
  rewrite H1.
  assert (H2 : (0.2 <? B + noise)%float = true).
  { apply ltb_F2Z; [reflexivity | done | lia]. }
  by rewrite H2.
Qed.

Lemma in_window_F2Z (x lo hi : float) :
  finite_float x = true -> finite_float lo = true -> finite_float hi = true ->
  F2Z lo <= F2Z x <= F2Z hi -> in_window x (lo, hi).
Proof.
  intros Fx Flo Fhi [H1 H2]. split; simpl; by apply leb_F2Z.
Qed.

(** The base of a reference city, with at most three events, is inside
    the city's window. *)
Lemma reference_windows (city_id : string) (n : nat) :
  city_id ∈ known_cities -> (n <= 3)%nat ->
  window_ok (base_of city_id + float_of_Z (Z.of_nat n) * 0.015)
            (fst (blue_window city_id n)) (snd (blue_window city_id n)) = true.
Proof.
  intros Hin Hn.
  assert (Hc : city_id = "lima" \/ city_id = "huanuco" \/ city_id = "cusco" \/
               city_id = "arequipa").
  { unfold known_cities in Hin. rewrite !elem_of_cons, elem_of_nil in Hin. tauto. }
  assert (Hcases : (n = 0 \/ n = 1 \/ n = 2 \/ n = 3)%nat) by lia.
  destruct Hc as [-> | [-> | [-> | ->]]];
    destruct Hcases as [-> | [-> | [-> | ->]]]; vm_compute; reflexivity.
Qed.

(** ** The aggregator and the classifier on the reference cities *)

Lemma calculate_pollution_window (city_id : string) (events : list value) w :
  city_id ∈ known_cities -> (length events <= 3)%nat ->
  exists noise blue,
    random_uniform (-0.03) 0.03 w = (Ok noise, drew w) /\
    blue = (base_of city_id + float_of_Z (Z.of_nat (length events)) * 0.015
            + noise)%float /\
    calculate_pollution_from_nasa city_id events w
    = (Ok (blue, (1 - blue)%float), drew w) /\
    finite_float blue = true /\
    F2Z 0.2 < F2Z (fst (blue_window city_id (length events))) /\
    F2Z (fst (blue_window city_id (length events))) <= F2Z blue /\
    F2Z blue <= F2Z (snd (blue_window city_id (length events))) /\
    F2Z (snd (blue_window city_id (length events))) < F2Z 0.8.
Proof.
  intros Hin Hn.
  destruct (random_uniform_range w) as (noise & Hrun & Hfn & Hnoise).
  pose proof (reference_windows city_id (length events) Hin Hn) as Hok.
  destruct (shifted_window _ _ _ noise Hok Hfn Hnoise) as (Hclamp & Hfin & Hlo & Hhi).
  apply window_ok_inv in Hok as (_ & _ & _ & H02 & H08 & _).
  eexists noise, _. split; [exact Hrun|]. split; [reflexivity|].
  split; [|done].
  unfold calculate_pollution_from_nasa, bind. rewrite Hrun. unfold ret.
  fold (base_of city_id). 
  change (py_max 0.2 (py_min 0.8 ?x)) with (clamp x).
  by rewrite Hclamp.
Qed.

Lemma ltb_false_F2Z (x y : float) :
  finite_float x = true -> finite_float y = true ->
  (x <? y)%float = false -> F2Z y <= F2Z x.
Proof.
  intros Fx Fy H. destruct (Z.le_gt_cases (F2Z y) (F2Z x)) as [|Hlt]; [done|].
  apply (ltb_F2Z x y Fx Fy) in Hlt. congruence.
Qed.

(** The classifier on a ratio inside a window. *)
Lemma decided_on_window (blue : float) (st : string) (win : float * float) :
  finite_float blue = true ->
  F2Z (fst win) <= F2Z blue <= F2Z (snd win) ->
  decided_on blue st -> st ∈ statuses_of_window win.
Proof.
  intros Fb [Hlo Hhi] Hdec. unfold statuses_of_window.
  rewrite !elem_of_app.
  destruct Hdec as [(H6 & ->) | [(H6 & H45 & ->) | (H6 & H45 & ->)]].
  - apply ltb_F2Z in H6; [|done..]. left.
    destruct (Z.ltb_spec (F2Z 0.6) (F2Z (snd win))); [|lia].
    apply list_elem_of_here.
  - apply ltb_false_F2Z in H6; [|done..]. apply ltb_F2Z in H45; [|done..].
    right. left.
    destruct (Z.ltb_spec (F2Z 0.45) (F2Z (snd win))); [|lia].
    destruct (Z.leb_spec (F2Z (fst win)) (F2Z 0.6)); [|lia].
    apply list_elem_of_here.
  - apply ltb_false_F2Z in H45; [|done..]. right. right.
    destruct (Z.leb_spec (F2Z (fst win)) (F2Z 0.45)); [|lia].
    apply list_elem_of_here.
Qed.

Lemma decided_on_label (blue : float) (st : string) :
  decided_on blue st -> st ∈ status_labels.
Proof.
  unfold status_labels. rewrite !elem_of_cons.
  intros [(_ & ->) | [(_ & _ & ->) | (_ & _ & ->)]]; tauto.
Qed.

Lemma known_cities_cases (city_id : string) :
  city_id ∈ known_cities ->
  city_id = "lima" \/ city_id = "huanuco" \/ city_id = "cusco" \/
  city_id = "arequipa".
Proof.
  unfold known_cities. rewrite !elem_of_cons, elem_of_nil. tauto.
Qed.

Lemma possible_statuses_window (city_id : string) (n : nat) :
  city_id ∈ known_cities ->
  statuses_of_window (blue_window city_id n) = possible_statuses city_id n.
Proof.
  intros [-> | [-> | [-> | ->]]]%known_cities_cases; destruct n; reflexivity.
Qed.

Lemma possible_statuses_unknown (city_id : string) (n : nat) :
  city_id ∉ known_cities -> possible_statuses city_id n = status_labels.
Proof.
  unfold known_cities. rewrite !not_elem_of_cons. intros (H1 & H2 & H3 & H4 & _).
  unfold possible_statuses.
  rewrite !(proj2 (String.eqb_neq _ _)) by done. by destruct n.
Qed.

(** For every city: the aggregator returns, and the classifier can give
    its result only a status possible for the city. *)
Lemma calculate_pollution_status (city_id : string) (events : list value) w :
  (length events <= 3)%nat ->
  returns (calculate_pollution_from_nasa city_id events) w (fun r w' =>
    w' = drew w /\ snd r = (1 - fst r)%float /\
    forall st, decided_on (fst r) st ->
               st ∈ possible_statuses city_id (length events)).
Proof.
  intros Hn. destruct (decide (city_id ∈ known_cities)) as [Hin | Hout].
  - destruct (calculate_pollution_window city_id events w Hin Hn)
      as (noise & blue & _ & _ & Hrun & Hfin & _ & Hlo & Hhi & _).
    exists (blue, (1 - blue)%float), (drew w). split; [exact Hrun|].
    split; [done|]. split; [done|]. simpl. intros st Hdec.
    rewrite <- possible_statuses_window by done.
    apply (decided_on_window blue); [done | by split | done].
  - eapply returns_mono; [apply calculate_pollution_from_nasa_draws|].
    intros r w' (-> & Horange & _). split; [done|]. split; [done|].
    intros st Hdec. rewrite possible_statuses_unknown by done.
    exact (decided_on_label _ _ Hdec).
Qed.

Lemma known_city_member (city_id : string) info :
  assoc city_id PERU_CITIES = Some info -> city_id ∈ known_cities.
Proof.
  intros Hinfo. destruct (decide (city_id ∈ known_cities)) as [|Hout]; [done|].
  apply known_city_lookup in Hout. congruence.
Qed.

Lemma get_cities_statuses w :
  returns get_cities w (fun r w' =>
    exists (events : list value) entries,
      r = HttpResponse 200 (VList entries) /\
      (length events <= 3)%nat /\
      (no_upstream_success w -> events = []) /\
      Forall2 (fun city entry =>
                 exists st score,
                   entry = city_entry (length events) city st score /\
                   in_band st score /\
                   st ∈ possible_statuses (fst city) (length events))
              PERU_CITIES entries).
Proof.
  unfold get_cities.
  apply returns_bind. eapply returns_mono; [apply get_nasa_events_outcome|].
  intros events w1 (_ & Hlen & _ & Hfail).
  apply returns_bind. eapply returns_mono.
  - apply (for_each_append PERU_CITIES _
             (fun city entry =>
                exists st score,
                  entry = city_entry (length events) city st score /\
                  in_band st score /\
                  st ∈ possible_statuses (fst city) (length events))).
    intros [city_id info] acc w2.
    apply returns_bind. eapply returns_mono;
      [by apply calculate_pollution_status|].
    intros ratios w3 (-> & _ & Hposs).
    apply returns_bind. eapply returns_mono; [apply determine_status_draws|].
    intros st w4 (-> & Hdec & Hband).
    apply returns_ret. split; [done|].
    eexists. split; [reflexivity|]. exists (fst st), (snd st).
    split; [done|]. split; [done|]. by apply Hposs.
  - intros r w2 (_ & ys & -> & Hall). apply returns_ret.
    exists events, ys. split; [done|]. split; [done|]. split; [|done].
    intros Hno. apply Hfail. by apply (no_success_failure w).
Qed.

(** ** Subtraction, and the projector on the ratios of the routes *)

Lemma SFsub_finite sx mx ex sy my ey :
  -1074 <= ex -> -1074 <= ey ->
  exists S ez,
    -1074 <= ez /\
    SFsub prec emax (S754_finite sx mx ex) (S754_finite sy my ey)
    = binary_normalize prec emax S ez false /\
    S * 2 ^ (ez + 1074)
    = SF2Z (S754_finite sx mx ex) - SF2Z (S754_finite sy my ey).
Proof.
  intros Hex Hey. unfold SFsub. set (ez := Z.min ex ey).
  destruct (shl_align_spec mx ex ez) as (mx' & ex' & Hx & Hex' & Hmx).
  destruct (shl_align_spec my ey ez) as (my' & ey' & Hy & Hey' & Hmy).
  rewrite Hx, Hy. simpl fst. eexists _, ez. split; [lia|]. split; [reflexivity|].
  assert (ex' = ez) as -> by lia. assert (ey' = ez) as -> by lia.
  assert (Hvx : Zpos mx' * 2 ^ (ez + 1074) = Zpos mx * 2 ^ (ex + 1074)).
  { rewrite Hmx. replace (ex + 1074) with ((ex - ez) + (ez + 1074)) by lia.
    rewrite (Z.pow_add_r 2 (ex - ez) (ez + 1074)) by lia. lia. }
  assert (Hvy : Zpos my' * 2 ^ (ez + 1074) = Zpos my * 2 ^ (ey + 1074)).
  { rewrite Hmy. replace (ey + 1074) with ((ey - ez) + (ez + 1074)) by lia.
    rewrite (Z.pow_add_r 2 (ey - ez) (ez + 1074)) by lia. lia. }
  unfold SF2Z. rewrite <- Hvx, <- Hvy.
  destruct sx, sy; unfold cond_Zopp; lia.
Qed.

Lemma SF2Z_negb s m e :
  SF2Z (S754_finite (negb s) m e) = - SF2Z (S754_finite s m e).
Proof. destruct s; simpl; lia. Qed.

Lemma sub_abs (x y c : float) :
  finite_float x = true -> finite_float y = true -> finite_float c = true ->
  Z.abs (F2Z x - F2Z y) <= F2Z c ->
  finite_float (x - y) = true /\ Z.abs (F2Z (x - y)) <= F2Z c /\
  (0 <= F2Z x - F2Z y -> 0 <= F2Z (x - y)) /\
  (F2Z x - F2Z y <= 0 -> F2Z (x - y) <= 0).
Proof.
  intros Fx Fy Fc Hval. unfold finite_float, F2Z in *. rewrite sub_spec.
  unfold SF64sub.
  destruct (finite_cases x Fx) as [[sx Hx] | (sx & mx & ex & Hx & Hbx)];
    destruct (finite_cases y Fy) as [[sy Hy] | (sy & my & ey & Hy & Hby)];
    rewrite Hx, Hy in *.
  - simpl in Hval. destruct sx, sy; simpl; lia.
  - unfold SFsub. rewrite SF2Z_negb. simpl SFfinite.
    change (SF2Z (S754_zero sx)) with 0 in *. lia.
  - simpl in *. destruct sx; simpl in *; lia.
  - pose proof (bounded_inv _ _ Hbx) as (Hex & _).
    pose proof (bounded_inv _ _ Hby) as (Hey & _).
    destruct (SFsub_finite sx mx ex sy my ey) as (S & ez & Hez & -> & HS); try lia.
    rewrite <- HS in *.
    assert (HP : 0 < 2 ^ (ez + 1074)) by (apply pow2_pos; lia).
    destruct (Z.eq_dec (SF2Z (Prim2SF c)) 0) as [Hc0 | Hc0].
    + assert (S = 0) as -> by nia. simpl. lia.
    + destruct (positive_cases c Fc) as (mc & ec & Hc & Hbc & Hvc);
        [unfold F2Z; lia|]. unfold F2Z in Hvc. rewrite Hvc in *.
      destruct (binary_normalize_upper S ez mc ec Hez Hbc) as (Hfin & Habs & Hp & Hn).
      { rewrite Z.abs_mul, (Z.abs_eq (2 ^ (ez + 1074))) in Hval by lia. exact Hval. }
      split; [done|]. split; [done|]. split; intros; [apply Hp | apply Hn]; nia.
Qed.

Lemma sub_lower (x y c : float) :
  finite_float x = true -> finite_float y = true -> finite_float c = true ->
  0 < F2Z c -> F2Z c <= F2Z x - F2Z y ->
  finite_float (x - y) = true -> F2Z c <= F2Z (x - y).
Proof.
  intros Fx Fy Fc Hpos Hval. unfold finite_float, F2Z in *. rewrite sub_spec.
  unfold SF64sub.
  destruct (positive_cases c Fc Hpos) as (mc & ec & Hc & Hbc & Hvc).
  unfold F2Z in Hvc.
  destruct (finite_cases x Fx) as [[sx Hx] | (sx & mx & ex & Hx & Hbx)];
    destruct (finite_cases y Fy) as [[sy Hy] | (sy & my & ey & Hy & Hby)];
    rewrite Hx, Hy in *.
  - simpl in Hval. lia.
  - unfold SFsub. rewrite SF2Z_negb.
    change (SF2Z (S754_zero sx)) with 0 in *. lia.
  - simpl in *. destruct sx; simpl in *; lia.
  - pose proof (bounded_inv _ _ Hbx) as (Hex & _).
    pose proof (bounded_inv _ _ Hby) as (Hey & _).
    destruct (SFsub_finite sx mx ex sy my ey) as (S & ez & Hez & -> & HS); try lia.
    rewrite <- HS, Hvc in *.
    destruct (binary_normalize_lower S ez mc ec Hez Hbc Hval) as [-> | [_ Hle]];
      [done | by intros _].
Qed.

(** With a blue ratio of [[0.34, 0.73]] and a drift of at most 0.125 the
    clamps of the projector leave both projected values alone. *)
Lemma history_unclamped (blue d : float) :
  finite_float blue = true -> F2Z 0.34 <= F2Z blue <= F2Z 0.73 ->
  finite_float d = true -> 0 <= F2Z d <= F2Z 0.125 ->
  py_max 0.1 (blue - d) = (blue - d)%float /\
  py_min 0.8 (1 - blue + d) = (1 - blue + d)%float.
Proof.
  intros Fb [Hb1 Hb2] Fd [Hd1 Hd2].
  assert (K1 : F2Z 0.21 + F2Z 0.125 <= F2Z 0.34) by (apply Z.leb_le; reflexivity).
  assert (K2 : 0 < F2Z 0.21) by reflexivity.
  assert (K3 : F2Z 0.1 < F2Z 0.21) by reflexivity.
  assert (K4 : F2Z 1 - F2Z 0.34 <= F2Z 0.67) by (apply Z.leb_le; reflexivity).
  assert (K5 : F2Z 0.73 <= F2Z 1) by (apply Z.leb_le; reflexivity).
  assert (K6 : F2Z 0.67 + F2Z 0.125 <= F2Z 0.795) by (apply Z.leb_le; reflexivity).
  assert (K7 : F2Z 0.795 < F2Z 0.8) by reflexivity.
  split.
  - destruct (sub_abs blue d 0.73 Fb Fd eq_refl) as (Ff & _); [lia|].
    pose proof (sub_lower blue d 0.21 Fb Fd eq_refl K2 ltac:(lia) Ff) as Hlow.
    unfold py_max.
    assert (H : (0.1 <? blue - d)%float = true).
    { apply ltb_F2Z; [reflexivity | done | lia]. }
    by rewrite H.
  - destruct (sub_abs 1 blue 0.67 eq_refl Fb eq_refl) as (Fo & Habs & Hpos & _); [lia|].
    specialize (Hpos ltac:(lia)).
    destruct (add_abs (1 - blue) d 0.795 Fo Fd eq_refl) as (Fs & Hs & _); [lia|].
    unfold py_min.
    assert (H : (1 - blue + d <? 0.8)%float = true).
    { apply ltb_F2Z; [done | reflexivity | lia]. }
    by rewrite H.
Qed.

Lemma reference_drift (city_id : string) (k : Z) :
  city_id ∈ known_cities -> 0 <= k <= 3 ->
  finite_float (float_of_Z k * city_trend city_id) = true /\
  0 <= F2Z (float_of_Z k * city_trend city_id) <= F2Z 0.125.
Proof.
  intros [-> | [-> | [-> | ->]]]%known_cities_cases Hk;
    assert (k = 0 \/ k = 1 \/ k = 2 \/ k = 3) as [-> | [-> | [-> | ->]]] by lia;
    (split; [reflexivity|]); split; apply Z.leb_le; reflexivity.
Qed.

Lemma reference_windows_inside (city_id : string) (n : nat) :
  city_id ∈ known_cities ->
  F2Z 0.34 <= F2Z (fst (blue_window city_id n)) /\
  F2Z (snd (blue_window city_id n)) <= F2Z 0.73.
Proof.
  intros [-> | [-> | [-> | ->]]]%known_cities_cases; destruct n;
    split; apply Z.leb_le; reflexivity.
Qed.

Lemma history_entry_plain (city_id : string) (blue : float) (year : Z) :
  city_id ∈ known_cities -> 2020 <= year <= 2023 ->
  finite_float blue = true -> F2Z 0.34 <= F2Z blue <= F2Z 0.73 ->
  history_entry (city_trend city_id) blue (1 - blue) year
  = plain_entry (city_trend city_id) blue (1 - blue) year.
Proof.
  intros Hin Hyear Fb Hb. unfold history_entry, plain_entry. cbv zeta.
  destruct (reference_drift city_id (2023 - year) Hin ltac:(lia)) as (Fd & Hd).
  destruct (history_unclamped blue _ Fb Hb Fd Hd) as (-> & ->). reflexivity.
Qed.

(** * The aggregator on the routes *)

(** X24. The perturbation the aggregator draws, [random.uniform(-0.03,
    0.03)], lies within [-0.03, 0.03] for every state of the generator,
    rounding included, and consumes one word. *)
Theorem weather_impact_range (w : world) :
  exists noise,
    random_uniform (-0.03) 0.03 w = (Ok noise, drew w) /\
    in_window noise ((-0.03)%float, 0.03%float).
Proof.
  destruct (random_uniform_range w) as (noise & Hrun & Hfin & Habs).
  exists noise. split; [exact Hrun|].
  assert (Hn : F2Z (-0.03) = - F2Z 0.03) by reflexivity.
  apply in_window_F2Z; try done. lia.
Qed.

(** X25. For a city of the reference table and at most three events (all
    the event adapter ever returns) the clamp of the aggregator never
    binds: the blue ratio is the plain sum of base, event impact and
    perturbation; it lies in the window of the city, and the orange ratio
    lies in [0.2, 0.8]. *)
Theorem clamp_never_binds (city_id : string) (events : list value) (w : world) :
  city_id ∈ known_cities -> (length events <= 3)%nat ->
  exists noise blue,
    random_uniform (-0.03) 0.03 w = (Ok noise, drew w) /\
    blue = (base_of city_id + float_of_Z (Z.of_nat (length events)) * 0.015
            + noise)%float /\
    calculate_pollution_from_nasa city_id events w
    = (Ok (blue, (1 - blue)%float), drew w) /\
    in_window blue (blue_window city_id (length events)) /\
    in_window (1 - blue)%float (0.2%float, 0.8%float).
Proof.
  intros Hin Hn.
  destruct (calculate_pollution_window city_id events w Hin Hn)
    as (noise & blue & Hnoise & Hblue & Hrun & Hfin & H02 & Hlo & Hhi & H08).
  pose proof (reference_windows city_id (length events) Hin Hn) as Hok.
  apply window_ok_inv in Hok as (_ & Flo & Fhi & _).
  exists noise, blue. split; [done|]. split; [done|]. split; [done|].
  split.
  - destruct (blue_window city_id (length events)) as [lo hi].
    by apply in_window_F2Z.
  - assert (H1 : (0.2 <=? blue)%float = true).
    { apply leb_F2Z; [reflexivity | done | lia]. }
    assert (H2 : (blue <=? 0.8)%float = true).
    { apply leb_F2Z; [done | reflexivity | lia]. }
    assert (H3 : (blue <? 0.8)%float = true).
    { apply ltb_F2Z; [done | reflexivity | lia]. }
    destruct (sub_one_bounds blue H1 H2) as (_ & _ & Hup & Hdown).
    split; simpl; [by apply Hdown | done].
Qed.

Lemma clamp_never_binds_witness :
  exists noise blue,
    random_uniform (-0.03) 0.03 offline_world = (Ok noise, drew offline_world) /\
    blue = (base_of "cusco" + float_of_Z (Z.of_nat (length [VNone])) * 0.015
            + noise)%float /\
    calculate_pollution_from_nasa "cusco" [VNone] offline_world
    = (Ok (blue, (1 - blue)%float), drew offline_world) /\
    in_window blue (blue_window "cusco" (length [VNone])) /\
    in_window (1 - blue)%float (0.2%float, 0.8%float).
Proof.
  apply (clamp_never_binds "cusco" [VNone] offline_world).
  - apply (list_elem_of_lookup_2 _ 2%nat). reflexivity.
  - simpl. lia.
Defined.

(** X26. In the cities route every status is one the city can get:
    Lima is always CRÍTICO, Huánuco and Cusco are never CRÍTICO, Arequipa
    is never SALUDABLE; and when no upstream request is answered 200 (no
    event), Huánuco is SALUDABLE and Arequipa MODERADO.  The random
    perturbation never changes Lima's status. *)
Theorem cities_statuses (w : world) :
  exists (n : nat) entries w',
    get_cities w = (Ok (HttpResponse 200 (VList entries)), w') /\
    (n <= 3)%nat /\ (no_upstream_success w -> n = 0%nat) /\
    Forall2 (fun city entry =>
               exists st score,
                 entry = city_entry n city st score /\
                 st ∈ possible_statuses (fst city) n)
            PERU_CITIES entries.
Proof.
  destruct (get_cities_statuses w)
    as (r & w' & Hrun & events & entries & -> & Hn & Hquiet & Hall).
  exists (length events), entries, w'. split; [done|]. split; [done|].
  split; [by intros ->%Hquiet|].
  eapply Forall2_impl; [exact Hall|].
  intros city entry (st & score & -> & _ & Hst). by exists st, score.
Qed.

(** X27. In the analysis of a city of the reference table the blue ratio
    lies in the window of the city and the status is one the city can
    get: the analysis of Lima is always CRÍTICO, whatever the upstream
    services and the generator do; when no upstream request is answered
    200 there is no event and the tighter window applies. *)
Theorem analyze_city_status (city_id : string) (info : city_info) (w : world) :
  assoc city_id PERU_CITIES = Some info ->
  exists w' blue st score last_updated apod events imagery asteroids mars,
    analyze_city city_id w
    = (Ok (HttpResponse 200
             (analysis_body city_id info blue st score last_updated
                            apod events imagery asteroids mars)), w') /\
    (length events <= 3)%nat /\
    (no_upstream_success w -> events = []) /\
    in_window blue (blue_window city_id (length events)) /\
    st ∈ possible_statuses city_id (length events) /\
    in_band st score.
Proof.
  intros Hinfo. destruct (known_city_coords city_id info Hinfo) as (lat & lon & Hc).
  pose proof (known_city_member city_id info Hinfo) as Hin.
  destruct (analyze_city_run city_id info lat lon w Hinfo Hc)
    as (r & w' & Hrun & events & apod & imagery & asteroids & mars & blue & st &
        score & -> & (Hn & _) & _ & _ & _ & _ & _ & (w0 & Hcalc) & Hdec & Hband &
        _ & Hdown).
  destruct (calculate_pollution_window city_id events w0 Hin Hn)
    as (noise & blue' & _ & _ & Hrun' & Hfin & _ & Hlo & Hhi & _).
  rewrite Hrun' in Hcalc. injection Hcalc as ->.
  pose proof (reference_windows city_id (length events) Hin Hn) as Hok.
  apply window_ok_inv in Hok as (_ & Flo & Fhi & _).
  exists w', blue, st, score, (clock w (S (ticks w)) "%Y-%m-%d %H:%M:%S"),
    apod, events, imagery, asteroids, mars.
  split; [unfold analysis_body; by rewrite Hc|]. split; [done|].
  split; [intros Hno; by destruct (Hdown Hno)|].
  split.
  - destruct (blue_window city_id (length events)) as [lo hi] eqn:Hwin.
    by apply in_window_F2Z.
  - split; [|done]. rewrite <- possible_statuses_window by done.
    apply (decided_on_window blue); [done | by split | done].
Qed.

Lemma analyze_city_status_witness :
  exists w' blue st score last_updated apod events imagery asteroids mars,
    analyze_city "lima" offline_world
    = (Ok (HttpResponse 200
             (analysis_body "lima"
                (CityInfo "Lima Metropolitana"
                          [(-12.0464)%float; (-77.0428)%float] 11000000 "Lima")
                blue st score last_updated
                apod events imagery asteroids mars)), w') /\
    (length events <= 3)%nat /\
    (no_upstream_success offline_world -> events = []) /\
    in_window blue (blue_window "lima" (length events)) /\
    st ∈ possible_statuses "lima" (length events) /\
    in_band st score.
Proof.
  exact (analyze_city_status "lima" _ offline_world eq_refl).
Defined.

(** X28. On the ratios the aggregator gives a city of the reference table
    (at most three events) the clamps of the projector never bind either:
    every history entry holds the plain differences [blue - k * trend] and
    [orange + k * trend], rounded to three decimals. *)
Theorem projection_unclamped_on_routes (city_id : string) (events : list value)
    (w : world) :
  city_id ∈ known_cities -> (length events <= 3)%nat ->
  exists blue,
    calculate_pollution_from_nasa city_id events w
    = (Ok (blue, (1 - blue)%float), drew w) /\
    generate_historical_data city_id blue (1 - blue)
    = map (plain_entry (city_trend city_id) blue (1 - blue))
          [2020; 2021; 2022; 2023].
Proof.
  intros Hin Hn.
  destruct (calculate_pollution_window city_id events w Hin Hn)
    as (noise & blue & _ & _ & Hrun & Hfin & _ & Hlo & Hhi & _).
  destruct (reference_windows_inside city_id (length events) Hin) as (Hin1 & Hin2).
  exists blue. split; [exact Hrun|].
  rewrite generate_historical_data_unfold, trend_lookup. simpl map.
  rewrite !(history_entry_plain city_id blue) by (done || lia).
  reflexivity.
Qed.

Lemma projection_unclamped_on_routes_witness :
  exists blue,
    calculate_pollution_from_nasa "arequipa" [] offline_world
    = (Ok (blue, (1 - blue)%float), drew offline_world) /\
    generate_historical_data "arequipa" blue (1 - blue)
    = map (plain_entry (city_trend "arequipa") blue (1 - blue))
          [2020; 2021; 2022; 2023].
Proof.
  apply (projection_unclamped_on_routes "arequipa" [] offline_world).
  - apply (list_elem_of_lookup_2 _ 3%nat). reflexivity.
  - simpl. lia.
Defined.
